(** * Laser speckle exposure control: estimators and decision engine

    A shallow embedding of the analysis core of the laser speckle project:
    the radial weight field builders, the histogram / pixel-count / contrast
    estimators and the per-cycle adjustment computation of the UI widget.

    Number model.  Python floats are idealised: the decision engine and the
    two saturation estimators work over exact rationals [Q] (they only add,
    multiply, divide and compare), the weight builders and the contrast
    estimator over the reals [R] (they need [exp] and [sqrt]).  Rounding is
    not modelled.  The real exponential is never zero, while the
    exponential of a double underflows to 0.0 below an exponent of about
    -745: a statement that depends on the difference carries the range of
    the exponents as a hypothesis ([within_exponent_range]). *)

From Stdlib Require Import String ZArith QArith Qminmax Qabs Qround Reals List Bool.
From Stdlib Require Import Lia Psatz.
Import ListNotations.

(** ** Exceptions and results *)

Inductive exn : Type :=
| ZeroDivisionError   (* raised by numpy.average when the weights sum to zero *)
| ValueError          (* shape mismatch, or a reduction over an empty array *)
| TypeError           (* numpy.average on arrays of different shapes *)
| DataError.          (* named by the specification; no code path raises it *)

Inductive result (A : Type) : Type :=
| Ok (a : A)
| Raise (e : exn).
Arguments Ok {A} a.
Arguments Raise {A} e.

Definition bind {A B : Type} (m : result A) (k : A -> result B) : result B :=
  match m with
  | Ok a => k a
  | Raise e => Raise e
  end.

Notation "x <- m ;; k" := (bind m (fun x => k))
  (at level 61, m at next level, right associativity).

(** ** Rational helpers *)

Module QUtil.
Local Open Scope Q_scope.

Definition Qltb (x y : Q) : bool := negb (Qle_bool y x).
Definition Qleb (x y : Q) : bool := Qle_bool x y.

(** Python's [int(x)] on a float: truncation toward zero. *)
Definition int_of_Q (q : Q) : Z := Z.quot (Qnum q) (Zpos (Qden q)).

Fixpoint Qsum (l : list Q) : Q :=
  match l with
  | [] => 0
  | x :: r => x + Qsum r
  end.

(** [d.get(key, default)] on an optional entry. *)
Definition get {A : Type} (o : option A) (default : A) : A :=
  match o with
  | Some v => v
  | None => default
  end.

Definition is_in {A : Type} (o : option A) : bool :=
  match o with
  | Some _ => true
  | None => false
  end.

End QUtil.

(** ** Arrays

    A 2-D numpy array is a list of rows; [flatten] is [concat].  An image
    carries its dtype, which fixes the largest sample value. *)

Module Numpy.
Import QUtil.
Local Open Scope Q_scope.

Inductive dtype : Type := uint8 | uint16.

Record Image : Type := mkImage {
  img_dtype : dtype;
  img_rows : list (list Z)
}.

Definition WeightMask : Type := list (list Q).

Definition flatten {A : Type} (rows : list (list A)) : list A := concat rows.

Definition shape {A : Type} (rows : list (list A)) : list nat :=
  map (@length A) rows.

Definition same_shape {A B : Type} (a : list (list A)) (b : list (list B))
  : bool :=
  if list_eq_dec Nat.eq_dec (shape a) (shape b) then true else false.

Definition max_possible_value (d : dtype) : Z :=
  match d with
  | uint16 => 65535
  | uint8 => 255
  end.

(** What the dtype guarantees about the samples. *)
Definition in_dtype (d : dtype) (v : Z) : bool :=
  ((0 <=? v) && (v <=? max_possible_value d))%Z.

Definition wf_image (img : Image) : bool :=
  forallb (forallb (in_dtype (img_dtype img))) (img_rows img).

Definition size (img : Image) : nat := length (flatten (img_rows img)).

(** [numpy.average(values, weights=weights)]: it refuses weights that sum
    to zero. *)
Definition np_average (values weights : list Q) : result Q :=
  let scl := Qsum weights in
  if Qeq_bool scl 0 then Raise ZeroDivisionError
  else Ok (Qsum (map (fun p => fst p * snd p) (combine values weights)) / scl).

(** [numpy.histogram(a, bins=256, range=(0, 255), weights=w)].  The bin
    edges are [k * 255 / 256]; the last bin is closed on the right and
    samples outside the range are dropped. *)
Definition bin_index (v : Z) : Z :=
  if (v =? 255)%Z then 255%Z else ((v * 256) / 255)%Z.

Definition in_hist_range (v : Z) : bool := ((0 <=? v) && (v <=? 255))%Z.

Definition bin_weight (a : list Z) (w : list Q) (k : Z) : Q :=
  Qsum (map snd (filter (fun p => in_hist_range (fst p)
                                  && (bin_index (fst p) =? k)%Z)
                        (combine a w))).

Definition np_histogram (a : list Z) (w : list Q) : list Q :=
  map (fun k => bin_weight a w (Z.of_nat k)) (seq 0 256).

(** The slice [l[t:]], with Python's reading of a negative [t]. *)
Definition slice_from {A : Type} (t : Z) (l : list A) : list A :=
  if (t <? 0)%Z
  then skipn (Z.to_nat (Z.max 0 (Z.of_nat (length l) + t))) l
  else skipn (Z.to_nat t) l.

Fixpoint list_max_Z (l : list Z) (acc : Z) : Z :=
  match l with
  | [] => acc
  | x :: r => list_max_Z r (Z.max acc x)
  end.

End Numpy.

(** ** Real helpers *)

Module RUtil.
Local Open Scope R_scope.

Fixpoint Rsum (l : list R) : R :=
  match l with
  | [] => 0
  | x :: r => x + Rsum r
  end.

(** [a.max()]: numpy refuses an empty array. *)
Definition list_max (l : list R) : result R :=
  match l with
  | [] => Raise ValueError
  | x :: r => Ok (fold_left Rmax r x)
  end.

(** The array whose entry at row [y], column [x] is [f y x]. *)
Definition grid {A : Type} (h w : nat) (f : nat -> nat -> A) : list (list A) :=
  map (fun y => map (fun x => f y x) (seq 0 w)) (seq 0 h).

(** A division whose zero divisor counts as a failure. *)
Definition checked_div (a b : R) : result R :=
  if Req_dec_T b 0 then Raise ZeroDivisionError else Ok (a / b).

Fixpoint sequence {A : Type} (l : list (result A)) : result (list A) :=
  match l with
  | [] => Ok []
  | m :: r => x <- m ;; xs <- sequence r ;; Ok (x :: xs)
  end.

Fixpoint insert_sorted (x : R) (l : list R) : list R :=
  match l with
  | [] => [x]
  | y :: r => if Rle_dec x y then x :: l else y :: insert_sorted x r
  end.

Definition sort (l : list R) : list R := fold_right insert_sorted [] l.

End RUtil.

(** ** Histogram-saturation estimator ([histogram_saturation_analyzer.py]) *)

Module histogram_saturation_analyzer.
Import QUtil RUtil Numpy.
Local Open Scope R_scope.

(** Lines 62-96: the squared-Gaussian weight mask, normalised by its
    maximum.  The same function is repeated in the pixel-count and the
    contrast analyzers.  [exp] is the real exponential: the mask agrees
    with numpy's as long as no exponent underflows
    ([Properties.within_exponent_range]); beyond that numpy's weights
    become 0.0 and the division by the maximum may be 0.0 / 0.0. *)
Definition create_radial_weight_mask (img_shape : nat * nat)
    (center : option (R * R)) (sigma : option R) : result (list (list R)) :=
  let '(height, width) := img_shape in
  let center :=
    match center with
    | Some c => c
    | None => (INR (height / 2), INR (width / 2))
    end in
  let sigma :=
    match sigma with
    | Some s => s
    | None => INR (Nat.min height width / 6)
    end in
  let weight_mask :=
    grid height width (fun y x =>
      let y_dist := (INR y - fst center) ^ 2 in
      let x_dist := (INR x - snd center) ^ 2 in
      let dist_from_center := sqrt (y_dist + x_dist) in
      exp (- 0.5 * (dist_from_center / sigma) ^ 2)) in
  let weight_mask := map (map (fun v => v ^ 2)) weight_mask in
  m <- list_max (concat weight_mask) ;;
  Ok (map (map (fun v => v / m)) weight_mask).

Local Close Scope R_scope.
Local Open Scope Q_scope.

(** The entries of the returned dictionary that carry numbers or verdicts.
    The percentiles, the dynamic range, the standard deviation (a square
    root of [weighted_variance]) and the visualisation arrays are left
    out: neither the verdict nor the engine reads them. *)
Record Report : Type := mkReport {
  histogram : list Q;
  histogram_percentage : list Q;
  high_threshold_value : Z;
  high_intensity_sum : Q;
  highest_bin_percentage : Q;
  is_saturated : bool;
  weighted_mean : Q;
  weighted_variance : Q;
  max_intensity : Z;
  near_max_percentage : Q
}.

(** The samples the histogram is taken over (lines 131-138). *)
Definition hist_img (img : Image) : list Z :=
  match img_dtype img with
  | uint16 => map (fun v => (v / 256)%Z) (flatten (img_rows img))
  | uint8 => flatten (img_rows img)
  end.

Definition high_threshold_8bit (img : Image) (high_intensity_threshold : Q)
  : Z :=
  match img_dtype img with
  | uint16 => int_of_Q (255 * high_intensity_threshold)
  | uint8 =>
      int_of_Q (inject_Z (max_possible_value uint8) * high_intensity_threshold)
  end.

(** [weight_mask] is the mask in force after lines 121-123: the caller's
    or the one built by [create_radial_weight_mask]. *)
Definition analyze_saturation_by_histogram (img : Image)
    (high_intensity_threshold critical_bin_threshold : Q)
    (weight_mask : WeightMask) : result Report :=
  let max_possible := max_possible_value (img_dtype img) in
  let flat_img := flatten (img_rows img) in
  let flat_weights := flatten weight_mask in
  if negb (same_shape (img_rows img) weight_mask) then Raise ValueError else
  let hist := np_histogram (hist_img img) flat_weights in
  let total_weight := Qsum flat_weights in
  let hist_percentage := map (fun h => (h / total_weight) * 100) hist in
  let high_value := int_of_Q (inject_Z max_possible * high_intensity_threshold) in
  let high_8bit := high_threshold_8bit img high_intensity_threshold in
  let high_sum := Qsum (slice_from high_8bit hist_percentage) in
  let highest_bin := last hist_percentage 0 in
  let saturated :=
    Qltb critical_bin_threshold highest_bin || Qltb 10 high_sum in
  let flat_q := map inject_Z flat_img in
  wmean <- np_average flat_q flat_weights ;;
  wvar <- np_average (map (fun v => (v - wmean) * (v - wmean)) flat_q)
                     flat_weights ;;
  let near_max :=
    Qsum (map snd (filter (fun p => Qltb ((95#100) * inject_Z max_possible)
                                         (inject_Z (fst p)))
                          (combine flat_img flat_weights))) in
  Ok (mkReport hist hist_percentage high_value high_sum highest_bin saturated
               wmean wvar (list_max_Z flat_img 0)
               ((near_max / total_weight) * 100)).

Definition default_high_intensity_threshold : Q := 9#10.
Definition default_critical_bin_threshold : Q := 1#10.

End histogram_saturation_analyzer.

(** ** Pixel-count estimator ([saturation_pixel_count_analyzer.py]) *)

Module saturation_pixel_count_analyzer.
Import QUtil Numpy.
Local Open Scope Q_scope.

Record Report : Type := mkReport {
  saturated_pixels : Z;
  saturated_percentage : Q;
  weighted_saturation : Q;
  weighted_saturation_percentage : Q;
  max_weighted_saturation : Q;
  is_saturated : bool;
  saturation_threshold : Z
}.

(** No step of this estimator raises on a zero divisor: numpy yields NaN
    there, which compares false with everything, as [x / 0 == 0] does in
    the two verdict comparisons below. *)
Definition analyze_saturation_by_pixel_count (img : Image)
    (saturation_threshold_frac max_weighted : Q) (weight_mask : WeightMask)
  : result Report :=
  let max_possible := max_possible_value (img_dtype img) in
  if negb (same_shape (img_rows img) weight_mask) then Raise ValueError else
  let sat_threshold_value :=
    int_of_Q (inject_Z max_possible * saturation_threshold_frac) in
  let flat_img := flatten (img_rows img) in
  let flat_weights := flatten weight_mask in
  let saturation_mask := map (fun v => (sat_threshold_value <? v)%Z) flat_img in
  let n_saturated := Z.of_nat (length (filter (fun b => b) saturation_mask)) in
  let weighted :=
    Qsum (map (fun p => if fst p : bool then snd p else 0)
              (combine saturation_mask flat_weights)) in
  let total_weight := Qsum flat_weights in
  let total_pixels := Z.of_nat (size img) in
  let pct := (inject_Z n_saturated / inject_Z total_pixels) * 100 in
  let weighted_pct := (weighted / total_weight) * 100 in
  let saturated := Qltb max_weighted weighted || Qltb (5#10) weighted_pct in
  Ok (mkReport n_saturated pct weighted weighted_pct max_weighted saturated
               sat_threshold_value).

Definition default_saturation_threshold : Q := 98#100.
Definition default_max_weighted_saturation : Q := 100.

End saturation_pixel_count_analyzer.

(** ** Contrast estimator ([contrast_analyzer.py]) *)

Module contrast_analyzer.
Import RUtil Numpy.
Local Open Scope R_scope.

Record Report : Type := mkReport {
  global_contrast : R;
  contrast_map : list (list R);
  mean_contrast : R;
  median_contrast : R;
  weighted_mean_contrast : R;
  low_contrast_percentage : R;
  optimal_contrast_percentage : R;
  high_contrast_percentage : R;
  is_optimal_contrast : bool
}.

(** [numpy.average] with weights, [numpy.mean], [numpy.std] and
    [numpy.median] on flat arrays; every division is checked. *)
Definition np_average (values weights : list R) : result R :=
  if Nat.eqb (length values) (length weights)
  then checked_div (Rsum (map (fun p => fst p * snd p) (combine values weights)))
                   (Rsum weights)
  else Raise TypeError.

Definition np_mean (l : list R) : result R :=
  checked_div (Rsum l) (INR (length l)).

Definition np_std (l : list R) : result R :=
  m <- np_mean l ;;
  v <- np_mean (map (fun x => (x - m) ^ 2) l) ;;
  Ok (sqrt v).

Definition np_median (l : list R) : result R :=
  let s := sort l in
  let n := length s in
  if Nat.eqb n 0 then Raise ZeroDivisionError
  else if Nat.odd n then Ok (nth (n / 2) s 0)
  else Ok ((nth (n / 2 - 1) s 0 + nth (n / 2) s 0) / 2).

(** [numpy.pad(img, half_window, mode='reflect')]: the source index of the
    padded coordinate [i], counted from the first original sample.  An
    axis of length one repeats its sample. *)
Definition reflect_index (n : nat) (i : Z) : nat :=
  if (n <=? 1)%nat then 0%nat
  else
    let period := (2 * (Z.of_nat n - 1))%Z in
    let m := (i mod period)%Z in
    if (m <? Z.of_nat n)%Z then Z.to_nat m else Z.to_nat (period - m).

Definition height (img : Image) : nat := length (img_rows img).
Definition width (img : Image) : nat :=
  match img_rows img with
  | [] => 0%nat
  | r :: _ => length r
  end.

Definition pixel (img : Image) (y x : nat) : Z :=
  nth x (nth y (img_rows img) []) 0%Z.

(** [padded_img[y:y+window_size, x:x+window_size]], flattened. *)
Definition window (img : Image) (window_size : nat) (y x : nat) : list R :=
  let half_window := (window_size / 2)%nat in
  flat_map (fun dy =>
    map (fun dx =>
      IZR (pixel img
             (reflect_index (height img)
                (Z.of_nat (y + dy) - Z.of_nat half_window))
             (reflect_index (width img)
                (Z.of_nat (x + dx) - Z.of_nat half_window))))
        (seq 0 window_size))
    (seq 0 window_size).

(** Lines 147-156: the body of the sliding-window loop. *)
Definition local_contrast (img : Image) (window_size : nat) (y x : nat)
  : result R :=
  let w := window img window_size y x in
  local_mean <- np_mean w ;;
  if Rlt_dec 0 local_mean then
    local_std <- np_std w ;;
    checked_div local_std local_mean
  else Ok 0.

Definition low_contrast_threshold : R := 0.15.
Definition high_contrast_threshold : R := 0.6.

Definition weighted_count (P : R -> bool) (cmap weights : list R) : R :=
  Rsum (map (fun p => if P (fst p) then snd p else 0) (combine cmap weights)).

Definition Rltb (a b : R) : bool := if Rlt_dec a b then true else false.
Definition Rleb (a b : R) : bool := if Rle_dec a b then true else false.

(** [weight_mask] is the mask in force after lines 117-119. *)
Definition analyze_contrast (img : Image) (window_size : nat)
    (weight_mask : list (list R)) : result Report :=
  let flat_img := map IZR (flatten (img_rows img)) in
  let flat_weights := flatten weight_mask in
  weighted_mean <- np_average flat_img flat_weights ;;
  weighted_variance <-
    np_average (map (fun v => (v - weighted_mean) ^ 2) flat_img) flat_weights ;;
  let weighted_std := sqrt weighted_variance in
  global <- (if Rlt_dec 0 weighted_mean
             then checked_div weighted_std weighted_mean
             else Ok 0) ;;
  cmap <- sequence
            (map (fun y => sequence
                    (map (fun x => local_contrast img window_size y x)
                         (seq 0 (width img))))
                 (seq 0 (height img))) ;;
  if negb (same_shape (img_rows img) weight_mask) then Raise ValueError else
  let flat_map_ := flatten cmap in
  mean_c <- np_mean flat_map_ ;;
  median_c <- np_median flat_map_ ;;
  weighted_mean_c <- np_average flat_map_ flat_weights ;;
  let low_count :=
    weighted_count (fun c => Rltb c low_contrast_threshold)
                   flat_map_ flat_weights in
  let optimal_count :=
    weighted_count (fun c => Rleb low_contrast_threshold c
                             && Rleb c high_contrast_threshold)
                   flat_map_ flat_weights in
  let high_count :=
    weighted_count (fun c => Rltb high_contrast_threshold c)
                   flat_map_ flat_weights in
  let total_weight := Rsum flat_weights in
  low_p <- checked_div low_count total_weight ;;
  optimal_p <- checked_div optimal_count total_weight ;;
  high_p <- checked_div high_count total_weight ;;
  Ok (mkReport global cmap mean_c median_c weighted_mean_c
               (low_p * 100) (optimal_p * 100) (high_p * 100)
               (Rleb low_contrast_threshold weighted_mean_c
                && Rleb weighted_mean_c high_contrast_threshold)).

End contrast_analyzer.

(** ** The decision engine ([updated_widget.py]) *)

Module updated_widget.
Import QUtil RUtil.
Local Open Scope R_scope.

(** Lines 1925-1976: the Gaussian mask with an optional flat top. *)
Definition squared_dist (center : R * R) (y x : nat) : R :=
  (INR y - fst center) ^ 2 + (INR x - snd center) ^ 2.

Definition create_radial_weight_mask (shape : nat * nat)
    (center : option (R * R)) (sigma : option R) (flat_top_radius : option R)
  : list (list R) :=
  let center :=
    match center with
    | Some c => c
    | None => (INR (fst shape / 2), INR (snd shape / 2))
    end in
  let sigma :=
    match sigma with
    | Some s => s
    | None => INR (Nat.min (fst shape) (snd shape) / 2)
    end in
  let gaussian :=
    grid (fst shape) (snd shape) (fun y x =>
      exp (- squared_dist center y x / (2 * sigma ^ 2))) in
  match flat_top_radius with
  | Some r =>
      if Rlt_dec 0 r then
        grid (fst shape) (snd shape) (fun y x =>
          if Rle_dec (squared_dist center y x) (r ^ 2) then 1
          else exp (- (squared_dist center y x - r ^ 2) / (2 * sigma ^ 2)))
      else gaussian
  | None => gaussian
  end.

Local Close Scope R_scope.
Local Open Scope Q_scope.

(** The instance attributes the per-cycle computation reads and writes. *)
Record EngineState : Type := mkEngine {
  prev_high_sum : option Q;
  stable_count : Z;
  last_mean_values : list Q;
  last_adjustment_values : list Q;
  current_value : Z
}.

(** The widget's state right after construction. *)
Definition fresh_state : EngineState :=
  mkEngine None 0 [] [] 20.

(** The keys of the [results] dictionary the engine looks at; an absent key
    is [None]. *)
Record Results : Type := mkResults {
  highest_bin_percentage : option Q;
  weighted_saturation_percentage : option Q;
  high_intensity_sum : option Q;
  weighted_mean : option Q;
  max_intensity : option Q;
  is_saturated : option bool;
  saturated_pixels : option Q;
  total_pixels : option Q;
  max_value : option Q;
  mean_contrast : option Q
}.

Definition empty_results : Results :=
  mkResults None None None None None None None None None None.

(** [l.append(x)] followed by [if len(l) > 5: l.pop(0)]. *)
Definition push5 (l : list Q) (x : Q) : list Q :=
  let l' := l ++ [x] in
  if (5 <? Z.of_nat (length l'))%Z then tl l' else l'.

(** [l[-k]] for [k >= 1]; only used where [len(l) >= k] has been checked. *)
Definition from_end (l : list Q) (k : nat) : Q :=
  nth (length l - k) l 0.

Definition with_means (st : EngineState) (l : list Q) : EngineState :=
  mkEngine (prev_high_sum st) (stable_count st) l
           (last_adjustment_values st) (current_value st).

Definition with_adjustments (st : EngineState) (l : list Q) : EngineState :=
  mkEngine (prev_high_sum st) (stable_count st) (last_mean_values st)
           l (current_value st).

Definition with_stability (st : EngineState) (p : option Q) (c : Z)
  : EngineState :=
  mkEngine p c (last_mean_values st) (last_adjustment_values st)
           (current_value st).

Definition cv (st : EngineState) : Q := inject_Z (current_value st).

(** *** Histogram method *)

Definition optimal_mean_min : Q := 40.
Definition optimal_mean_max : Q := 60.
Definition optimal_sat_min : Q := 35.
Definition optimal_sat_max : Q := 45.

(** Lines 1297-1311: the stable-reading counter. *)
Definition track_stability (st : EngineState) (high_sum : Q) : EngineState :=
  let count :=
    match prev_high_sum st with
    | Some prev =>
        let delta_sum := Qabs (high_sum - prev) in
        if Qltb delta_sum (1#10) then (stable_count st + 1)%Z else 0%Z
    | None => stable_count st
    end in
  with_stability st (Some high_sum) count.

(** CASE 9, the proportional fallback. *)
Definition proportional_adjustment (norm_mean high_sum : Q) : Q :=
  let mean_factor :=
    if Qltb norm_mean optimal_mean_min then
      let mean_deficit := optimal_mean_min - norm_mean in
      let f :=
        if Qltb mean_deficit 3 then mean_deficit * (1#10)
        else if Qltb mean_deficit 8 then (3#10) + (mean_deficit - 3) * (15#100)
        else (105#100) + (mean_deficit - 8) * (25#100) in
      Qmin 2 f
    else if Qltb optimal_mean_max norm_mean then
      let mean_excess := norm_mean - optimal_mean_max in
      let f :=
        if Qltb mean_excess 3 then - mean_excess * (1#10)
        else if Qltb mean_excess 8 then - (3#10) - (mean_excess - 3) * (15#100)
        else - (105#100) - (mean_excess - 8) * (25#100) in
      Qmax (-(2)) f
    else 0 in
  let sat_factor :=
    if Qltb high_sum optimal_sat_min then
      let sat_deficit := optimal_sat_min - high_sum in
      let f :=
        if Qltb sat_deficit (1#10) then sat_deficit * (8#10)
        else if Qltb sat_deficit (3#10) then (8#100) + (sat_deficit - (1#10)) * 2
        else (48#100) + (sat_deficit - (3#10)) * 1 in
      Qmin (15#10) f
    else if Qltb optimal_sat_max high_sum then
      let sat_excess := high_sum - optimal_sat_max in
      let f :=
        if Qltb sat_excess (1#10) then - sat_excess * (8#10)
        else if Qltb sat_excess (3#10) then - (8#100) - (sat_excess - (1#10)) * 2
        else - (48#100) - (sat_excess - (3#10)) * 1 in
      Qmax (-(15#10)) f
    else 0 in
  let combined_factor := mean_factor * (6#10) + sat_factor * (4#10) in
  if Qltb (Qabs combined_factor) (1#10) then combined_factor * (5#10)
  else if Qltb (Qabs combined_factor) (5#10) then combined_factor * (6#10)
  else combined_factor * (8#10).

(** Lines 1313-1523: the decision ladder, CASE 0 to CASE 9. *)
Definition histogram_ladder (st : EngineState)
    (norm_mean high_sum highest_bin weighted_sat : Q) : Q :=
  if Qltb norm_mean 2 || Qltb high_sum (1#100) then
    let a0 :=
      if Qltb norm_mean 1 then 3
      else if Qltb norm_mean 2 then 2
      else 1 in
    let a1 := if Qeq_bool (cv st) 19 then 1 else a0 in
    if Qleb (cv st) 20 && Qleb 18 (cv st)
       && (2 <=? Z.of_nat (length (last_mean_values st)))%Z
       && existsb (fun val => Qltb 30 val) (removelast (last_mean_values st))
    then 3#10 else a1
  else if Qltb norm_mean (optimal_mean_min * (7#10))
          || Qltb high_sum (optimal_sat_min * (3#10)) then
    15#10
  else if Qltb 5 highest_bin || Qltb 2 weighted_sat
          || Qltb (optimal_sat_max * 3) high_sum then
    let a0 :=
      if Qltb 60 high_sum then -(5#10)
      else if Qltb 40 high_sum then -(3#10)
      else if Qltb 20 high_sum then -(2#10)
      else -(1#10) in
    let a1 := if Qeq_bool (cv st) 21 then -(1) else a0 in
    if Qleb (cv st) 20 && Qleb 19 (cv st)
       && (2 <=? Z.of_nat (length (last_mean_values st)))%Z
       && existsb (fun val => Qltb val 10) (removelast (last_mean_values st))
    then -(1#10) else a1
  else if Qltb 2 highest_bin || Qltb 1 weighted_sat then
    if Qltb (35#10) highest_bin || Qltb (15#10) weighted_sat
    then -(4#10) else -(2#10)
  else if Qltb norm_mean optimal_mean_min && Qltb high_sum optimal_sat_max then
    let mean_deficit := optimal_mean_min - norm_mean in
    if Qltb 15 mean_deficit then 15#10
    else if Qltb 7 mean_deficit then 1
    else if Qltb 3 mean_deficit then 7#10
    else 3#10
  else if Qltb optimal_mean_max norm_mean && Qltb optimal_sat_min high_sum then
    let mean_excess := norm_mean - optimal_mean_max in
    if Qltb 15 mean_excess then -(5#10) else -(2#10)
  else if Qleb optimal_mean_min norm_mean && Qleb norm_mean optimal_mean_max
          && Qltb high_sum optimal_sat_min then
    let sat_deficit := optimal_sat_min - high_sum in
    if Qltb 10 sat_deficit then 1 else 5#10
  else if Qleb optimal_mean_min norm_mean && Qleb norm_mean optimal_mean_max
          && Qltb optimal_sat_max high_sum then
    let sat_excess := high_sum - optimal_sat_max in
    if Qltb 10 sat_excess then -(5#10) else -(2#10)
  else if Qleb optimal_mean_min norm_mean && Qleb norm_mean optimal_mean_max
          && Qleb optimal_sat_min high_sum && Qleb high_sum optimal_sat_max then
    0
  else proportional_adjustment norm_mean high_sum.

Definition in_critical_region (st : EngineState) : bool :=
  Qleb 19 (cv st) && Qleb (cv st) 21.

(** Lines 1525-1546: stability damping. *)
Definition stability_damping (st : EngineState) (adjustment : Q) : Q :=
  if (2 <=? stable_count st)%Z && negb (Qeq_bool adjustment 0) then
    let sc := inject_Z (stable_count st) in
    let damping0 :=
      if Qltb 0 adjustment then Qmin (6#10) (sc * (15#100))
      else Qmin (8#10) (sc * (2#10)) in
    let damping :=
      if in_critical_region st then
        if (5 <=? stable_count st)%Z then 9#10
        else Qmin (8#10) (damping0 + (2#10))
      else damping0 in
    adjustment * (1 - damping)
  else adjustment.

(** Lines 1548-1565: direction-dependent hysteresis. *)
Definition histogram_hysteresis (st : EngineState) (adjustment : Q) : Q :=
  if Qltb adjustment 0 && Qltb (Qabs adjustment) (7#100) then 0
  else if Qltb 0 adjustment && Qltb (Qabs adjustment) (2#100) then 0
  else if in_critical_region st then
    if Qltb adjustment 0 && Qltb (Qabs adjustment) (15#100) then 0
    else if Qltb 0 adjustment && Qltb (Qabs adjustment) (1#10) then 0
    else adjustment
  else adjustment.

(** The whole [method == "histogram"] branch: adjustment, normalised mean
    and the updated state.  The branch does not touch [last_mean_values]. *)
Definition histogram_method (st : EngineState) (results : Results)
  : Q * Q * EngineState :=
  let highest_bin := get (highest_bin_percentage results) 0 in
  let weighted_sat := get (weighted_saturation_percentage results) 0 in
  let high_sum := get (high_intensity_sum results) 0 in
  let wmean := get (weighted_mean results) 0 in
  let norm_mean := (wmean / 255) * 100 in
  let st1 := track_stability st high_sum in
  let a := histogram_ladder st1 norm_mean high_sum highest_bin weighted_sat in
  let a := stability_damping st1 a in
  let a := histogram_hysteresis st1 a in
  (a, norm_mean, st1).

(** *** Pixel-count method (lines 1567-1653)

    [sat_pixels / total_pixels] is a division of numpy scalars: on a zero
    [total_pixels] it yields inf or NaN, which fails every range test below
    and ends in the last branch, as [x / 0 == 0] does here. *)

Definition pixel_count_method (st : EngineState) (results : Results)
  : Q * Q * EngineState :=
  if is_in (is_saturated results) && get (is_saturated results) false then
    let sat_percent := get (weighted_saturation_percentage results) 0 in
    let norm_mean := 70 in
    let st1 := with_means st (push5 (last_mean_values st) norm_mean) in
    let a :=
      if Qltb 2 sat_percent then -(5)
      else if Qltb 1 sat_percent then -(2)
      else if Qltb (5#10) sat_percent then -(1)
      else -(5#10) in
    (a, norm_mean, st1)
  else if is_in (saturated_pixels results) then
    let sat_pixels := get (saturated_pixels results) 0 in
    let total := get (total_pixels results) 1 in
    let maxv := get (max_value results) 255 in
    let norm_mean := (maxv / 255) * 100 in
    let st1 := with_means st (push5 (last_mean_values st) norm_mean) in
    let pixel_percentage := (sat_pixels / total) * 100 in
    let a :=
      if Qeq_bool sat_pixels 0 then
        if Qltb maxv 50 then 3
        else if Qltb maxv 100 then 15#10
        else if Qltb maxv 150 then 1
        else if Qltb maxv 180 then 7#10
        else if Qltb maxv 220 then 5#10
        else 3#10
      else if Qleb 35 pixel_percentage && Qleb pixel_percentage 45 then 0
      else if Qltb 45 pixel_percentage && Qleb pixel_percentage 55 then -(5#10)
      else if Qltb 55 pixel_percentage && Qleb pixel_percentage 65 then -(1)
      else -(2) in
    (a, norm_mean, st1)
  else (0, 0, st).

(** *** Contrast method (lines 1655-1731) *)

Definition contrast_method (st : EngineState) (results : Results)
  : Q * Q * EngineState :=
  if is_in (mean_contrast results) then
    let contrast_value := get (mean_contrast results) 0 in
    let norm_mean :=
      if Qltb contrast_value (2#100) then 5
      else if Qltb (3#10) contrast_value then 60
      else 30 in
    let st1 := with_means st (push5 (last_mean_values st) norm_mean) in
    let a :=
      if Qltb contrast_value (5#1000) then 3
      else if Qltb contrast_value (2#100) then 2
      else if Qltb contrast_value (5#100) then 1
      else if Qltb contrast_value (8#100) then 1
      else if Qltb contrast_value (9#100) then 5#10
      else if Qleb (9#100) contrast_value && Qleb contrast_value (26#100) then 0
      else if Qltb (26#100) contrast_value && Qleb contrast_value (28#100)
           then -(5#10)
      else if Qltb (28#100) contrast_value && Qleb contrast_value (32#100)
           then -(1)
      else if Qltb (32#100) contrast_value && Qleb contrast_value (4#10)
           then -(2)
      else -(5#10) in
    (a, norm_mean, st1)
  else (0, 0, st).

(** *** Common tail (lines 1733-1793) *)

Definition min_adjustment_threshold : Q := 3#10.

Definition method_adjustment (st : EngineState) (results : Results)
    (method : string) : Q * Q * EngineState :=
  if String.eqb method "histogram" then histogram_method st results
  else if String.eqb method "pixel_count" then pixel_count_method st results
  else if String.eqb method "contrast" then contrast_method st results
  else (0, 0, st).

(** Global hysteresis followed by the asymmetric limits. *)
Definition limit_adjustment (adjustment : Q) : Q :=
  let a :=
    if Qltb (Qabs adjustment) min_adjustment_threshold then 0 else adjustment in
  if Qltb 0 a then Qmin 3 a else Qmax (-(5#10)) a.

(** The oscillation test on the two histories, evaluated after the current
    adjustment has been appended. *)
Definition large_swings (means : list Q) : bool :=
  (3 <=? Z.of_nat (length means))%Z
  && Qltb 30 (Qabs (from_end means 1 - from_end means 2))
  && Qltb 30 (Qabs (from_end means 2 - from_end means 3)).

Definition alternating_signs (adjs : list Q) : bool :=
  (3 <=? Z.of_nat (length adjs))%Z
  && ((Qltb 0 (from_end adjs 1) && Qltb (from_end adjs 2) 0)
      || (Qltb (from_end adjs 1) 0 && Qltb 0 (from_end adjs 2))).

Definition history_full_enough (means adjs : list Q) : bool :=
  (3 <=? Z.of_nat (length means))%Z && (3 <=? Z.of_nat (length adjs))%Z.

Definition is_oscillating (means adjs : list Q) : bool :=
  history_full_enough means adjs
  && (large_swings means || alternating_signs adjs).

Definition anti_oscillation (norm_mean adjustment : Q) : Q :=
  if Qltb 40 norm_mean && Qltb adjustment 0 then Qmax (-(1#10)) (adjustment / 5)
  else if Qltb norm_mean 10 && Qltb 0 adjustment then Qmin (5#10) (adjustment / 2)
  else adjustment.

(** The per-cycle computation up to and including the recording of the
    limited adjustment: the limited adjustment, the normalised mean and the
    state the oscillation check then inspects. *)
Definition limited_adjustment (st : EngineState) (results : Results)
    (method : string) : Q * Q * EngineState :=
  let '(a, norm_mean, st1) := method_adjustment st results method in
  let a := limit_adjustment a in
  let st2 := with_adjustments st1 (push5 (last_adjustment_values st1) a) in
  (a, norm_mean, st2).

Definition calculate_current_adjustment (st : EngineState) (results : Results)
    (method : string) : Q * EngineState :=
  let '(a, norm_mean, st2) := limited_adjustment st results method in
  if is_oscillating (last_mean_values st2) (last_adjustment_values st2)
  then (anti_oscillation norm_mean a, st2)
  else (a, st2).

(** The dictionaries [generate_analysis] hands to the engine: the keys each
    estimator returns that the engine reads (the extra [unweighted_*] keys
    only reach log messages). *)
Definition histogram_results (r : histogram_saturation_analyzer.Report)
  : Results :=
  mkResults (Some (histogram_saturation_analyzer.highest_bin_percentage r))
            None
            (Some (histogram_saturation_analyzer.high_intensity_sum r))
            (Some (histogram_saturation_analyzer.weighted_mean r))
            (Some (inject_Z (histogram_saturation_analyzer.max_intensity r)))
            (Some (histogram_saturation_analyzer.is_saturated r))
            None None None None.

Definition pixel_count_results (r : saturation_pixel_count_analyzer.Report)
  : Results :=
  mkResults None
            (Some (saturation_pixel_count_analyzer.weighted_saturation_percentage r))
            None None None
            (Some (saturation_pixel_count_analyzer.is_saturated r))
            (Some (inject_Z (saturation_pixel_count_analyzer.saturated_pixels r)))
            None None None.

(** *** Fusion in [generate_analysis] (lines 614-616, 680-681, 748-749,
    782-789) *)

Definition limit5 (a : Q) : Q := Qmax (-(5)) (Qmin 5 a).

(** Each selected method runs in turn on its own report, on the shared
    engine state.  The forced return to 20 % at the top of
    [generate_analysis] and the dispatch to the actuator are not part of
    the fusion and are left out.  Every method here gets as far as a
    report; [EngineRuns.run_selected] adds the methods whose try block
    ends in an exception. *)
Fixpoint run_methods (st : EngineState) (runs : list (string * Results))
  : list Q * EngineState :=
  match runs with
  | [] => ([], st)
  | (method, results) :: rest =>
      let '(a, st1) := calculate_current_adjustment st results method in
      let '(l, st2) := run_methods st1 rest in
      (limit5 a :: l, st2)
  end.

Definition final_adjustment (adjustments : list Q) : Q :=
  Qsum adjustments / inject_Z (Z.of_nat (length adjustments)).

Definition new_value (current : Z) (final : Q) : Z :=
  Z.max 0 (Z.min 100 (int_of_Q (inject_Z current + final))).

(** The recommendation: [None] when no method produced an adjustment. *)
Definition recommend (st : EngineState) (runs : list (string * Results))
  : option (Q * Z) * EngineState :=
  let '(adjustments, st1) := run_methods st runs in
  match adjustments with
  | [] => (None, st1)
  | _ => let f := final_adjustment adjustments in
         (Some (f, new_value (current_value st1) f), st1)
  end.

End updated_widget.

(** * Statements the properties refer to *)

Module Properties.
Import QUtil.

Section EngineStatements.
Import updated_widget.
Local Open Scope Q_scope.

(** The two most recent recorded deltas have opposite signs. *)
Definition opposite_signs (adjs : list Q) : Prop :=
  (0 < from_end adjs 1 /\ from_end adjs 2 < 0)
  \/ (from_end adjs 1 < 0 /\ 0 < from_end adjs 2).

(** The last two gaps between consecutive mean readings exceed 30 points. *)
Definition wide_gaps (means : list Q) : Prop :=
  30 < Qabs (from_end means 1 - from_end means 2)
  /\ 30 < Qabs (from_end means 2 - from_end means 3).

(** A state reached after two saturated pixel-count cycles, and a report of
    the contrast estimator with a low mean contrast. *)
Definition two_saturated_cycles : EngineState :=
  mkEngine None 0 [70; 70] [-(1#2); -(1#2)] 50.

Definition low_contrast_report : Results :=
  mkResults None None None None None None None None None (Some (3#100)).

(** A histogram report with weighted mean intensity 120. *)
Definition mean_120_report : Results :=
  mkResults (Some 0) None (Some 20) (Some 120) None None None None None None.

(** A state reached after two increases recorded with bright estimates, and
    a pixel-count report flagged saturated. *)
Definition bright_after_increases : EngineState :=
  mkEngine None 0 [70; 70] [1; 1] 50.

Definition saturated_report : Results :=
  mkResults None (Some 100) None None None (Some true) None None None None.

(** The fresh engine state at an arbitrary slider position. *)
Definition fresh_at (current : Z) : EngineState :=
  mkEngine None 0 [] [] current.

(** Running the per-cycle computation on the same report [n] times. *)
Fixpoint feed (n : nat) (st : EngineState) (results : Results)
    (method : string) : list Q * EngineState :=
  match n with
  | O => ([], st)
  | S k =>
      let '(d, st1) := calculate_current_adjustment st results method in
      let '(ds, st2) := feed k st1 results method in
      (d :: ds, st2)
  end.

(** The histogram branch after the ladder and the common tail, as a function
    of the stable-reading counter and of whether the slider sits in the
    critical region. *)
Definition histogram_tail (count : Z) (critical : bool) (a : Q) : Q :=
  let st := mkEngine None count [] [] (if critical then 20 else 50) in
  limit_adjustment (histogram_hysteresis st (stability_damping st a)).

(** The values the ladder can take at normalised mean 120/255. *)
Definition ladder_value_at_120 (st : EngineState) (a : Q) : Prop :=
  In a [1; 15#10; -(5#10); -(3#10); -(2#10); -(1#10); -(4#10); 5#10; 0]
  \/ (a = -(1) /\ in_critical_region st = true).

End EngineStatements.

Section EstimatorStatements.
Import Numpy.
Local Open Scope Q_scope.

(** Every sample of the array equals [v]. *)
Definition all_pixels (v : Z) (rows : list (list Z)) : Prop :=
  Forall (fun x => x = v) (flatten rows).

(** The weighted percentage of the mass whose 8-bit sample satisfies [P]. *)
Definition weight_where (P : Z -> bool) (a : list Z) (w : list Q) : Q :=
  Qsum (map snd (filter (fun p => P (fst p)) (combine a w))).

Definition mass_percentage (P : Z -> bool) (img : Image) (mask : WeightMask)
  : Q :=
  (weight_where P (histogram_saturation_analyzer.hist_img img) (flatten mask)
   / Qsum (flatten mask)) * 100.

(** Mass in the top histogram bin, and mass at or above the high-intensity
    threshold, over the 8-bit samples the estimator histograms. *)
Definition top_bin_percentage (img : Image) (mask : WeightMask) : Q :=
  mass_percentage (fun v => (v =? 255)%Z) img mask.

Definition high_intensity_percentage (img : Image) (threshold : Q)
    (mask : WeightMask) : Q :=
  mass_percentage
    (fun v => (histogram_saturation_analyzer.high_threshold_8bit img threshold
               <=? v)%Z)
    img mask.

(** The same two quantities told from the raw samples of the image, with no
    reference to the estimator: the weighted percentage of the mass of the
    pixels whose sample satisfies [P]. *)
Definition raw_mass_percentage (P : Z -> bool) (img : Image)
    (mask : WeightMask) : Q :=
  (weight_where P (flatten (img_rows img)) (flatten mask)
   / Qsum (flatten mask)) * 100.

(** A sample lies in the top one of 256 bins when it is 255, for 8-bit
    data, and from 255 * 256 on, for 16-bit data. *)
Definition in_top_bin (d : dtype) (v : Z) : bool :=
  match d with
  | uint8 => (v =? 255)%Z
  | uint16 => (65280 <=? v)%Z
  end.

(** The raw sample value from which a pixel counts as high intensity in
    the verdict: the fraction of 255, taken at the scale of the samples. *)
Definition verdict_threshold (d : dtype) (fraction : Q) : Z :=
  match d with
  | uint8 => int_of_Q (255 * fraction)
  | uint16 => (256 * int_of_Q (255 * fraction))%Z
  end.

(** A 16-bit pixel below nine tenths of full scale, under a unit weight. *)
Definition bright_16bit_image : Image := mkImage uint16 [[58700%Z]].
Definition one_weight : WeightMask := [[1]].

(** A two-pixel image with one sample in the top bin, under unit weights,
    and a uniform image of 255s under unequal weights. *)
Definition two_pixel_image : Image := mkImage uint8 [[255%Z; 10%Z]].
Definition unit_mask : WeightMask := [[1; 1]].
Definition uniform_255_rows : list (list Z) := [[255%Z; 255%Z]].
Definition uneven_mask : WeightMask := [[1; 1#2]].

(** A one-pixel image under an all-zero weight mask. *)
Definition one_pixel_image : Image := mkImage uint8 [[100%Z]].

End EstimatorStatements.

Section WeightFieldStatements.
Import RUtil.
Local Open Scope R_scope.

(** The sigma in force after the default has been applied. *)
Definition analyzer_sigma (img_shape : nat * nat) (sigma : option R) : R :=
  match sigma with
  | Some s => s
  | None => INR (Nat.min (fst img_shape) (snd img_shape) / 6)
  end.

Definition widget_sigma (shape : nat * nat) (sigma : option R) : R :=
  match sigma with
  | Some s => s
  | None => INR (Nat.min (fst shape) (snd shape) / 2)
  end.

Definition widget_center (shape : nat * nat) (center : option (R * R))
  : R * R :=
  match center with
  | Some c => c
  | None => (INR (fst shape / 2), INR (snd shape / 2))
  end.

(** The Gaussian exponents of a field stay within the range in which a
    double-precision exponential is a normal number: at every pixel the
    exponent [e y x] is at most 700 (exp(-700) is about 1e-304). *)
Definition exponent_limit : R := 700.

Definition within_exponent_range (shape : nat * nat)
    (e : nat -> nat -> R) : Prop :=
  forall y x, (y < fst shape)%nat -> (x < snd shape)%nat ->
              e y x <= exponent_limit.

(** The exponent of the squared Gaussian of the analyzers, and of the
    Gaussian of the widget before any flat top is cut out. *)
Definition analyzer_exponent (img_shape : nat * nat) (center : option (R * R))
    (sigma : option R) (y x : nat) : R :=
  updated_widget.squared_dist (widget_center img_shape center) y x
  / analyzer_sigma img_shape sigma ^ 2.

Definition widget_exponent (shape : nat * nat) (center : option (R * R))
    (sigma : option R) (y x : nat) : R :=
  updated_widget.squared_dist (widget_center shape center) y x
  / (2 * widget_sigma shape sigma ^ 2).

(** The entry of a weight field at row [y], column [x]. *)
Definition weight_at (mask : list (list R)) (y x : nat) : R :=
  nth x (nth y mask []) 0.

Definition distance (center : R * R) (y x : nat) : R :=
  sqrt (updated_widget.squared_dist center y x).

(** The field value the specification prescribes at a pixel. *)
Definition prescribed_weight (center : R * R) (sigma : R)
    (flat_top_radius : option R) (y x : nat) : R :=
  let d := distance center y x in
  match flat_top_radius with
  | Some r =>
      if Rle_dec d r then 1 else exp (- 0.5 * ((d - r) / sigma) ^ 2)
  | None => exp (- 0.5 * ((d - 0) / sigma) ^ 2)
  end.

(** The plain Gaussian formula, with no flat-top branch. *)
Definition plain_gaussian (shape : nat * nat) (center : R * R) (sigma : R)
  : list (list R) :=
  grid (fst shape) (snd shape) (fun y x =>
    exp (- 0.5 * (distance center y x / sigma) ^ 2)).

End WeightFieldStatements.

Section ContrastStatements.
Import RUtil Numpy contrast_analyzer.
Local Open Scope R_scope.

(** Every row of the image has the image's width. *)
Definition rectangular (img : Image) : Prop :=
  Forall (fun r => length r = width img) (img_rows img).

(** The weighted global mean and variance of the samples. *)
Definition weighted_mean_of (img : Image) (mask : list (list R)) : R :=
  Rsum (map (fun p => fst p * snd p)
            (combine (map IZR (flatten (img_rows img))) (flatten mask)))
  / Rsum (flatten mask).

Definition weighted_variance_of (img : Image) (mask : list (list R)) : R :=
  Rsum (map (fun p => fst p * snd p)
            (combine (map (fun v => (v - weighted_mean_of img mask) ^ 2)
                          (map IZR (flatten (img_rows img))))
                     (flatten mask)))
  / Rsum (flatten mask).

(** The mean of the window around a pixel, and the contrast the loop body
    stores for it. *)
Definition local_mean (img : Image) (window_size : nat) (y x : nat) : R :=
  Rsum (window img window_size y x)
  / INR (length (window img window_size y x)).

Definition local_contrast_value (img : Image) (window_size : nat)
    (y x : nat) : R :=
  let w := window img window_size y x in
  let m := local_mean img window_size y x in
  if Rlt_dec 0 m
  then sqrt (Rsum (map (fun v => (v - m) ^ 2) w) / INR (length w)) / m
  else 0.

Definition median_value (l : list R) : R :=
  let s := sort l in
  let n := length s in
  if Nat.odd n then nth (n / 2) s 0
  else (nth (n / 2 - 1) s 0 + nth (n / 2) s 0) / 2.

(** A one-pixel black image under a unit weight. *)
Definition black_pixel_image : Image := mkImage uint8 [[0%Z]].
Definition unit_weight : list (list R) := [[1]].

End ContrastStatements.

End Properties.

(** ** The serial packet ([updated_widget.py], [arduino_controller.py],
    [user_controlled_UI/UI.py]) *)

Module serial_protocol.
Import QUtil.
Local Open Scope Z_scope.

(** [int((current_percent / 100.0) * 4095)]. *)
Definition current_12bit (current_percent : Q) : Z :=
  int_of_Q ((current_percent / 100) * 4095)%Q.

Definition high_byte (v : Z) : Z := Z.land (Z.shiftr v 8) 255.
Definition low_byte (v : Z) : Z := Z.land v 255.

Definition checksum (flag ph pl th tl temperature : Z) : Z :=
  (flag mod 10 + ph mod 10 + pl mod 10 + th mod 10 + tl mod 10
   + temperature mod 10) mod 10.

(** The nine values handed to [bytes(...)]:
    start, flag, present high/low, target high/low, temperature, checksum,
    end. *)
Definition packet_values (present_current target_current : Z) : list Z :=
  let flag := 1 in
  let present_current_high := high_byte present_current in
  let present_current_low := low_byte present_current in
  let target_current_high := high_byte target_current in
  let target_current_low := low_byte target_current in
  let temperature := 25 in
  [255; flag; present_current_high; present_current_low;
   target_current_high; target_current_low; temperature;
   checksum flag present_current_high present_current_low
            target_current_high target_current_low temperature;
   254].

(** [bytes(list)]: every value must fit a byte. *)
Definition bytes (l : list Z) : result (list Z) :=
  if forallb (fun b => (0 <=? b) && (b <? 256)) l then Ok l
  else Raise ValueError.

(** The serial port as the sender uses it: [write] may raise, and so may
    the look at [in_waiting] and the [read] of the response that follow
    it. *)
Record SerialPort : Type := mkPort {
  write : list Z -> result unit;
  read_response : result unit
}.

(** [send_current_to_arduino] / [ArduinoController.send_current]: the value
    returned and the packets the port accepted.  [serial_port] is [None]
    when no connection is set up.  Any exception of the body, from
    [bytes(...)], from [write] or from reading the response, is caught and
    turns into [False]; the attempt to reconnect that may follow is left
    out. *)
Definition send_current (serial_port : option SerialPort)
    (current_percent : Q) : bool * list (list Z) :=
  match serial_port with
  | None => (false, [])
  | Some port =>
      let c := current_12bit current_percent in
      match bytes (packet_values c c) with
      | Raise _ => (false, [])
      | Ok packet =>
          match write port packet with
          | Raise _ => (false, [])
          | Ok _ =>
              match read_response port with
              | Raise _ => (false, [packet])
              | Ok _ => (true, [packet])
              end
          end
      end
  end.

(** [MyApp.update_contrast] of the slider UI: the target is half the slider
    position and the present current a fixed placeholder. *)
Definition update_contrast (slider : Z) : result (list Z) :=
  let contrast_value := slider / 2 in
  bytes (packet_values 2048 contrast_value).

(** A feedback reading accepted by [collect_data_and_update_ui]. *)
Record Reading : Type := mkReading {
  reading_current : Z;
  reading_temp : Z;
  reading_voltage : Q
}.

(** [MyApp.collect_data_and_update_ui] on the bytes waiting in the port:
    bytes are read one at a time up to the first start byte; if eight more
    are waiting they are read and checked.  The value is the reading
    appended to the plot data, if any, and the bytes left in the port. *)
Fixpoint collect_data (waiting : list Z) : option Reading * list Z :=
  match waiting with
  | [] => (None, [])
  | byte :: rest =>
      if byte =? 255 then
        if 8 <=? Z.of_nat (length rest) then
          let data := 255 :: firstn 8 rest in
          let left := skipn 8 rest in
          if (nth 0 data 0 =? 255) && (last data 0 =? 254) then
            let flag := nth 1 data 0 in
            let present_current_high := nth 2 data 0 in
            let present_current_low := nth 3 data 0 in
            let target_current_high := nth 4 data 0 in
            let target_current_low := nth 5 data 0 in
            let temp := nth 6 data 0 in
            let received := nth 7 data 0 in
            let present_current :=
              Z.lor (Z.shiftl present_current_high 8) present_current_low in
            let target_current :=
              Z.lor (Z.shiftl target_current_high 8) target_current_low in
            if checksum flag present_current_high present_current_low
                        target_current_high target_current_low temp
               =? received
            then (Some (mkReading present_current temp
                          ((inject_Z target_current / 4095) * 5)%Q), left)
            else (None, left)
          else (None, left)
        else (None, rest)
      else collect_data rest
  end.

End serial_protocol.

(** ** Statements about longer runs of the engine *)

Module EngineRuns.
Import QUtil updated_widget.
Local Open Scope Q_scope.

(** The runs of a session in which only the histogram method is selected. *)
Definition histogram_runs (reports : list Results) : list (string * Results) :=
  map (fun r => ("histogram"%string, r)) reports.

(** Both rolling histories hold at most five entries. *)
Definition within_capacity (st : EngineState) : Prop :=
  (length (last_mean_values st) <= 5)%nat
  /\ (length (last_adjustment_values st) <= 5)%nat.

(** A delta that survived the hysteresis: zero, or at least 0.3 in
    magnitude. *)
Definition zero_or_significant (d : Q) : Prop :=
  d == 0 \/ 3#10 <= Qabs d.

(** The selected methods of one cycle as [generate_analysis] runs them
    (lines 580-780): the try block of a method either gets as far as a
    report, from which the engine computes a delta that is limited and
    appended, or ends in an exception before that, which is logged and
    leaves no delta and the engine state as it was. *)
Fixpoint run_selected (st : EngineState)
    (runs : list (string * result Results)) : list Q * EngineState :=
  match runs with
  | [] => ([], st)
  | (method, Raise _) :: rest => run_selected st rest
  | (method, Ok results) :: rest =>
      let '(a, st1) := calculate_current_adjustment st results method in
      let '(l, st2) := run_selected st1 rest in
      (limit5 a :: l, st2)
  end.

(** Lines 782-789: the recommendation, [None] when no delta was appended. *)
Definition recommend_selected (st : EngineState)
    (runs : list (string * result Results))
  : option (Q * Z) * EngineState :=
  let '(adjustments, st1) := run_selected st runs in
  match adjustments with
  | [] => (None, st1)
  | _ => let f := final_adjustment adjustments in
         (Some (f, new_value (current_value st1) f), st1)
  end.

Definition failed (run : string * result Results) : Prop :=
  exists e, snd run = Raise e.

Definition reported (run : string * result Results) : Prop :=
  exists results, snd run = Ok results.

End EngineRuns.

(** ** Statements about the estimators' reports *)

Module ReportRanges.
Import QUtil Numpy.
Local Open Scope Q_scope.

(** No weight of the mask is negative. *)
Definition nonnegative_mask (mask : WeightMask) : Prop :=
  Forall (fun w => 0 <= w) (flatten mask).

(** No sample of the image exceeds the saturation threshold. *)
Definition none_above (threshold : Z) (img : Image) : Prop :=
  Forall (fun v => (v <= threshold)%Z) (flatten (img_rows img)).

End ReportRanges.

(** ** Reading a raw frame ([read_raw_image] of the three analyzers) *)

Module raw_image.
Import Numpy.
Local Open Scope Z_scope.

Definition itemsize (d : dtype) : Z :=
  match d with
  | uint8 => 1
  | uint16 => 2
  end.

Definition byte_value (b : Byte.byte) : Z := Z.of_N (Byte.to_N b).

(** Two bytes per sample, least significant first (numpy's native order on
    the machines the project runs on). *)
Fixpoint uint16_samples (data : list Byte.byte) : list Z :=
  match data with
  | lo :: hi :: rest =>
      (byte_value lo + 256 * byte_value hi) :: uint16_samples rest
  | _ => []
  end.

(** [numpy.frombuffer(data, dtype=dtype)]: the buffer must hold a whole
    number of samples. *)
Definition np_frombuffer (data : list Byte.byte) (d : dtype)
  : result (list Z) :=
  if Z.of_nat (length data) mod itemsize d =? 0 then
    Ok (match d with
        | uint8 => map byte_value data
        | uint16 => uint16_samples data
        end)
  else Raise ValueError.

(** The first [h] rows of width [w] cut from a flat list. *)
Fixpoint chunks (w h : nat) (l : list Z) : list (list Z) :=
  match h with
  | O => []
  | S k => firstn w l :: chunks w k (skipn w l)
  end.

(** [a.reshape(height, width)] on a flat array: the two sizes must be
    non-negative and account for every sample. *)
Definition reshape (l : list Z) (height width : Z) : result (list (list Z)) :=
  if (0 <=? height) && (0 <=? width)
     && (height * width =? Z.of_nat (length l))
  then Ok (chunks (Z.to_nat width) (Z.to_nat height) l)
  else Raise ValueError.

(** The dimensions in force when the buffer is reshaped (lines 25-55). *)
Definition frame_dimensions (data_length : Z) (width height : option Z)
    (d : dtype) : Z * Z :=
  let width := match width with Some w => w | None => 960 end in
  let height := match height with Some h => h | None => 1200 end in
  let width := if width =? 1920 then 960 else width in
  let bytes_per_pixel := itemsize d in
  let expected_size := width * height * bytes_per_pixel in
  if negb (data_length =? expected_size) then
    let total_pixels := data_length / bytes_per_pixel in
    if 0 <? width then (total_pixels / width, width)
    else if 0 <? height then (height, total_pixels / height)
    else (Z.sqrt total_pixels, Z.sqrt total_pixels)
  else (height, width).

(** [read_raw_image] on the bytes of the file. *)
Definition read_raw_image (data : list Byte.byte) (width height : option Z)
    (d : dtype) : result Image :=
  let '(height, width) :=
    frame_dimensions (Z.of_nat (length data)) width height d in
  samples <- np_frombuffer data d ;;
  rows <- reshape samples height width ;;
  Ok (mkImage d rows).

End raw_image.

(** ** Adjustment in the modular front end ([modules/analysis/analyzer.py],
    [main.py]) *)

Module image_analyzer.
Import QUtil Numpy.
Local Open Scope Q_scope.

(** The values of a results dictionary.  [PObject] stands for the entries
    this development does not compute: arrays, shapes, and the floats that
    need a square root or a percentile. *)
Inductive pyval : Type :=
| PFloat (q : Q)
| PInt (z : Z)
| PBool (b : bool)
| PStr (s : string)
| PObject.

Definition dict : Type := list (string * pyval).

Fixpoint dict_get (d : dict) (key : string) : option pyval :=
  match d with
  | [] => None
  | (k, v) :: rest => if String.eqb k key then Some v else dict_get rest key
  end.

(** [d[key] = v]: replace in place or append. *)
Fixpoint dict_set (d : dict) (key : string) (v : pyval) : dict :=
  match d with
  | [] => [(key, v)]
  | (k, old) :: rest =>
      if String.eqb k key then (k, v) :: rest
      else (k, old) :: dict_set rest key v
  end.

(** A value used in a numeric comparison. *)
Definition number (v : pyval) : result Q :=
  match v with
  | PFloat q => Ok q
  | PInt z => Ok (inject_Z z)
  | PBool b => Ok (if b then 1 else 0)
  | PStr _ => Raise TypeError
  | PObject => Raise TypeError
  end.

(** [d.get(key, default)] read as a number. *)
Definition get_number (d : dict) (key : string) (default : Q) : result Q :=
  match dict_get d key with
  | Some v => number v
  | None => Ok default
  end.

(** The dictionary returned by [analyze_saturation_by_pixel_count]
    (lines 165-177 of the estimator), key by key. *)
Definition pixel_count_dict (r : saturation_pixel_count_analyzer.Report)
  : dict :=
  [("image_shape"%string, PObject);
   ("saturated_pixels"%string,
    PInt (saturation_pixel_count_analyzer.saturated_pixels r));
   ("saturated_percentage"%string,
    PFloat (saturation_pixel_count_analyzer.saturated_percentage r));
   ("weighted_saturation"%string,
    PFloat (saturation_pixel_count_analyzer.weighted_saturation r));
   ("weighted_saturation_percentage"%string,
    PFloat (saturation_pixel_count_analyzer.weighted_saturation_percentage r));
   ("max_weighted_saturation"%string,
    PFloat (saturation_pixel_count_analyzer.max_weighted_saturation r));
   ("is_saturated"%string,
    PBool (saturation_pixel_count_analyzer.is_saturated r));
   ("saturation_threshold"%string,
    PInt (saturation_pixel_count_analyzer.saturation_threshold r));
   ("weight_mask"%string, PObject);
   ("saturation_map"%string, PObject);
   ("img_8bit"%string, PObject)].

(** The dictionary returned by [analyze_saturation_by_histogram]
    (lines 219-238 of the estimator). *)
Definition histogram_dict (r : histogram_saturation_analyzer.Report) : dict :=
  [("image_shape"%string, PObject);
   ("histogram"%string, PObject);
   ("bin_centers"%string, PObject);
   ("histogram_percentage"%string, PObject);
   ("high_threshold_value"%string,
    PInt (histogram_saturation_analyzer.high_threshold_value r));
   ("high_intensity_sum"%string,
    PFloat (histogram_saturation_analyzer.high_intensity_sum r));
   ("highest_bin_percentage"%string,
    PFloat (histogram_saturation_analyzer.highest_bin_percentage r));
   ("is_saturated"%string,
    PBool (histogram_saturation_analyzer.is_saturated r));
   ("weighted_mean"%string,
    PFloat (histogram_saturation_analyzer.weighted_mean r));
   ("weighted_std"%string, PObject);
   ("max_intensity"%string,
    PInt (histogram_saturation_analyzer.max_intensity r));
   ("percentile_95"%string, PObject);
   ("percentile_5"%string, PObject);
   ("dynamic_range"%string, PObject);
   ("near_max_percentage"%string,
    PFloat (histogram_saturation_analyzer.near_max_percentage r));
   ("weight_mask"%string, PObject);
   ("img_8bit"%string, PObject);
   ("saturation_map"%string, PObject)].

(** The three entries [analyze_image] adds before it returns
    (lines 167-170). *)
Definition with_metadata (d : dict) (method : string) : dict :=
  dict_set (dict_set (dict_set d "analysis_method" (PStr method))
                     "timestamp" PObject)
           "roi_info" PObject.

(** The attributes of [ImageAnalyzer] used for the adjustment. *)
Record AnalyzerState : Type := mkAnalyzer {
  prev_high_sum : option Q;
  stable_count : Z;
  last_mean_values : list Q;
  last_adjustment_values : list Q;
  current_value : Q
}.

Definition initial_state : AnalyzerState := mkAnalyzer None 0 [] [] 20.

(** [_calculate_histogram_adjustment] (lines 208-298). *)
Definition _calculate_histogram_adjustment (st : AnalyzerState)
    (results : dict) : result (Q * AnalyzerState) :=
  highest_bin <- get_number results "highest_bin_percentage" 0 ;;
  weighted_sat <- get_number results "weighted_saturation_percentage" 0 ;;
  high_sum <- get_number results "high_intensity_sum" 0 ;;
  weighted_mean <- get_number results "weighted_mean" 0 ;;
  max_intensity <- get_number results "max_intensity" 255 ;;
  let norm_mean := (weighted_mean / 255) * 100 in
  let count :=
    match prev_high_sum st with
    | Some prev =>
        if Qltb (Qabs (high_sum - prev)) (1#10)
        then (stable_count st + 1)%Z else 0%Z
    | None => stable_count st
    end in
  let means := updated_widget.push5 (last_mean_values st) norm_mean in
  let adjustment :=
    if Qltb norm_mean 2 || Qltb high_sum (1#100) then
      let a :=
        if Qltb norm_mean 1 then 3
        else if Qltb norm_mean 2 then 2
        else 1 in
      if Qleb (current_value st) 20 && Qleb 18 (current_value st)
         && (2 <=? Z.of_nat (length means))%Z
         && existsb (fun val => Qltb 30 val) (removelast means)
      then 3#10 else a
    else 0 in
  let adjustments :=
    updated_widget.push5 (last_adjustment_values st) adjustment in
  Ok (adjustment,
      mkAnalyzer (Some high_sum) count means adjustments (current_value st)).

(** [_calculate_pixel_count_adjustment] (lines 300-314). *)
Definition _calculate_pixel_count_adjustment (results : dict) : result Q :=
  saturation_percentage <- get_number results "saturation_percentage" 0 ;;
  Ok (if Qltb saturation_percentage (1#10) then 1
      else if Qltb 5 saturation_percentage then -(1)
      else if Qltb 2 saturation_percentage then -(5#10)
      else if Qltb saturation_percentage (5#10) then 5#10
      else 0).

(** [_calculate_contrast_adjustment] (lines 316-331). *)
Definition _calculate_contrast_adjustment (results : dict) : result Q :=
  contrast <- get_number results "global_contrast" 0 ;;
  Ok (if Qltb contrast (2#10) then 1
      else if Qltb (5#10) contrast then -(1)
      else if Qltb (4#10) contrast then -(3#10)
      else if Qltb contrast (3#10) then 3#10
      else 0).

Definition with_current (st : AnalyzerState) (c : Q) : AnalyzerState :=
  mkAnalyzer (prev_high_sum st) (stable_count st) (last_mean_values st)
             (last_adjustment_values st) c.

(** [calculate_adjustment] (lines 179-206); [results] is [None] when the
    analysis failed. *)
Definition calculate_adjustment (st : AnalyzerState) (results : option dict)
    (method : string) (current : Q) : result (Q * AnalyzerState) :=
  match results with
  | None => Ok (0, st)
  | Some d =>
      let st := with_current st current in
      if String.eqb method "histogram"
      then _calculate_histogram_adjustment st d
      else if String.eqb method "pixel_count"
      then a <- _calculate_pixel_count_adjustment d ;; Ok (a, st)
      else if String.eqb method "contrast"
      then a <- _calculate_contrast_adjustment d ;; Ok (a, st)
      else Ok (0, st)
  end.

(** The automatic branch of [generate_analysis] in [main.py]
    (lines 287-298): the new laser intensity and the analyzer state. *)
Definition auto_adjust (st : AnalyzerState) (results : dict)
    (method : string) (current : Q) : result (Q * AnalyzerState) :=
  r <- calculate_adjustment st (Some results) method current ;;
  let '(adjustment, st1) := r in
  if Qltb (1#100) (Qabs adjustment)
  then Ok (Qmax 0 (Qmin 100 (current + adjustment)), st1)
  else Ok (current, st1).

End image_analyzer.

(** ** The weight mask of the modular front end
    ([modules/utils/image_utils.py]) *)

Module image_utils.
Import RUtil.
Local Open Scope R_scope.

Definition dist_from_center (center : R * R) (y x : nat) : R :=
  sqrt ((INR y - fst center) ^ 2 + (INR x - snd center) ^ 2).

(** Lines 6-43: a Gaussian, set to 1 within [flat_top_radius] of the
    centre when a radius is given, then divided by its maximum.  [exp] is
    the real exponential; numpy's underflows to 0.0 once the exponent
    leaves the range of [Properties.within_exponent_range]. *)
Definition create_radial_weight_mask (shape : nat * nat)
    (center : option (R * R)) (sigma : option R) (flat_top_radius : option R)
  : result (list (list R)) :=
  let '(height, width) := shape in
  let center :=
    match center with
    | Some c => c
    | None => (INR (height / 2), INR (width / 2))
    end in
  let sigma :=
    match sigma with
    | Some s => s
    | None => INR (Nat.min height width / 6)
    end in
  let gaussian (y x : nat) :=
    exp (- 0.5 * (dist_from_center center y x / sigma) ^ 2) in
  let weight_mask :=
    match flat_top_radius with
    | Some r =>
        grid height width (fun y x =>
          if Rle_dec (dist_from_center center y x) r then 1
          else gaussian y x)
    | None => grid height width gaussian
    end in
  m <- list_max (concat weight_mask) ;;
  Ok (map (map (fun v => v / m)) weight_mask).

(** The centre and the sigma in force after the defaults. *)
Definition center_of (shape : nat * nat) (center : option (R * R)) : R * R :=
  match center with
  | Some c => c
  | None => (INR (fst shape / 2), INR (snd shape / 2))
  end.

Definition sigma_of (shape : nat * nat) (sigma : option R) : R :=
  match sigma with
  | Some s => s
  | None => INR (Nat.min (fst shape) (snd shape) / 6)
  end.

(** The exponent of the Gaussian at a pixel. *)
Definition exponent (shape : nat * nat) (center : option (R * R))
    (sigma : option R) (y x : nat) : R :=
  0.5 * (dist_from_center (center_of shape center) y x
         / sigma_of shape sigma) ^ 2.

End image_utils.



(** * Properties of the decision engine *)

Section EngineFacts.
Import QUtil updated_widget.
Local Open Scope Q_scope.

Lemma Qltb_true (x y : Q) : Qltb x y = true <-> x < y.
Proof.
  unfold Qltb. rewrite negb_true_iff.
  split; intro H.
  - apply Qnot_le_lt. intro Hle. apply Qle_bool_iff in Hle. congruence.
  - destruct (Qle_bool y x) eqn:E; [|reflexivity].
    apply Qle_bool_iff in E. exfalso. lra.
Qed.

Lemma Qltb_false (x y : Q) : Qltb x y = false <-> y <= x.
Proof.
  unfold Qltb. rewrite negb_false_iff. apply Qle_bool_iff.
Qed.

Lemma Qleb_true (x y : Q) : Qleb x y = true <-> x <= y.
Proof. apply Qle_bool_iff. Qed.

Lemma Qleb_false (x y : Q) : Qleb x y = false <-> y < x.
Proof.
  unfold Qleb. split; intro H.
  - apply Qnot_le_lt. intro Hle. apply Qle_bool_iff in Hle. congruence.
  - destruct (Qle_bool x y) eqn:E; [|reflexivity].
    apply Qle_bool_iff in E. exfalso. lra.
Qed.

Lemma Qabs_lt_iff (x y : Q) : Qabs x < y <-> - y < x /\ x < y.
Proof.
  apply Qabs_case; intros; lra.
Qed.

End EngineFacts.

(** Case analysis on the comparisons of a goal, each turned into the
    inequality it decides. *)
Ltac qcompare :=
  repeat match goal with
  | |- context [QUtil.Qltb ?a ?b] =>
      let E := fresh "E" in
      destruct (QUtil.Qltb a b) eqn:E;
      [apply Qltb_true in E | apply Qltb_false in E]
  | |- context [QUtil.Qleb ?a ?b] =>
      let E := fresh "E" in
      destruct (QUtil.Qleb a b) eqn:E;
      [apply Qleb_true in E | apply Qleb_false in E]
  end.

Ltac qminmax :=
  repeat match goal with
  | |- context [Qmin ?a ?b] =>
      let H := fresh "H" in
      destruct (Q.min_spec a b) as [[? H]|[? H]]; rewrite H in *; clear H
  | |- context [Qmax ?a ?b] =>
      let H := fresh "H" in
      destruct (Q.max_spec a b) as [[? H]|[? H]]; rewrite H in *; clear H
  end.

Section EngineBounds.
Import QUtil updated_widget.
Local Open Scope Q_scope.

Lemma limit_adjustment_range (a : Q) :
  -(1#2) <= limit_adjustment a /\ limit_adjustment a <= 3.
Proof.
  unfold limit_adjustment, min_adjustment_threshold.
  qcompare; simpl; qminmax; lra.
Qed.

Lemma anti_oscillation_range (norm_mean a : Q) :
  -(1#2) <= a -> a <= 3 ->
  -(1#2) <= anti_oscillation norm_mean a /\ anti_oscillation norm_mean a <= 3.
Proof.
  intros Hlo Hhi. unfold anti_oscillation.
  change (a / 5) with (a * (1#5)); change (a / 2) with (a * (1#2)).
  qcompare; simpl; qminmax; lra.
Qed.

Lemma limited_adjustment_range st results method :
  let a := fst (fst (limited_adjustment st results method)) in
  -(1#2) <= a /\ a <= 3.
Proof.
  unfold limited_adjustment.
  destruct (method_adjustment st results method) as [[a nm] st1]. simpl.
  apply limit_adjustment_range.
Qed.

Lemma calculate_current_adjustment_range st results method :
  let d := fst (calculate_current_adjustment st results method) in
  -(1#2) <= d /\ d <= 3.
Proof.
  unfold calculate_current_adjustment.
  pose proof (limited_adjustment_range st results method) as H.
  destruct (limited_adjustment st results method) as [[a nm] st2].
  simpl in H.
  destruct (is_oscillating _ _); simpl.
  - apply anti_oscillation_range; tauto.
  - exact H.
Qed.

Lemma new_value_range (current : Z) (final : Q) :
  (0 <= new_value current final <= 100)%Z.
Proof. unfold new_value. lia. Qed.

End EngineBounds.

Section EngineClaims.
Import QUtil updated_widget Properties.
Local Open Scope Q_scope.

(** C1: for every report and every method the delta returned by
    [calculate_current_adjustment] lies in [-1, 3] (indeed in [-1/2, 3]),
    and the target percentage computed from the current percentage and the
    fused delta lies in [0, 100]. *)
Theorem C1_delta_and_target_bounded :
  (forall st results method,
      let d := fst (calculate_current_adjustment st results method) in
      -(1) <= d /\ d <= 3)
  /\ (forall current final, (0 <= new_value current final <= 100)%Z)
  /\ (forall st runs,
        match fst (recommend st runs) with
        | Some (f, v) => (0 <= v <= 100)%Z
        | None => True
        end).
Proof.
  split; [|split].
  - intros st results method d.
    pose proof (calculate_current_adjustment_range st results method) as H.
    simpl in H. fold d in H. lra.
  - apply new_value_range.
  - intros st runs. unfold recommend.
    destruct (run_methods st runs) as [[|a l] st1]; simpl; [exact I|].
    apply new_value_range.
Qed.

Lemma history_full_enough_true means adjs :
  (3 <= length means)%nat -> (3 <= length adjs)%nat ->
  history_full_enough means adjs = true.
Proof.
  intros H1 H2. unfold history_full_enough.
  apply andb_true_iff; split; apply Z.leb_le; lia.
Qed.

Lemma is_oscillating_true means adjs :
  (3 <= length means)%nat -> (3 <= length adjs)%nat ->
  opposite_signs adjs \/ wide_gaps means ->
  is_oscillating means adjs = true.
Proof.
  intros H1 H2 H. unfold is_oscillating.
  rewrite history_full_enough_true by assumption. simpl.
  apply orb_true_iff.
  destruct H as [H|[Ha Hb]].
  - right. unfold alternating_signs.
    replace (3 <=? Z.of_nat (length adjs))%Z with true
      by (symmetry; apply Z.leb_le; lia).
    simpl. apply orb_true_iff.
    destruct H as [[Ha Hb]|[Ha Hb]]; [left|right];
      apply andb_true_iff; split; apply Qltb_true; assumption.
  - left. unfold large_swings.
    replace (3 <=? Z.of_nat (length means))%Z with true
      by (symmetry; apply Z.leb_le; lia).
    simpl. apply andb_true_iff; split; apply Qltb_true; assumption.
Qed.

(** C2, as stated, fails: after two saturated pixel-count cycles a
    low-contrast report (estimated mean 30) gives the limited delta +1; the
    last two deltas have opposite signs and oscillation is flagged, yet the
    delta returned is +1, not shrunk. *)
Lemma C2_oscillation_flagged_but_delta_unchanged :
  let r := limited_adjustment two_saturated_cycles low_contrast_report "contrast" in
  let a := fst (fst r) in
  let st2 := snd r in
  (3 <= length (last_mean_values st2))%nat
  /\ (3 <= length (last_adjustment_values st2))%nat
  /\ opposite_signs (last_adjustment_values st2)
  /\ is_oscillating (last_mean_values st2) (last_adjustment_values st2) = true
  /\ a = 1
  /\ fst (calculate_current_adjustment two_saturated_cycles
                                      low_contrast_report "contrast") = 1
  /\ ~ Qabs (fst (calculate_current_adjustment two_saturated_cycles
                                             low_contrast_report "contrast"))
       < Qabs a.
Proof.
  vm_compute.
  repeat split; try (intros; discriminate); try lia.
  left. split; reflexivity.
Qed.

(** C2, amended: with at least three mean readings and three deltas on
    record, opposite signs of the last two deltas or two gaps above 30
    between the last mean readings flag oscillation.  The limited delta [a]
    is then replaced by [a / 5] when it is negative and the normalised mean
    is above 40, by [min(0.5, a / 2)] when it is positive and the
    normalised mean is below 10 (both strictly smaller in magnitude), and
    is returned unchanged in every other case. *)
Theorem C2_oscillation_shrinks_in_guarded_cases :
  forall st results method,
    let r := limited_adjustment st results method in
    let a := fst (fst r) in
    let norm_mean := snd (fst r) in
    let st2 := snd r in
    let d := fst (calculate_current_adjustment st results method) in
    (3 <= length (last_mean_values st2))%nat ->
    (3 <= length (last_adjustment_values st2))%nat ->
    opposite_signs (last_adjustment_values st2)
      \/ wide_gaps (last_mean_values st2) ->
    is_oscillating (last_mean_values st2) (last_adjustment_values st2) = true
    /\ (40 < norm_mean -> a < 0 -> d == a / 5 /\ Qabs d < Qabs a)
    /\ (norm_mean < 10 -> 0 < a ->
        d == Qmin (5#10) (a / 2) /\ Qabs d < Qabs a)
    /\ (~ (40 < norm_mean /\ a < 0) -> ~ (norm_mean < 10 /\ 0 < a) -> d = a).
Proof.
  intros st results method. cbv zeta.
  unfold calculate_current_adjustment.
  pose proof (limited_adjustment_range st results method) as Hr.
  destruct (limited_adjustment st results method) as [[a nm] s2].
  cbn [fst snd] in *. intros H1 H2 H.
  pose proof (is_oscillating_true _ _ H1 H2 H) as Hosc.
  rewrite Hosc. cbn [fst snd].
  split; [reflexivity|].
  unfold anti_oscillation.
  change (a / 5) with (a * (1#5)); change (a / 2) with (a * (1#2)).
  split; [|split].
  - intros Hn Ha.
    apply Qltb_true in Hn as Hn'. apply Qltb_true in Ha as Ha'.
    rewrite Hn', Ha'. simpl.
    assert (E : Qmax (-(1#10)) (a * (1#5)) == a * (1#5)).
    { destruct (Q.max_spec (-(1#10)) (a * (1#5))) as [[? E]|[? E]];
        rewrite E; lra. }
    split; [exact E|]. rewrite E.
    apply Qabs_case; intro; apply Qabs_case; intro; lra.
  - intros Hn Ha.
    assert (Hf : Qltb 40 nm && Qltb a 0 = false).
    { apply andb_false_iff. right. apply Qltb_false. lra. }
    rewrite Hf.
    apply Qltb_true in Hn as Hn'. apply Qltb_true in Ha as Ha'.
    rewrite Hn', Ha'. simpl.
    split; [reflexivity|].
    destruct (Q.min_spec (5#10) (a * (1#2))) as [[? E]|[? E]]; rewrite E;
      apply Qabs_case; intro; apply Qabs_case; intro; lra.
  - intros Hn1 Hn2.
    destruct (Qltb 40 nm && Qltb a 0) eqn:E1.
    { exfalso. apply Hn1. apply andb_true_iff in E1.
      destruct E1 as [E1 E2]. apply Qltb_true in E1, E2. tauto. }
    destruct (Qltb nm 10 && Qltb 0 a) eqn:E2.
    { exfalso. apply Hn2. apply andb_true_iff in E2.
      destruct E2 as [E2 E3]. apply Qltb_true in E2, E3. tauto. }
    reflexivity.
Qed.

End EngineClaims.

(** Case analysis on the condition of the outermost conditional, one
    comparison at a time; comparisons between constants are evaluated. *)
Ltac head_atom c :=
  match c with
  | andb ?a _ => head_atom a
  | orb ?a _ => head_atom a
  | negb ?a => head_atom a
  | _ => c
  end.

Ltac eval_closed_comparisons :=
  repeat match goal with
  | |- context [QUtil.Qltb ?a ?b] =>
      let v := eval vm_compute in (QUtil.Qltb a b) in
      match v with
      | true => change (QUtil.Qltb a b) with true
      | false => change (QUtil.Qltb a b) with false
      end
  | |- context [QUtil.Qleb ?a ?b] =>
      let v := eval vm_compute in (QUtil.Qleb a b) in
      match v with
      | true => change (QUtil.Qleb a b) with true
      | false => change (QUtil.Qleb a b) with false
      end
  end.

Ltac split_atom c :=
  let E := fresh "E" in
  lazymatch c with
  | QUtil.Qltb ?a ?b =>
      destruct (QUtil.Qltb a b) eqn:E;
      [apply Qltb_true in E | apply Qltb_false in E]
  | QUtil.Qleb ?a ?b =>
      destruct (QUtil.Qleb a b) eqn:E;
      [apply Qleb_true in E | apply Qleb_false in E]
  | Qeq_bool ?a ?b =>
      destruct (Qeq_bool a b) eqn:E;
      [apply Qeq_bool_iff in E | apply Qeq_bool_neq in E]
  | _ => destruct c eqn:E
  end.

Ltac ladder_step :=
  lazymatch goal with
  | |- _ _ (if ?c then _ else _) =>
      let a := head_atom c in
      split_atom a; cbn [andb orb negb]; cbv iota
  end.

Section StabilityClaims.
Import QUtil updated_widget Properties.
Local Open Scope Q_scope.

Lemma ladder_at_120 st hs hb ws :
  last_mean_values st = [] ->
  ladder_value_at_120 st (histogram_ladder st ((120 / 255) * 100) hs hb ws).
Proof.
  intro Hm. unfold histogram_ladder. rewrite Hm.
  unfold optimal_mean_min, optimal_mean_max, optimal_sat_min, optimal_sat_max.
  cbv zeta. eval_closed_comparisons.
  change (2 <=? Z.of_nat (length (@nil Q)))%Z with false.
  rewrite !andb_false_r. cbn [andb orb negb]. cbv iota.
  repeat ladder_step;
    try (exfalso; lra);
    unfold ladder_value_at_120;
    try (left; simpl; tauto).
  all: right; split; [reflexivity|];
    unfold in_critical_region; apply andb_true_iff;
    split; apply Qleb_true; lra.
Qed.


Lemma histogram_tail_eq st a :
  limit_adjustment (histogram_hysteresis st (stability_damping st a))
  = histogram_tail (stable_count st) (in_critical_region st) a.
Proof.
  unfold histogram_tail, histogram_hysteresis, stability_damping.
  cbv zeta. cbn [stable_count].
  destruct (in_critical_region st).
  - change (in_critical_region (mkEngine None (stable_count st) [] [] 20))
      with true. reflexivity.
  - change (in_critical_region (mkEngine None (stable_count st) [] [] 50))
      with false. reflexivity.
Qed.

Lemma histogram_ladder_ext st st' nm hs hb ws :
  current_value st = current_value st' ->
  last_mean_values st = last_mean_values st' ->
  histogram_ladder st nm hs hb ws = histogram_ladder st' nm hs hb ws.
Proof.
  intros Hc Hm. unfold histogram_ladder, cv. rewrite Hc, Hm. reflexivity.
Qed.

Lemma stable_reading_same (hs : Q) : Qltb (Qabs (hs - hs)) (1#10) = true.
Proof.
  apply Qltb_true. apply Qabs_lt_iff. lra.
Qed.

(** One histogram cycle on a state whose mean history is empty: no
    oscillation test can fire, so the delta is the tail applied to the
    ladder value. *)
Lemma histogram_cycle_empty_means p sc adjs current results :
  let hs := get (high_intensity_sum results) 0 in
  let nm := (get (weighted_mean results) 0 / 255) * 100 in
  let st := mkEngine p sc [] adjs current in
  let sc' := stable_count (track_stability st hs) in
  let d := histogram_tail sc' (in_critical_region (fresh_at current))
             (histogram_ladder (fresh_at current) nm hs
                (get (highest_bin_percentage results) 0)
                (get (weighted_saturation_percentage results) 0)) in
  calculate_current_adjustment st results "histogram"
  = (d, mkEngine (Some hs) sc' [] (push5 adjs d) current).
Proof.
  cbv zeta.
  unfold calculate_current_adjustment, limited_adjustment, method_adjustment.
  change (String.eqb "histogram" "histogram") with true. cbv iota.
  unfold histogram_method. cbv zeta.
  rewrite histogram_tail_eq.
  rewrite (histogram_ladder_ext _ (fresh_at current)) by reflexivity.
  cbn [fst snd last_mean_values with_adjustments track_stability with_stability
       last_adjustment_values current_value prev_high_sum stable_count].
  reflexivity.
Qed.


(** C3, as stated, fails: from the fresh state, two identical histogram
    reports with mean intensity 120 leave the stable-reading counter at 1
    (the first frame has nothing to compare with), and the second delta
    equals the first: no damping yet. *)
Lemma C3_second_frame_counter_one_undamped :
  weighted_mean mean_120_report = Some 120
  /\ feed 2 fresh_state mean_120_report "histogram"
     = ([1; 1], mkEngine (Some 20) 1 [] [1; 1] 20)
  /\ stable_count (snd (feed 2 fresh_state mean_120_report "histogram")) <> 2%Z
  /\ ~ Qabs (nth 1 (fst (feed 2 fresh_state mean_120_report "histogram")) 0)
       < Qabs (nth 0 (fst (feed 2 fresh_state mean_120_report "histogram")) 0).
Proof.
  vm_compute. repeat split; intro H; discriminate.
Qed.

Lemma histogram_tail_damped (st : EngineState) (a : Q) :
  ladder_value_at_120 st a ->
  let crit := in_critical_region st in
  histogram_tail 1 crit a = histogram_tail 0 crit a
  /\ Qabs (histogram_tail 2 crit a) <= Qabs (histogram_tail 0 crit a)
  /\ (~ histogram_tail 0 crit a == 0 ->
      Qabs (histogram_tail 2 crit a) < Qabs (histogram_tail 0 crit a)).
Proof.
  intros [H|[H Hc]]; cbv zeta.
  - simpl in H.
    destruct (in_critical_region st);
      repeat (destruct H as [H|H]; [subst a|]); try contradiction;
      (split; [reflexivity|split];
       [vm_compute; discriminate
       |first [intros _; vm_compute; reflexivity
              |intro Hn; exfalso; apply Hn; reflexivity]]).
  - subst a. rewrite Hc.
    split; [reflexivity|split]; [vm_compute; discriminate|].
    intros _. vm_compute. reflexivity.
Qed.

(** C3, amended: from the fresh state (at any slider position) and for any
    histogram report with mean intensity 120, the counter reads 0, 1 and 2
    after the first, second and third identical frame.  The second delta
    equals the first; the third is damped: never larger in magnitude than
    the first and strictly smaller whenever the first is not zero. *)
Theorem C3_damping_from_third_identical_frame :
  forall (results : Results) (current : Z),
    weighted_mean results = Some 120 ->
    exists d1 d2 d3 st1 st2 st3,
      feed 1 (fresh_at current) results "histogram" = ([d1], st1)
      /\ feed 2 (fresh_at current) results "histogram" = ([d1; d2], st2)
      /\ feed 3 (fresh_at current) results "histogram" = ([d1; d2; d3], st3)
      /\ stable_count st1 = 0%Z /\ stable_count st2 = 1%Z
      /\ stable_count st3 = 2%Z
      /\ d2 = d1
      /\ Qabs d3 <= Qabs d1
      /\ (~ d1 == 0 -> Qabs d3 < Qabs d1).
Proof.
  intros results current Hm.
  set (hs := get (high_intensity_sum results) 0).
  set (L := histogram_ladder (fresh_at current) ((120 / 255) * 100) hs
              (get (highest_bin_percentage results) 0)
              (get (weighted_saturation_percentage results) 0)).
  set (crit := in_critical_region (fresh_at current)).
  assert (HL : ladder_value_at_120 (fresh_at current) L)
    by (apply ladder_at_120; reflexivity).
  destruct (histogram_tail_damped _ _ HL) as (H10 & Hle & Hlt).
  fold crit in H10, Hle, Hlt.
  assert (C : forall p sc adjs,
             calculate_current_adjustment (mkEngine p sc [] adjs current)
                                          results "histogram"
             = (histogram_tail
                  (stable_count (track_stability (mkEngine p sc [] adjs current) hs))
                  crit L,
                mkEngine (Some hs)
                  (stable_count (track_stability (mkEngine p sc [] adjs current) hs))
                  []
                  (push5 adjs
                     (histogram_tail
                        (stable_count
                           (track_stability (mkEngine p sc [] adjs current) hs))
                        crit L))
                  current)).
  { intros p sc adjs.
    pose proof (histogram_cycle_empty_means p sc adjs current results) as H.
    cbv zeta in H. rewrite Hm in H. exact H. }
  assert (S1 : forall sc adjs,
             stable_count (track_stability
                             (mkEngine (Some hs) sc [] adjs current) hs)
             = (sc + 1)%Z).
  { intros sc adjs. unfold track_stability. cbn [prev_high_sum stable_count with_stability].
    rewrite stable_reading_same. reflexivity. }
  exists (histogram_tail 0 crit L), (histogram_tail 1 crit L),
         (histogram_tail 2 crit L).
  eexists. eexists. eexists.
  unfold feed, fresh_at.
  rewrite (C None 0%Z []).
  change (stable_count (track_stability (mkEngine None 0 [] [] current) hs))
    with 0%Z.
  rewrite C, S1. change (0 + 1)%Z with 1%Z.
  rewrite C, S1. change (1 + 1)%Z with 2%Z.
  repeat split; try reflexivity; assumption.
Qed.

End StabilityClaims.

Section PixelCountClaims.
Import QUtil Numpy updated_widget Properties.
Local Open Scope Q_scope.

Lemma same_shape_flat_length {A B : Type} (a : list (list A))
    (b : list (list B)) :
  same_shape a b = true -> length (flatten a) = length (flatten b).
Proof.
  unfold same_shape, flatten, shape.
  destruct (list_eq_dec Nat.eq_dec _ _) as [E|]; [|discriminate].
  intros _. rewrite !length_concat. rewrite E. reflexivity.
Qed.

Lemma Qsum_pos_nonempty (l : list Q) : 0 < Qsum l -> l <> [].
Proof. intros H E. subst l. simpl in H. lra. Qed.

Lemma mask_all_true (f : Z -> bool) (l : list Z) :
  Forall (fun x => f x = true) l -> map f l = repeat true (length l).
Proof.
  induction 1 as [|x l Hx _ IH]; simpl; [reflexivity|].
  rewrite Hx, IH. reflexivity.
Qed.

Lemma count_all_true (n : nat) :
  length (filter (fun b : bool => b) (repeat true n)) = n.
Proof. induction n; simpl; congruence. Qed.

Lemma weights_under_full_mask (ws : list Q) :
  map (fun p : bool * Q => if fst p then snd p else 0)
      (combine (repeat true (length ws)) ws) = ws.
Proof. induction ws as [|w ws IH]; simpl; congruence. Qed.

Lemma Qratio_hundred (x : Q) : ~ x == 0 -> (x / x) * 100 == 100.
Proof. intro H. field. exact H. Qed.

(** The engine on any report flagged saturated with more than 2 % weighted
    saturation. *)
Lemma saturated_report_delta st results :
  is_saturated results = Some true ->
  2 < get (weighted_saturation_percentage results) 0 ->
  let d := fst (calculate_current_adjustment st results "pixel_count") in
  d < 0 /\ -(1#2) <= d
  /\ (is_oscillating (push5 (last_mean_values st) 70)
                     (push5 (last_adjustment_values st) (-(5#10))) = false ->
      d == -(1#2)).
Proof.
  intros Hs Hw. cbv zeta.
  unfold calculate_current_adjustment, limited_adjustment, method_adjustment.
  change (String.eqb "pixel_count" "histogram") with false.
  change (String.eqb "pixel_count" "pixel_count") with true. cbv iota.
  unfold pixel_count_method. rewrite Hs.
  cbn [is_in get andb]. cbv iota zeta.
  apply Qltb_true in Hw. rewrite Hw.
  change (limit_adjustment (-(5))) with (-(5#10)).
  cbn [last_mean_values last_adjustment_values with_means with_adjustments].
  destruct (is_oscillating _ _); cbn [fst].
  - change (anti_oscillation 70 (-(5#10))) with (-(1#10)).
    repeat split; try reflexivity; try discriminate.
  - repeat split; try reflexivity; try discriminate.
Qed.

(** C6: on a uniform 8-bit image of 255s, with any weight mask of the same
    shape and positive total weight, the pixel-count estimator reports
    [is_saturated = True] and [saturated_percentage = 100]; on that report
    the engine returns a negative delta whose magnitude is clamped to 0.5:
    it lies in [-0.5, 0), and is exactly -0.5 unless the oscillation test
    fires, in particular from the fresh state. *)
Theorem C6_uniform_255_saturated_and_negative_delta :
  forall (rows : list (list Z)) (mask : WeightMask) (st : EngineState),
    all_pixels 255 rows ->
    same_shape rows mask = true ->
    0 < Qsum (flatten mask) ->
    exists rep,
      saturation_pixel_count_analyzer.analyze_saturation_by_pixel_count
        (mkImage uint8 rows)
        saturation_pixel_count_analyzer.default_saturation_threshold
        saturation_pixel_count_analyzer.default_max_weighted_saturation
        mask = Ok rep
      /\ saturation_pixel_count_analyzer.is_saturated rep = true
      /\ saturation_pixel_count_analyzer.saturated_percentage rep == 100
      /\ (let d := fst (calculate_current_adjustment
                          st (pixel_count_results rep) "pixel_count") in
          d < 0 /\ -(1#2) <= d
          /\ (is_oscillating (push5 (last_mean_values st) 70)
                (push5 (last_adjustment_values st) (-(5#10))) = false ->
              d == -(1#2)))
      /\ fst (calculate_current_adjustment
                fresh_state (pixel_count_results rep) "pixel_count")
         == -(1#2).
Proof.
  intros rows mask st Hall Hshape Hpos.
  unfold saturation_pixel_count_analyzer.analyze_saturation_by_pixel_count.
  cbn [img_rows img_dtype]. rewrite Hshape. cbn [negb]. cbv zeta.
  eexists. split; [reflexivity|].
  cbn [saturation_pixel_count_analyzer.is_saturated
       saturation_pixel_count_analyzer.saturated_percentage].
  change (int_of_Q
            (inject_Z (max_possible_value uint8)
             * saturation_pixel_count_analyzer.default_saturation_threshold))
    with 249%Z.
  assert (Hmask : map (fun v => (249 <? v)%Z) (flatten rows)
                  = repeat true (length (flatten mask))).
  { rewrite <- (same_shape_flat_length _ _ Hshape).
    apply mask_all_true. unfold all_pixels in Hall.
    eapply Forall_impl; [|exact Hall]. intros x Hx. cbv beta in Hx. subst x. reflexivity. }
  rewrite Hmask, weights_under_full_mask, count_all_true.
  unfold size. cbn [img_rows].
  rewrite (same_shape_flat_length _ _ Hshape).
  set (W := Qsum (flatten mask)) in *.
  assert (Hn : ~ inject_Z (Z.of_nat (length (flatten mask))) == 0).
  { pose proof (Qsum_pos_nonempty _ Hpos) as Hne.
    destruct (flatten mask) as [|w ws]; [congruence|].
    intro E. unfold Qeq in E. simpl in E. lia. }
  assert (HW : (W / W) * 100 == 100) by (apply Qratio_hundred; lra).
  assert (Hsat : Qltb saturation_pixel_count_analyzer.default_max_weighted_saturation W
                 || Qltb (5#10) ((W / W) * 100) = true).
  { apply orb_true_iff. right. apply Qltb_true. rewrite HW. reflexivity. }
  split; [exact Hsat|].
  split; [apply Qratio_hundred; exact Hn|].
  split.
  - apply saturated_report_delta.
    + cbn [pixel_count_results is_saturated
           saturation_pixel_count_analyzer.is_saturated].
      rewrite Hsat. reflexivity.
    + cbn [pixel_count_results weighted_saturation_percentage get
           saturation_pixel_count_analyzer.weighted_saturation_percentage].
      rewrite HW. reflexivity.
  - apply saturated_report_delta.
    + cbn [pixel_count_results is_saturated
           saturation_pixel_count_analyzer.is_saturated].
      rewrite Hsat. reflexivity.
    + cbn [pixel_count_results weighted_saturation_percentage get
           saturation_pixel_count_analyzer.weighted_saturation_percentage].
      rewrite HW. reflexivity.
    + reflexivity.
Qed.

End PixelCountClaims.

Section HistogramClaims.
Import QUtil Numpy histogram_saturation_analyzer Properties.
Local Open Scope Q_scope.

Lemma bin_index_id (v : Z) : (0 <= v <= 255)%Z -> bin_index v = v.
Proof.
  intros Hv. unfold bin_index.
  destruct (v =? 255)%Z eqn:E; [apply Z.eqb_eq in E; lia|].
  apply Z.eqb_neq in E.
  replace (v * 256)%Z with (v * 255 + v)%Z by lia.
  rewrite Z.div_add_l by lia. rewrite Z.div_small by lia. lia.
Qed.

Lemma hist_img_in_range (img : Image) :
  wf_image img = true ->
  Forall (fun v => (0 <= v <= 255)%Z) (hist_img img).
Proof.
  unfold wf_image, hist_img, flatten. intro H.
  assert (Hflat : Forall (fun v => in_dtype (img_dtype img) v = true)
                         (concat (img_rows img))).
  { apply Forall_concat. rewrite forallb_forall in H.
    apply Forall_forall. intros r Hr. apply Forall_forall.
    specialize (H r Hr). rewrite forallb_forall in H. exact H. }
  destruct (img_dtype img).
  - eapply Forall_impl; [|exact Hflat]. intros v Hv.
    unfold in_dtype in Hv. simpl in Hv. lia.
  - apply Forall_map. eapply Forall_impl; [|exact Hflat]. intros v Hv.
    unfold in_dtype in Hv. simpl in Hv.
    assert (0 <= v < 256 * 256)%Z by lia.
    split; [apply Z.div_pos; lia|].
    assert (v / 256 < 256)%Z by (apply Z.div_lt_upper_bound; lia). lia.
Qed.

Lemma Qsum_app (l1 l2 : list Q) : Qsum (l1 ++ l2) == Qsum l1 + Qsum l2.
Proof. induction l1 as [|x l1 IH]; simpl; [|rewrite IH]; ring. Qed.

Lemma Qsum_scale (f : nat -> Q) (c : Q) (ks : list nat) :
  Qsum (map (fun k => (f k / c) * 100) ks) == (Qsum (map f ks) / c) * 100.
Proof.
  induction ks as [|k ks IH]; simpl.
  - unfold Qdiv. ring.
  - rewrite IH. unfold Qdiv. ring.
Qed.

(** Summing an indicator of [v] over a run of consecutive bins. *)
Lemma Qsum_indicator (v : Z) (x : Q) (n m : nat) :
  Qsum (map (fun k => if (v =? Z.of_nat k)%Z then x else 0) (seq n m))
  == if ((Z.of_nat n <=? v) && (v <? Z.of_nat (n + m)))%Z then x else 0.
Proof.
  revert n. induction m as [|m IH]; intro n; simpl.
  - destruct (Z.of_nat n <=? v)%Z eqn:E1; destruct (v <? Z.of_nat (n + 0))%Z eqn:E2;
      simpl; try reflexivity.
    apply Z.leb_le in E1. apply Z.ltb_lt in E2. lia.
  - rewrite IH.
    destruct (v =? Z.of_nat n)%Z eqn:E0;
      destruct (Z.of_nat (S n) <=? v)%Z eqn:E1;
      destruct (v <? Z.of_nat (S n + m))%Z eqn:E2;
      destruct (Z.of_nat n <=? v)%Z eqn:E3;
      destruct (v <? Z.of_nat (n + S m))%Z eqn:E4;
      simpl; try ring;
      repeat match goal with
      | H : (_ =? _)%Z = true |- _ => apply Z.eqb_eq in H
      | H : (_ =? _)%Z = false |- _ => apply Z.eqb_neq in H
      | H : (_ <=? _)%Z = true |- _ => apply Z.leb_le in H
      | H : (_ <=? _)%Z = false |- _ => apply Z.leb_gt in H
      | H : (_ <? _)%Z = true |- _ => apply Z.ltb_lt in H
      | H : (_ <? _)%Z = false |- _ => apply Z.ltb_ge in H
      end; lia.
Qed.

Lemma Qsum_zeros {A : Type} (l : list A) : Qsum (map (fun _ => 0) l) == 0.
Proof. induction l as [|k l IH]; simpl; [reflexivity|]. rewrite IH. ring. Qed.

(** The bins from [n] on hold exactly the weight of the samples that are at
    least [n]. *)
Lemma bins_from (a : list Z) (w : list Q) (n m : nat) :
  Forall (fun v => (0 <= v <= 255)%Z) a ->
  (n + m = 256)%nat ->
  Qsum (map (fun k => bin_weight a w (Z.of_nat k)) (seq n m))
  == weight_where (fun v => (Z.of_nat n <=? v)%Z) a w.
Proof.
  intros Ha Hnm. unfold bin_weight, weight_where.
  revert w. induction Ha as [|v a Hv Ha IH]; intro w.
  - cbn [combine filter map Qsum]. apply Qsum_zeros.
  - destruct w as [|x w].
    + cbn [combine filter map Qsum]. apply Qsum_zeros.
    + cbn [combine filter fst snd].
      assert (Hr : in_hist_range v = true)
        by (unfold in_hist_range; lia).
      rewrite Hr, (bin_index_id v Hv). cbn [andb].
      transitivity
        (Qsum (map (fun k => if (v =? Z.of_nat k)%Z then x else 0) (seq n m))
         + Qsum (map (fun k =>
                   Qsum (map snd
                     (filter (fun p => in_hist_range (fst p)
                                       && (bin_index (fst p) =? Z.of_nat k)%Z)
                             (combine a w)))) (seq n m))).
      * clear. induction (seq n m) as [|k ks IHk]; simpl; [ring|].
        rewrite IHk. destruct (v =? Z.of_nat k)%Z; simpl; ring.
      * rewrite IH, Qsum_indicator.
        replace (v <? Z.of_nat (n + m))%Z with true
          by (symmetry; apply Z.ltb_lt; lia).
        rewrite andb_true_r.
        destruct (Z.of_nat n <=? v)%Z; simpl; ring.
Qed.

Lemma top_bin (a : list Z) (w : list Q) :
  Forall (fun v => (0 <= v <= 255)%Z) a ->
  bin_weight a w 255 = weight_where (fun v => (v =? 255)%Z) a w.
Proof.
  intro Ha. unfold bin_weight, weight_where. f_equal. f_equal.
  revert w. induction Ha as [|v a Hv Ha IH]; intro w; [reflexivity|].
  destruct w as [|x w]; [reflexivity|].
  cbn [combine filter fst].
  assert (Hr : in_hist_range v = true) by (unfold in_hist_range; lia).
  rewrite Hr, (bin_index_id v Hv), IH. reflexivity.
Qed.

Lemma last_map_seq {A : Type} (f : nat -> A) (n : nat) (d : A) :
  last (map f (seq 0 (S n))) d = f n.
Proof.
  rewrite seq_S, map_app. simpl. apply last_last.
Qed.

Lemma int_of_Q_nonneg (q : Q) : 0 <= q -> (0 <= int_of_Q q)%Z.
Proof.
  intro H. unfold int_of_Q. apply Z.quot_pos; [|lia].
  unfold Qle in H. simpl in H. lia.
Qed.

Lemma high_threshold_8bit_nonneg (img : Image) (hi : Q) :
  0 <= hi -> (0 <= high_threshold_8bit img hi)%Z.
Proof.
  intro H. unfold high_threshold_8bit.
  destruct (img_dtype img); apply int_of_Q_nonneg.
  - change (inject_Z (max_possible_value uint8)) with 255.
    apply Qmult_le_0_compat; [discriminate|exact H].
  - apply Qmult_le_0_compat; [discriminate|exact H].
Qed.


Lemma np_average_ok (values weights : list Q) :
  ~ Qsum weights == 0 ->
  exists m, np_average values weights = Ok m.
Proof.
  intro H. unfold np_average.
  destruct (Qeq_bool (Qsum weights) 0) eqn:E.
  - apply Qeq_bool_iff in E. contradiction.
  - eexists. reflexivity.
Qed.


Lemma weight_where_above (t : Z) (a : list Z) (w : list Q) :
  Forall (fun v => (0 <= v <= 255)%Z) a ->
  (256 <= t)%Z ->
  weight_where (fun v => (t <=? v)%Z) a w = 0.
Proof.
  intros Ha Ht. unfold weight_where.
  replace (filter (fun p : Z * Q => (t <=? fst p)%Z) (combine a w))
    with (@nil (Z * Q)); [reflexivity|].
  symmetry. revert w.
  induction Ha as [|v a Hv _ IH]; intro w; [reflexivity|].
  destruct w as [|x w]; [reflexivity|].
  cbn [combine filter fst].
  replace (t <=? v)%Z with false by (symmetry; apply Z.leb_gt; lia).
  apply IH.
Qed.

(** What the estimator reports when it gets as far as a report. *)
Lemma histogram_report_verdict img hi crit mask rep :
  analyze_saturation_by_histogram img hi crit mask = Ok rep ->
  is_saturated rep
  = Qltb crit (last (map (fun h => (h / Qsum (flatten mask)) * 100)
                         (np_histogram (hist_img img) (flatten mask))) 0)
    || Qltb 10 (Qsum (slice_from (high_threshold_8bit img hi)
                        (map (fun h => (h / Qsum (flatten mask)) * 100)
                             (np_histogram (hist_img img) (flatten mask))))).
Proof.
  unfold analyze_saturation_by_histogram. cbv zeta.
  destruct (negb (same_shape (img_rows img) mask)); [discriminate|].
  destruct (np_average _ _) as [m|]; [|discriminate]. cbn [bind].
  destruct (np_average _ _) as [v|]; [|discriminate]. cbn [bind].
  intro H. injection H as <-. reflexivity.
Qed.

Lemma histogram_report_threshold img hi crit mask rep :
  analyze_saturation_by_histogram img hi crit mask = Ok rep ->
  high_threshold_value rep
  = int_of_Q (inject_Z (max_possible_value (img_dtype img)) * hi).
Proof.
  unfold analyze_saturation_by_histogram. cbv zeta.
  destruct (negb (same_shape (img_rows img) mask)); [discriminate|].
  destruct (np_average _ _) as [m|]; [|discriminate]. cbn [bind].
  destruct (np_average _ _) as [v|]; [|discriminate]. cbn [bind].
  intro H. injection H as <-. reflexivity.
Qed.

Lemma weight_where_map (f : Z -> Z) (P : Z -> bool) (a : list Z)
    (w : list Q) :
  weight_where P (map f a) w = weight_where (fun v => P (f v)) a w.
Proof.
  unfold weight_where. revert w.
  induction a as [|v a IH]; intro w; [reflexivity|].
  destruct w as [|x w]; [reflexivity|].
  cbn [map combine filter fst].
  destruct (P (f v)); cbn [map Qsum snd]; rewrite IH; reflexivity.
Qed.

Lemma weight_where_ext (P P' : Z -> bool) (a : list Z) (w : list Q) :
  Forall (fun v => P v = P' v) a ->
  weight_where P a w = weight_where P' a w.
Proof.
  unfold weight_where. intro H. revert w.
  induction H as [|v a Hv _ IH]; intro w; [reflexivity|].
  destruct w as [|x w]; [reflexivity|].
  cbn [combine filter fst]. rewrite Hv.
  destruct (P' v); cbn [map Qsum snd]; rewrite IH; reflexivity.
Qed.

Lemma samples_in_dtype (img : Image) :
  wf_image img = true ->
  Forall (fun v => (0 <= v <= max_possible_value (img_dtype img))%Z)
         (flatten (img_rows img)).
Proof.
  unfold wf_image, flatten. intro H.
  apply Forall_concat. rewrite forallb_forall in H.
  apply Forall_forall. intros r Hr. apply Forall_forall. intros v Hv.
  specialize (H r Hr). rewrite forallb_forall in H. specialize (H v Hv).
  unfold in_dtype in H. lia.
Qed.

(** The 8-bit samples of the estimator against the raw samples: the top
    bin and the bins from the threshold on hold the weight of the raw
    samples named by [in_top_bin] and [verdict_threshold]. *)
Lemma histogram_samples_raw (img : Image) (hi : Q) (w : list Q) :
  wf_image img = true ->
  weight_where (fun v => (v =? 255)%Z) (hist_img img) w
  = weight_where (in_top_bin (img_dtype img)) (flatten (img_rows img)) w
  /\ weight_where (fun v => (high_threshold_8bit img hi <=? v)%Z)
                  (hist_img img) w
     = weight_where (fun v => (verdict_threshold (img_dtype img) hi <=? v)%Z)
                    (flatten (img_rows img)) w.
Proof.
  intro Hwf. pose proof (samples_in_dtype img Hwf) as Hr.
  unfold hist_img, high_threshold_8bit, in_top_bin, verdict_threshold.
  destruct (img_dtype img).
  - split; reflexivity.
  - rewrite !weight_where_map. split; apply weight_where_ext.
    + eapply Forall_impl; [|exact Hr]. cbv beta. intros v Hv.
      cbn [max_possible_value] in Hv.
      destruct (v / 256 =? 255)%Z eqn:E1, (65280 <=? v)%Z eqn:E2;
        try reflexivity; exfalso.
      * apply Z.eqb_eq in E1. apply Z.leb_gt in E2. Z.div_mod_to_equations. lia.
      * apply Z.eqb_neq in E1. apply Z.leb_le in E2. Z.div_mod_to_equations. lia.
    + eapply Forall_impl; [|exact Hr]. cbv beta. intros v Hv.
      set (t := int_of_Q (255 * hi)).
      destruct (t <=? v / 256)%Z eqn:E1, (256 * t <=? v)%Z eqn:E2;
        try reflexivity; exfalso.
      * apply Z.leb_le in E1. apply Z.leb_gt in E2. Z.div_mod_to_equations. lia.
      * apply Z.leb_gt in E1. apply Z.leb_le in E2. Z.div_mod_to_equations. lia.
Qed.

(** C4, as stated, fails on 16-bit data: the verdict is taken on samples
    divided by 256, against 229 for the default fraction, while the
    threshold the report publishes is 58981.  A pixel of 58700 lies below
    the published threshold and outside the top bin, and the report is
    flagged all the same. *)
Lemma C4_16bit_flagged_below_published_threshold :
  exists rep,
    analyze_saturation_by_histogram bright_16bit_image
      default_high_intensity_threshold default_critical_bin_threshold
      one_weight = Ok rep
    /\ is_saturated rep = true
    /\ high_threshold_value rep = 58981%Z
    /\ ~ (default_critical_bin_threshold
          < raw_mass_percentage (in_top_bin uint16)
              bright_16bit_image one_weight
          \/ 10 < raw_mass_percentage
                    (fun v => (high_threshold_value rep <=? v)%Z)
                    bright_16bit_image one_weight).
Proof.
  assert (H : exists rep,
             analyze_saturation_by_histogram bright_16bit_image
               default_high_intensity_threshold
               default_critical_bin_threshold one_weight = Ok rep
             /\ is_saturated rep = true
             /\ high_threshold_value rep = 58981%Z).
  { vm_compute. eexists. split; [reflexivity|]. split; reflexivity. }
  destruct H as (rep & Hrep & Hsat & Hthr).
  exists rep. split; [exact Hrep|]. split; [exact Hsat|].
  split; [exact Hthr|]. rewrite Hthr.
  intros [H|H]; vm_compute in H; discriminate H.
Qed.

(** C4, amended: on a well-formed image and a weight mask of its shape whose
    total weight is not zero, the histogram estimator returns a report, and
    it reports [is_saturated = True] exactly when the weighted percentage
    of the mass of the pixels in the top bin exceeds
    [critical_bin_threshold] or the weighted percentage of the mass of the
    pixels at or above the verdict threshold exceeds 10.  Both are told
    here from the raw samples.  On 8-bit data the verdict threshold is the
    published [high_threshold_value]; on 16-bit data it is 256 times the
    fraction of 255, and the top bin starts at 65280. *)
Theorem C4_histogram_saturation_verdict :
  forall (img : Image) (hi crit : Q) (mask : WeightMask),
    wf_image img = true ->
    same_shape (img_rows img) mask = true ->
    ~ Qsum (flatten mask) == 0 ->
    0 <= hi ->
    exists rep,
      analyze_saturation_by_histogram img hi crit mask = Ok rep
      /\ (is_saturated rep = true <->
          crit < raw_mass_percentage (in_top_bin (img_dtype img)) img mask
          \/ 10 < raw_mass_percentage
                    (fun v => (verdict_threshold (img_dtype img) hi <=? v)%Z)
                    img mask)
      /\ high_threshold_value rep
         = int_of_Q (inject_Z (max_possible_value (img_dtype img)) * hi)
      /\ (img_dtype img = uint8 ->
          verdict_threshold (img_dtype img) hi = high_threshold_value rep).
Proof.
  intros img hi crit mask Hwf Hshape Htot Hhi.
  assert (Hex : exists rep,
             analyze_saturation_by_histogram img hi crit mask = Ok rep).
  { unfold analyze_saturation_by_histogram. cbv zeta.
    rewrite Hshape. cbn [negb].
    destruct (np_average_ok (map inject_Z (flatten (img_rows img)))
                            (flatten mask) Htot) as [m Hm].
    rewrite Hm. cbn [bind].
    destruct (np_average_ok
                (map (fun v => (v - m) * (v - m))
                     (map inject_Z (flatten (img_rows img))))
                (flatten mask) Htot) as [v Hv].
    rewrite Hv. cbn [bind]. eexists. reflexivity. }
  destruct Hex as [rep Hrep]. exists rep. split; [exact Hrep|].
  pose proof (histogram_report_threshold _ _ _ _ _ Hrep) as Hpub.
  split; [|split; [exact Hpub|]].
  2:{ intro E. rewrite Hpub, E. reflexivity. }
  rewrite (histogram_report_verdict _ _ _ _ _ Hrep).
  pose proof (hist_img_in_range img Hwf) as Hrange.
  pose proof (high_threshold_8bit_nonneg img hi Hhi) as Hthr.
  destruct (histogram_samples_raw img hi (flatten mask) Hwf) as [Rtop Rhigh].
  unfold raw_mass_percentage. rewrite <- Rtop, <- Rhigh.
  set (a := hist_img img) in *. set (w := flatten mask) in *.
  set (t := high_threshold_8bit img hi) in *.
  assert (Htop : last (map (fun h => (h / Qsum w) * 100) (np_histogram a w)) 0
                 = (weight_where (fun v => (v =? 255)%Z) a w / Qsum w) * 100).
  { unfold np_histogram. rewrite map_map.
    rewrite (last_map_seq (fun k => (bin_weight a w (Z.of_nat k) / Qsum w) * 100) 255).
    change (Z.of_nat 255) with 255%Z.
    rewrite (top_bin a w Hrange). reflexivity. }
  assert (Hhigh : Qsum (slice_from t
                          (map (fun h => (h / Qsum w) * 100) (np_histogram a w)))
                  == (weight_where (fun v => (t <=? v)%Z) a w / Qsum w) * 100).
  { unfold slice_from.
    replace (t <? 0)%Z with false by (symmetry; apply Z.ltb_ge; exact Hthr).
    unfold np_histogram. rewrite map_map, skipn_map, skipn_seq.
    rewrite Qsum_scale.
    destruct (Z_lt_le_dec t 256) as [Hlt|Hge].
    - rewrite (bins_from a w (0 + Z.to_nat t) (256 - Z.to_nat t) Hrange)
        by lia.
      replace (Z.of_nat (0 + Z.to_nat t)) with t by lia. reflexivity.
    - replace (256 - Z.to_nat t)%nat with 0%nat by lia.
      cbn [seq map Qsum].
      pose proof (weight_where_above t a w Hrange Hge) as E.
      rewrite E. reflexivity. }
  rewrite Htop, orb_true_iff, !Qltb_true, Hhigh. reflexivity.
Qed.




End HistogramClaims.

(** * Properties of the weight field builders *)

Section WeightFieldFacts.
Import RUtil Properties.
Local Open Scope R_scope.

Lemma grid_nth {A : Type} (h w : nat) (f : nat -> nat -> A) (y x : nat)
    (d : A) :
  (y < h)%nat -> (x < w)%nat -> nth x (nth y (grid h w f) []) d = f y x.
Proof.
  intros Hy Hx. unfold grid.
  rewrite (nth_indep _ [] (map (fun x0 => f 0%nat x0) (seq 0 w)))
    by (rewrite length_map, length_seq; exact Hy).
  rewrite (map_nth (fun y0 => map (fun x0 => f y0 x0) (seq 0 w)) (seq 0 h) 0%nat y).
  rewrite seq_nth by exact Hy.
  rewrite (nth_indep _ d (f (0 + y)%nat 0%nat))
    by (rewrite length_map, length_seq; exact Hx).
  rewrite (map_nth (fun x0 => f (0 + y)%nat x0) (seq 0 w) 0%nat x).
  rewrite seq_nth by exact Hx. reflexivity.
Qed.

Lemma in_grid {A : Type} (h w : nat) (f : nat -> nat -> A) (v : A) :
  In v (concat (grid h w f)) <->
  exists y x, (y < h)%nat /\ (x < w)%nat /\ v = f y x.
Proof.
  unfold grid. rewrite in_concat. split.
  - intros (row & Hrow & Hv).
    apply in_map_iff in Hrow. destruct Hrow as (y & <- & Hy).
    apply in_map_iff in Hv. destruct Hv as (x & <- & Hx).
    apply in_seq in Hy, Hx. exists y, x. repeat split; lia.
  - intros (y & x & Hy & Hx & ->).
    exists (map (fun x0 => f y x0) (seq 0 w)). split.
    + apply in_map_iff. exists y. split; [reflexivity|apply in_seq; lia].
    + apply in_map_iff. exists x. split; [reflexivity|apply in_seq; lia].
Qed.

Lemma fold_left_Rmax_spec (l : list R) (a : R) :
  (fold_left Rmax l a = a \/ In (fold_left Rmax l a) l)
  /\ a <= fold_left Rmax l a
  /\ (forall v, In v l -> v <= fold_left Rmax l a).
Proof.
  revert a. induction l as [|x l IH]; intro a; simpl.
  - split; [left; reflexivity|]. split; [lra|]. intros v [].
  - destruct (IH (Rmax a x)) as (H1 & H2 & H3).
    pose proof (Rmax_l a x). pose proof (Rmax_r a x).
    split; [|split].
    + destruct H1 as [H1|H1]; [|right; right; exact H1].
      rewrite H1. unfold Rmax. destruct (Rle_dec a x); [right|]; auto.
    + lra.
    + intros v [<-|Hv]; [lra|apply H3; exact Hv].
Qed.

Lemma list_max_spec (l : list R) (m : R) :
  list_max l = Ok m -> In m l /\ (forall v, In v l -> v <= m).
Proof.
  destruct l as [|x l]; simpl; [discriminate|].
  intro H. injection H as <-.
  destruct (fold_left_Rmax_spec l x) as (H1 & H2 & H3).
  split.
  - destruct H1 as [H1|H1]; [left; symmetry; exact H1|right; exact H1].
  - intros v [<-|Hv]; [exact H2|apply H3; exact Hv].
Qed.

Lemma list_max_intro (l : list R) (m : R) :
  In m l -> (forall v, In v l -> v <= m) -> list_max l = Ok m.
Proof.
  intros Hin Hle.
  destruct (list_max l) as [m'|e] eqn:E.
  - destruct (list_max_spec l m' E) as [Hin' Hle'].
    f_equal. apply Rle_antisym; auto.
  - destruct l; [contradiction|discriminate].
Qed.

Lemma list_max_nonempty (l : list R) :
  l <> [] -> exists m, list_max l = Ok m.
Proof.
  destruct l as [|x l]; [congruence|]. intros _. eexists. reflexivity.
Qed.

Lemma squared_dist_nonneg (center : R * R) (y x : nat) :
  0 <= updated_widget.squared_dist center y x.
Proof.
  unfold updated_widget.squared_dist.
  pose proof (pow2_ge_0 (INR y - fst center)).
  pose proof (pow2_ge_0 (INR x - snd center)). lra.
Qed.

Lemma distance_sqr (center : R * R) (y x : nat) :
  distance center y x ^ 2 = updated_widget.squared_dist center y x.
Proof.
  unfold distance. apply pow2_sqrt. apply squared_dist_nonneg.
Qed.

Lemma pow2_pos (s : R) : s <> 0 -> 0 < s ^ 2.
Proof.
  intro H. pose proof (Rsqr_pos_lt s H) as Hs. unfold Rsqr in Hs.
  simpl. lra.
Qed.

Lemma exp_le_1 (t : R) : t <= 0 -> exp t <= 1.
Proof.
  intro H. rewrite <- exp_0.
  destruct H as [H|H]; [left; apply exp_increasing; exact H|right; f_equal; exact H].
Qed.

Lemma exp_neq_1 (t : R) : t <> 0 -> exp t <> 1.
Proof.
  intros H E. apply H. apply exp_inv. rewrite exp_0. exact E.
Qed.

End WeightFieldFacts.

Section WeightFieldClaims.
Import RUtil Properties.
Local Open Scope R_scope.

(** Every value of the widget's mask is positive and at most one. *)
Lemma widget_mask_values shape center sigma flat_top_radius v :
  widget_sigma shape sigma <> 0 ->
  In v (concat (updated_widget.create_radial_weight_mask
                  shape center sigma flat_top_radius)) ->
  0 < v <= 1.
Proof.
  intros Hs.
  unfold updated_widget.create_radial_weight_mask.
  fold (widget_center shape center). fold (widget_sigma shape sigma).
  set (c := widget_center shape center). set (s := widget_sigma shape sigma) in *.
  assert (Hden : 0 < 2 * s ^ 2).
  { assert (0 < s ^ 2) by (apply pow2_pos; exact Hs). lra. }
  assert (Hg : forall y x,
             0 < exp (- updated_widget.squared_dist c y x / (2 * s ^ 2)) <= 1).
  { intros y x. split; [apply exp_pos|]. apply exp_le_1.
    pose proof (squared_dist_nonneg c y x) as Hd.
    apply Rmult_le_reg_r with (2 * s ^ 2); [exact Hden|].
    unfold Rdiv. rewrite Rmult_assoc, Rinv_l, Rmult_1_r, Rmult_0_l by lra.
    lra. }
  assert (Hplain : In v (concat (grid (fst shape) (snd shape) (fun y x =>
                      exp (- updated_widget.squared_dist c y x / (2 * s ^ 2)))))
                   -> 0 < v <= 1).
  { intro H. apply in_grid in H. destruct H as (y & x & _ & _ & ->). apply Hg. }
  destruct flat_top_radius as [r|]; [|exact Hplain].
  destruct (Rlt_dec 0 r) as [Hr|_]; [|exact Hplain].
  intro H. apply in_grid in H. destruct H as (y & x & _ & _ & ->).
  destruct (Rle_dec (updated_widget.squared_dist c y x) (r ^ 2)) as [Hin|Hout].
  - lra.
  - split; [apply exp_pos|]. apply exp_le_1.
    apply Rmult_le_reg_r with (2 * s ^ 2); [exact Hden|].
    unfold Rdiv. rewrite Rmult_assoc, Rinv_l, Rmult_1_r, Rmult_0_l by lra.
    lra.
Qed.

(** The widget's mask takes the value one at a pixel that is its centre. *)
Lemma widget_mask_centre shape center sigma flat_top_radius (cy cx : nat) :
  (cy < fst shape)%nat -> (cx < snd shape)%nat ->
  widget_center shape center = (INR cy, INR cx) ->
  In 1 (concat (updated_widget.create_radial_weight_mask
                  shape center sigma flat_top_radius)).
Proof.
  intros Hy Hx Hc.
  unfold updated_widget.create_radial_weight_mask.
  fold (widget_center shape center). rewrite Hc.
  assert (Hd : updated_widget.squared_dist (INR cy, INR cx) cy cx = 0).
  { unfold updated_widget.squared_dist. simpl. ring. }
  assert (Hplain : In 1 (concat (grid (fst shape) (snd shape) (fun y x =>
             exp (- updated_widget.squared_dist (INR cy, INR cx) y x
                  / (2 * match sigma with
                         | Some s => s
                         | None => INR (Nat.min (fst shape) (snd shape) / 2)
                         end ^ 2)))))).
  { apply in_grid. exists cy, cx. repeat split; try assumption.
    rewrite Hd. unfold Rdiv. rewrite Ropp_0, Rmult_0_l, exp_0. reflexivity. }
  destruct flat_top_radius as [r|]; [|exact Hplain].
  destruct (Rlt_dec 0 r) as [Hr|_]; [|exact Hplain].
  apply in_grid. exists cy, cx. repeat split; try assumption.
  rewrite Hd. destruct (Rle_dec 0 (r ^ 2)) as [_|Hn]; [reflexivity|].
  exfalso. apply Hn. apply pow2_ge_0.
Qed.

(** C7, as stated, fails for the flat-top variant: it does not divide by its
    maximum, and with a centre outside the grid the maximum stays below
    one.  Here a 1x1 field with centre (0, 1) and sigma 1. *)
Lemma C7_widget_mask_maximum_below_one :
  updated_widget.create_radial_weight_mask (1%nat, 1%nat) (Some (0, 1)) (Some 1) None
  = [[exp (- (1 / 2))]]
  /\ list_max (concat (updated_widget.create_radial_weight_mask
                         (1%nat, 1%nat) (Some (0, 1)) (Some 1) None))
     <> Ok 1.
Proof.
  assert (E : updated_widget.create_radial_weight_mask
                (1%nat, 1%nat) (Some (0, 1)) (Some 1) None
              = [[exp (- (1 / 2))]]).
  { unfold updated_widget.create_radial_weight_mask, grid,
      updated_widget.squared_dist. simpl.
    do 3 f_equal. field. }
  split; [exact E|]. rewrite E. simpl.
  intro H. injection H as H. revert H. apply exp_neq_1. lra.
Qed.

(** C7, amended: as long as the Gaussian exponents stay within the range in
    which the exponential of a double does not underflow, the analyzer
    variant divides by its maximum, so its values lie in (0, 1] and its
    maximum is exactly one; the flat-top variant of the widget is not
    normalised: its values lie in (0, 1], and its maximum is exactly one
    whenever its centre is a pixel of the grid, as the default centre
    is. *)
Theorem C7_weight_fields_within_unit_interval :
  forall (h w : nat) (center : option (R * R)) (sigma : option R)
         (flat_top_radius : option R),
    (0 < h)%nat -> (0 < w)%nat ->
    analyzer_sigma (h, w) sigma <> 0 ->
    widget_sigma (h, w) sigma <> 0 ->
    within_exponent_range (h, w) (analyzer_exponent (h, w) center sigma) ->
    within_exponent_range (h, w) (widget_exponent (h, w) center sigma) ->
    (exists mask,
        histogram_saturation_analyzer.create_radial_weight_mask
          (h, w) center sigma = Ok mask
        /\ (forall v, In v (concat mask) -> 0 < v <= 1)
        /\ list_max (concat mask) = Ok 1)
    /\ (forall v,
          In v (concat (updated_widget.create_radial_weight_mask
                          (h, w) center sigma flat_top_radius)) ->
          0 < v <= 1)
    /\ (forall cy cx : nat,
          (cy < h)%nat -> (cx < w)%nat ->
          widget_center (h, w) center = (INR cy, INR cx) ->
          list_max (concat (updated_widget.create_radial_weight_mask
                              (h, w) center sigma flat_top_radius)) = Ok 1)
    /\ list_max (concat (updated_widget.create_radial_weight_mask
                           (h, w) None sigma flat_top_radius)) = Ok 1.
Proof.
  intros h w center sigma flat_top_radius Hh Hw Hsa Hsw _ _.
  assert (Hcentre : forall c (cy cx : nat),
             (cy < h)%nat -> (cx < w)%nat ->
             widget_center (h, w) c = (INR cy, INR cx) ->
             list_max (concat (updated_widget.create_radial_weight_mask
                                 (h, w) c sigma flat_top_radius)) = Ok 1).
  { intros c cy cx Hy Hx Hc. apply list_max_intro.
    - apply (widget_mask_centre (h, w) c sigma flat_top_radius cy cx);
        assumption.
    - intros v Hv.
      apply (widget_mask_values (h, w) c sigma flat_top_radius v Hsw Hv). }
  split; [|split; [|split]].
  - unfold histogram_saturation_analyzer.create_radial_weight_mask.
    set (g := fun y x : nat => exp _).
    set (sq := map (map (fun v => v ^ 2)) (grid h w g)).
    assert (Hsq : forall v, In v (concat sq) -> 0 < v).
    { intros v Hv. unfold sq in Hv. rewrite <- concat_map in Hv.
      apply in_map_iff in Hv. destruct Hv as (u & <- & Hin).
      apply in_grid in Hin. destruct Hin as (y & x & _ & _ & ->).
      apply pow_lt. apply exp_pos. }
    assert (Hne : concat sq <> []).
    { intro E.
      assert (Hin : In (g 0%nat 0%nat ^ 2) (concat sq)).
      { unfold sq. rewrite <- concat_map.
        apply (in_map (fun v => v ^ 2)).
        apply in_grid. exists 0%nat, 0%nat. repeat split; assumption. }
      rewrite E in Hin. contradiction. }
    destruct (list_max_nonempty _ Hne) as [m Hm].
    rewrite Hm. cbn [bind].
    destruct (list_max_spec _ _ Hm) as [Hmin Hmax].
    pose proof (Hsq m Hmin) as Hmpos.
    eexists. split; [reflexivity|].
    assert (Hflat : concat (map (map (fun v => v / m)) sq)
                    = map (fun v => v / m) (concat sq))
      by (rewrite <- concat_map; reflexivity).
    rewrite Hflat.
    assert (Hval : forall v, In v (map (fun v => v / m) (concat sq)) ->
                             0 < v <= 1).
    { intros v Hv. apply in_map_iff in Hv. destruct Hv as (u & <- & Hu).
      pose proof (Hsq u Hu). pose proof (Hmax u Hu).
      split.
      - apply Rdiv_lt_0_compat; assumption.
      - apply Rmult_le_reg_r with m; [exact Hmpos|].
        unfold Rdiv. rewrite Rmult_assoc, Rinv_l, Rmult_1_r, Rmult_1_l by lra.
        assumption. }
    split; [exact Hval|].
    apply list_max_intro.
    + apply in_map_iff. exists m. split; [|exact Hmin]. field. lra.
    + intros v Hv. apply Hval. exact Hv.
  - intros v Hv.
    apply (widget_mask_values (h, w) center sigma flat_top_radius v Hsw Hv).
  - intros cy cx. apply Hcentre.
  - apply (Hcentre None (h / 2)%nat (w / 2)%nat).
    + apply Nat.div_lt; lia.
    + apply Nat.div_lt; lia.
    + reflexivity.
Qed.

End WeightFieldClaims.

Section FlatTopClaims.
Import RUtil Properties.
Local Open Scope R_scope.

Lemma widget_weight_at h w center sigma flat_top_radius y x :
  (y < h)%nat -> (x < w)%nat ->
  weight_at (updated_widget.create_radial_weight_mask
               (h, w) (Some center) (Some sigma) flat_top_radius) y x
  = match flat_top_radius with
    | Some r =>
        if Rlt_dec 0 r then
          if Rle_dec (updated_widget.squared_dist center y x) (r ^ 2) then 1
          else exp (- (updated_widget.squared_dist center y x - r ^ 2)
                    / (2 * sigma ^ 2))
        else exp (- updated_widget.squared_dist center y x / (2 * sigma ^ 2))
    | None => exp (- updated_widget.squared_dist center y x / (2 * sigma ^ 2))
    end.
Proof.
  intros Hy Hx.
  unfold weight_at, updated_widget.create_radial_weight_mask. cbn [fst snd].
  destruct flat_top_radius as [r|].
  - destruct (Rlt_dec 0 r); rewrite grid_nth by assumption; reflexivity.
  - rewrite grid_nth by assumption. reflexivity.
Qed.

Lemma gaussian_exponent (d2 d sigma : R) :
  sigma <> 0 -> d ^ 2 = d2 ->
  - d2 / (2 * sigma ^ 2) = - 0.5 * (d / sigma) ^ 2.
Proof.
  intros Hs <-. replace (- 0.5) with (- (1 / 2)) by lra. field. exact Hs.
Qed.

(** C8, as stated, fails outside the flat top: at distance 2 from the
    centre, with flat-top radius 1 and sigma 1, the builder gives
    [exp(-(4 - 1) / 2)] where the claim prescribes [exp(-0.5 * (2 - 1)^2)]. *)
Lemma C8_outer_weight_differs_from_prescribed :
  weight_at (updated_widget.create_radial_weight_mask
               (1%nat, 3%nat) (Some (0, 0)) (Some 1) (Some 1)) 0 2
  = exp (- (3 / 2))
  /\ prescribed_weight (0, 0) 1 (Some 1) 0 2 = exp (- (1 / 2))
  /\ weight_at (updated_widget.create_radial_weight_mask
                  (1%nat, 3%nat) (Some (0, 0)) (Some 1) (Some 1)) 0 2
     <> prescribed_weight (0, 0) 1 (Some 1) 0 2.
Proof.
  assert (Hd : updated_widget.squared_dist (0, 0) 0 2 = 4).
  { unfold updated_widget.squared_dist. simpl. ring. }
  assert (E1 : weight_at (updated_widget.create_radial_weight_mask
               (1%nat, 3%nat) (Some (0, 0)) (Some 1) (Some 1)) 0 2
               = exp (- (3 / 2))).
  { rewrite widget_weight_at by lia. rewrite Hd.
    destruct (Rlt_dec 0 1) as [_|H]; [|exfalso; lra].
    destruct (Rle_dec 4 (1 ^ 2)) as [H|_]; [exfalso; lra|].
    f_equal. field. }
  assert (E2 : prescribed_weight (0, 0) 1 (Some 1) 0 2 = exp (- (1 / 2))).
  { unfold prescribed_weight, distance. rewrite Hd.
    replace 4 with (2 * 2) by ring. rewrite sqrt_square by lra.
    destruct (Rle_dec 2 1) as [H|_]; [exfalso; lra|].
    f_equal. replace (- 0.5) with (- (1 / 2)) by lra. field. }
  split; [exact E1|]. split; [exact E2|].
  rewrite E1, E2. intro H. apply exp_inv in H. lra.
Qed.

(** C8, amended: with a positive flat-top radius [r], a pixel at distance
    [d <= r] from the centre has weight 1 and a pixel farther away has
    weight [exp(-0.5 * (d^2 - r^2) / sigma^2)]: the Gaussian is shifted in
    the squared distance.  Without a flat-top radius, or with one that is
    not positive, the weight is [exp(-0.5 * (d / sigma)^2)]. *)
Theorem C8_flat_top_weight_formula :
  forall (h w : nat) (center : R * R) (sigma r : R) (y x : nat),
    (y < h)%nat -> (x < w)%nat -> sigma <> 0 ->
    let d := distance center y x in
    let field frad :=
      weight_at (updated_widget.create_radial_weight_mask
                   (h, w) (Some center) (Some sigma) frad) y x in
    (0 < r -> d <= r -> field (Some r) = 1)
    /\ (0 < r -> r < d ->
        field (Some r) = exp (- 0.5 * ((d ^ 2 - r ^ 2) / sigma ^ 2)))
    /\ (r <= 0 -> field (Some r) = exp (- 0.5 * (d / sigma) ^ 2))
    /\ field None = exp (- 0.5 * (d / sigma) ^ 2).
Proof.
  intros h w center sigma r y x Hy Hx Hs d field.
  pose proof (distance_sqr center y x) as Hd. fold d in Hd.
  assert (Hd0 : 0 <= d) by (apply sqrt_pos).
  unfold field. rewrite !widget_weight_at by assumption.
  split; [|split; [|split]].
  - intros Hr Hle. destruct (Rlt_dec 0 r) as [_|H]; [|contradiction].
    destruct (Rle_dec _ _) as [_|H]; [reflexivity|].
    exfalso. apply H. rewrite <- Hd. simpl. nra.
  - intros Hr Hlt. destruct (Rlt_dec 0 r) as [_|H]; [|contradiction].
    destruct (Rle_dec _ _) as [H|_].
    + exfalso. rewrite <- Hd in H. simpl in H. nra.
    + rewrite <- Hd. f_equal.
      replace (- 0.5) with (- (1 / 2)) by lra. field. exact Hs.
  - intros Hr. destruct (Rlt_dec 0 r) as [H|_]; [exfalso; lra|].
    f_equal. apply gaussian_exponent; assumption.
  - f_equal. apply gaussian_exponent; assumption.
Qed.

(** C9: a weight field built with [flat_top_radius = 0] is the field built
    without a flat-top radius, whatever the shape, centre and sigma, and
    (for a sigma that is not zero) it is the plain Gaussian
    [exp(-0.5 * (d / sigma)^2)] at every pixel. *)
Theorem C9_zero_flat_top_is_plain_gaussian :
  forall (shape : nat * nat) (center : R * R) (sigma : R),
    sigma <> 0 ->
    (forall c s,
        updated_widget.create_radial_weight_mask shape c s (Some 0)
        = updated_widget.create_radial_weight_mask shape c s None)
    /\ updated_widget.create_radial_weight_mask
         shape (Some center) (Some sigma) (Some 0)
       = plain_gaussian shape center sigma.
Proof.
  intros shape center sigma Hs.
  assert (H0 : forall c s,
             updated_widget.create_radial_weight_mask shape c s (Some 0)
             = updated_widget.create_radial_weight_mask shape c s None).
  { intros c s. unfold updated_widget.create_radial_weight_mask.
    destruct (Rlt_dec 0 0) as [H|_]; [exfalso; lra|reflexivity]. }
  split; [exact H0|]. rewrite H0.
  unfold updated_widget.create_radial_weight_mask, plain_gaussian, grid.
  apply map_ext. intro y. apply map_ext. intro x.
  f_equal. apply gaussian_exponent; [exact Hs|apply distance_sqr].
Qed.

End FlatTopClaims.

(** * Properties of the contrast estimator *)

Section ContrastFacts.
Import RUtil Numpy contrast_analyzer Properties.
Local Open Scope R_scope.

Lemma checked_div_ok (a b : R) : b <> 0 -> checked_div a b = Ok (a / b).
Proof.
  intro H. unfold checked_div.
  destruct (Req_dec_T b 0); [contradiction|reflexivity].
Qed.

Lemma INR_length_nonzero {A : Type} (l : list A) : l <> [] -> INR (length l) <> 0.
Proof.
  intro H. destruct l as [|a l]; [congruence|].
  apply not_0_INR. simpl. lia.
Qed.

Lemma np_mean_ok (l : list R) :
  l <> [] -> np_mean l = Ok (Rsum l / INR (length l)).
Proof.
  intro H. unfold np_mean. apply checked_div_ok.
  apply INR_length_nonzero. exact H.
Qed.

Lemma np_average_R_ok (values weights : list R) :
  length values = length weights ->
  Rsum weights <> 0 ->
  np_average values weights
  = Ok (Rsum (map (fun p => fst p * snd p) (combine values weights))
        / Rsum weights).
Proof.
  intros Hl Hw. unfold np_average.
  rewrite Hl, Nat.eqb_refl. apply checked_div_ok. exact Hw.
Qed.

Lemma window_nonempty (img : Image) (ws y x : nat) :
  (0 < ws)%nat -> window img ws y x <> [].
Proof.
  intro H. unfold window.
  destruct ws as [|k]; [lia|].
  cbn [seq flat_map map]. discriminate.
Qed.

Lemma local_contrast_ok (img : Image) (ws y x : nat) :
  (0 < ws)%nat ->
  local_contrast img ws y x = Ok (local_contrast_value img ws y x).
Proof.
  intro H. unfold local_contrast, local_contrast_value, local_mean. cbv zeta.
  pose proof (window_nonempty img ws y x H) as Hne.
  rewrite (np_mean_ok _ Hne). cbn [bind].
  set (w := window img ws y x) in *.
  set (m := Rsum w / INR (length w)).
  destruct (Rlt_dec 0 m) as [Hm|Hm]; [|reflexivity].
  unfold np_std. rewrite (np_mean_ok _ Hne). cbn [bind]. fold m.
  assert (Hne' : map (fun v => (v - m) ^ 2) w <> []).
  { destruct w; [congruence|discriminate]. }
  rewrite (np_mean_ok _ Hne'). cbn [bind].
  rewrite length_map. apply checked_div_ok. lra.
Qed.

Lemma sequence_map_ok {A B : Type} (f : A -> result B) (g : A -> B)
    (l : list A) :
  (forall a, In a l -> f a = Ok (g a)) ->
  sequence (map f l) = Ok (map g l).
Proof.
  induction l as [|a l IH]; intro H; simpl; [reflexivity|].
  rewrite (H a) by (left; reflexivity). cbn [bind].
  rewrite IH by (intros b Hb; apply H; right; exact Hb).
  reflexivity.
Qed.

Lemma contrast_map_ok (img : Image) (ws : nat) :
  (0 < ws)%nat ->
  sequence
    (map (fun y => sequence
            (map (fun x => local_contrast img ws y x) (seq 0 (width img))))
         (seq 0 (height img)))
  = Ok (grid (height img) (width img) (local_contrast_value img ws)).
Proof.
  intro H. unfold grid.
  apply sequence_map_ok. intros y _.
  apply sequence_map_ok. intros x _.
  apply local_contrast_ok. exact H.
Qed.

Lemma shape_grid {A : Type} (h w : nat) (f : nat -> nat -> A) :
  shape (grid h w f) = repeat w h.
Proof.
  unfold shape, grid. rewrite map_map.
  assert (E : forall s, map (fun y => length (map (fun x => f y x) (seq 0 w)))
                            (seq s h) = repeat w h).
  { induction h as [|h IH]; intro s; simpl; [reflexivity|].
    rewrite length_map, length_seq, IH. reflexivity. }
  apply E.
Qed.

Lemma shape_rectangular (img : Image) :
  rectangular img -> shape (img_rows img) = repeat (width img) (height img).
Proof.
  unfold rectangular, shape, height.
  induction 1 as [|r rows Hr _ IH]; simpl; [reflexivity|].
  rewrite Hr, IH. reflexivity.
Qed.

Lemma same_shape_true {A B : Type} (a : list (list A)) (b : list (list B)) :
  shape a = shape b -> same_shape a b = true.
Proof.
  intro H. unfold same_shape.
  destruct (list_eq_dec Nat.eq_dec (shape a) (shape b)); [reflexivity|contradiction].
Qed.

Lemma same_shape_eq {A B : Type} (a : list (list A)) (b : list (list B)) :
  same_shape a b = true -> shape a = shape b.
Proof.
  unfold same_shape.
  destruct (list_eq_dec Nat.eq_dec (shape a) (shape b)); [auto|discriminate].
Qed.

Lemma Rsum_pos_nonempty (l : list R) : 0 < Rsum l -> l <> [].
Proof. intros H E. subst l. simpl in H. lra. Qed.

Lemma Rsum_all_zero (l : list R) : (forall v, In v l -> v = 0) -> Rsum l = 0.
Proof.
  induction l as [|x l IH]; intro H; simpl; [reflexivity|].
  rewrite (H x) by (left; reflexivity).
  rewrite IH by (intros v Hv; apply H; right; exact Hv). lra.
Qed.

Lemma in_insert_sorted (x v : R) (l : list R) :
  In v (insert_sorted x l) -> v = x \/ In v l.
Proof.
  induction l as [|y l IH]; simpl.
  - intros [<-|[]]. left. reflexivity.
  - destruct (Rle_dec x y); simpl.
    + intros [<-|[<-|H]]; auto.
    + intros [<-|H]; auto. destruct (IH H); auto.
Qed.

Lemma in_sort (v : R) (l : list R) : In v (sort l) -> In v l.
Proof.
  induction l as [|x l IH]; simpl; [auto|].
  intro H. apply in_insert_sorted in H. destruct H as [->|H]; auto.
Qed.

Lemma length_insert_sorted (x : R) (l : list R) :
  length (insert_sorted x l) = S (length l).
Proof.
  induction l as [|y l IH]; simpl; [reflexivity|].
  destruct (Rle_dec x y); simpl; [reflexivity|]. rewrite IH. reflexivity.
Qed.

Lemma length_sort (l : list R) : length (sort l) = length l.
Proof.
  induction l as [|x l IH]; simpl; [reflexivity|].
  rewrite length_insert_sorted, IH. reflexivity.
Qed.

Lemma np_median_ok (l : list R) : l <> [] -> np_median l = Ok (median_value l).
Proof.
  intro H. unfold np_median, median_value. cbv zeta.
  rewrite length_sort.
  destruct l as [|x l]; [congruence|]. cbn [length Nat.eqb].
  destruct (Nat.odd (S (length l))); reflexivity.
Qed.

Lemma nth_all_zero (l : list R) (n : nat) :
  (forall v, In v l -> v = 0) -> nth n l 0 = 0.
Proof.
  intro H. destruct (nth_in_or_default n l 0) as [Hin|E]; [apply H; exact Hin|exact E].
Qed.

Lemma median_all_zero (l : list R) :
  (forall v, In v l -> v = 0) -> median_value l = 0.
Proof.
  intro H. unfold median_value. cbv zeta.
  assert (Hs : forall v, In v (sort l) -> v = 0)
    by (intros v Hv; apply H; apply in_sort; exact Hv).
  destruct (Nat.odd _); rewrite ?(nth_all_zero _ _ Hs); lra.
Qed.

Lemma weighted_sum_zero_values (values weights : list R) :
  (forall v, In v values -> v = 0) ->
  Rsum (map (fun p => fst p * snd p) (combine values weights)) = 0.
Proof.
  intro H. apply Rsum_all_zero. intros v Hv.
  apply in_map_iff in Hv. destruct Hv as ([a b] & <- & Hp).
  apply in_combine_l in Hp. simpl. rewrite (H a Hp). ring.
Qed.

Lemma pixel_all_zero (img : Image) (y x : nat) :
  all_pixels 0 (img_rows img) -> pixel img y x = 0%Z.
Proof.
  unfold all_pixels, pixel, flatten. intro H.
  rewrite Forall_forall in H.
  destruct (nth_in_or_default x (nth y (img_rows img) []) 0%Z) as [Hin|E];
    [|exact E].
  apply H. apply in_concat. exists (nth y (img_rows img) []).
  split; [|exact Hin].
  destruct (nth_in_or_default y (img_rows img) []) as [Hr|Er]; [exact Hr|].
  rewrite Er in Hin. destruct x; contradiction.
Qed.

Lemma window_all_zero (img : Image) (ws y x : nat) (v : R) :
  all_pixels 0 (img_rows img) -> In v (window img ws y x) -> v = 0.
Proof.
  intros H Hv. unfold window in Hv.
  apply in_flat_map in Hv. destruct Hv as (dy & _ & Hv).
  apply in_map_iff in Hv. destruct Hv as (dx & <- & _).
  rewrite (pixel_all_zero _ _ _ H). reflexivity.
Qed.

Lemma local_contrast_zero_mean (img : Image) (ws y x : nat) :
  local_mean img ws y x <= 0 -> local_contrast_value img ws y x = 0.
Proof.
  intro H. unfold local_contrast_value. cbv zeta.
  destruct (Rlt_dec 0 (local_mean img ws y x)); [lra|reflexivity].
Qed.

End ContrastFacts.

Section ContrastClaims.
Import RUtil Numpy contrast_analyzer Properties.
Local Open Scope R_scope.

(** Under a rectangular image, a mask of its shape with positive total
    weight and a positive window size, every checked division of the
    estimator has a divisor different from zero, and the report carries
    the values below. *)
Lemma analyze_contrast_report (img : Image) (ws : nat)
    (mask : list (list R)) :
  rectangular img ->
  same_shape (img_rows img) mask = true ->
  0 < Rsum (flatten mask) ->
  (0 < ws)%nat ->
  exists rep,
    analyze_contrast img ws mask = Ok rep
    /\ global_contrast rep
       = (if Rlt_dec 0 (weighted_mean_of img mask)
          then sqrt (weighted_variance_of img mask) / weighted_mean_of img mask
          else 0)
    /\ contrast_map rep
       = grid (height img) (width img) (local_contrast_value img ws)
    /\ mean_contrast rep
       = Rsum (flatten (contrast_map rep))
         / INR (length (flatten (contrast_map rep)))
    /\ median_contrast rep = median_value (flatten (contrast_map rep))
    /\ weighted_mean_contrast rep
       = Rsum (map (fun p => fst p * snd p)
                   (combine (flatten (contrast_map rep)) (flatten mask)))
         / Rsum (flatten mask).
Proof.
  intros Hrect Hshape Hpos Hws.
  assert (Hw : Rsum (flatten mask) <> 0) by lra.
  pose proof (same_shape_flat_length _ _ Hshape) as Hlen.
  assert (Hlen1 : length (map IZR (flatten (img_rows img)))
                  = length (flatten mask))
    by (rewrite length_map; exact Hlen).
  assert (Hcshape : shape (grid (height img) (width img)
                             (local_contrast_value img ws))
                    = shape mask).
  { rewrite shape_grid, <- (shape_rectangular img Hrect).
    apply same_shape_eq. exact Hshape. }
  assert (Hclen : length (flatten (grid (height img) (width img)
                                    (local_contrast_value img ws)))
                  = length (flatten mask))
    by (apply same_shape_flat_length; apply same_shape_true; exact Hcshape).
  assert (Hcne : flatten (grid (height img) (width img)
                            (local_contrast_value img ws)) <> []).
  { pose proof (Rsum_pos_nonempty _ Hpos) as Hne. intro E.
    rewrite E in Hclen. destruct (flatten mask); [congruence|discriminate]. }
  unfold analyze_contrast. cbv zeta.
  rewrite (np_average_R_ok _ _ Hlen1 Hw). cbn [bind].
  fold (weighted_mean_of img mask).
  rewrite np_average_R_ok by (rewrite ?length_map; assumption). cbn [bind].
  fold (weighted_variance_of img mask).
  destruct (Rlt_dec 0 (weighted_mean_of img mask)) as [Hm|Hm].
  - rewrite checked_div_ok by lra. cbn [bind].
    rewrite (contrast_map_ok img ws Hws). cbn [bind].
    rewrite Hshape. cbn [negb].
    rewrite (np_mean_ok _ Hcne). cbn [bind].
    rewrite (np_median_ok _ Hcne). cbn [bind].
    rewrite (np_average_R_ok _ _ Hclen Hw). cbn [bind].
    rewrite !checked_div_ok by exact Hw. cbn [bind].
    eexists. split; [reflexivity|]. cbn. repeat split; reflexivity.
  - cbn [bind].
    rewrite (contrast_map_ok img ws Hws). cbn [bind].
    rewrite Hshape. cbn [negb].
    rewrite (np_mean_ok _ Hcne). cbn [bind].
    rewrite (np_median_ok _ Hcne). cbn [bind].
    rewrite (np_average_R_ok _ _ Hclen Hw). cbn [bind].
    rewrite !checked_div_ok by exact Hw. cbn [bind].
    eexists. split; [reflexivity|]. cbn. repeat split; reflexivity.
Qed.

(** C10: for a rectangular image, a weight mask of its shape with positive
    total weight and a positive window size, the contrast estimator
    returns a report without dividing by zero.  A weighted global mean of
    zero gives [global_contrast = 0]; a window whose mean is zero gives the
    entry zero in the contrast map; and an all-zero image gives a report
    whose contrast values are all zero. *)
Theorem C10_contrast_never_divides_by_zero :
  forall (img : Image) (ws : nat) (mask : list (list R)),
    rectangular img ->
    same_shape (img_rows img) mask = true ->
    0 < Rsum (flatten mask) ->
    (0 < ws)%nat ->
    exists rep,
      analyze_contrast img ws mask = Ok rep
      /\ (weighted_mean_of img mask = 0 -> global_contrast rep = 0)
      /\ (forall y x,
            (y < height img)%nat -> (x < width img)%nat ->
            local_mean img ws y x = 0 ->
            weight_at (contrast_map rep) y x = 0)
      /\ (all_pixels 0 (img_rows img) ->
          global_contrast rep = 0
          /\ (forall v, In v (flatten (contrast_map rep)) -> v = 0)
          /\ mean_contrast rep = 0
          /\ median_contrast rep = 0
          /\ weighted_mean_contrast rep = 0).
Proof.
  intros img ws mask Hrect Hshape Hpos Hws.
  destruct (analyze_contrast_report img ws mask Hrect Hshape Hpos Hws)
    as (rep & Hrep & Hg & Hmap & Hmean & Hmed & Hwm).
  exists rep. split; [exact Hrep|].
  split; [|split].
  - intro H0. rewrite Hg.
    destruct (Rlt_dec 0 (weighted_mean_of img mask)); [lra|reflexivity].
  - intros y x Hy Hx H0. rewrite Hmap. unfold weight_at.
    rewrite grid_nth by assumption.
    apply local_contrast_zero_mean. lra.
  - intro Hzero.
    assert (Hflat : forall v, In v (map IZR (flatten (img_rows img))) -> v = 0).
    { intros v Hv. apply in_map_iff in Hv. destruct Hv as (z & <- & Hz).
      unfold all_pixels in Hzero. rewrite Forall_forall in Hzero.
      rewrite (Hzero z Hz). reflexivity. }
    assert (Hcm : forall v, In v (flatten (contrast_map rep)) -> v = 0).
    { intros v Hv. rewrite Hmap in Hv. apply in_grid in Hv.
      destruct Hv as (y & x & _ & _ & ->).
      apply local_contrast_zero_mean. unfold local_mean.
      rewrite (Rsum_all_zero (window img ws y x))
        by (intros v Hv; apply (window_all_zero img ws y x v Hzero Hv)).
      unfold Rdiv. rewrite Rmult_0_l. lra. }
    split; [|split; [exact Hcm|split; [|split]]].
    + rewrite Hg.
      destruct (Rlt_dec 0 (weighted_mean_of img mask)) as [Hm|]; [|reflexivity].
      exfalso. unfold weighted_mean_of in Hm.
      rewrite (weighted_sum_zero_values _ _ Hflat) in Hm.
      unfold Rdiv in Hm. rewrite Rmult_0_l in Hm. lra.
    + rewrite Hmean, (Rsum_all_zero _ Hcm). unfold Rdiv. apply Rmult_0_l.
    + rewrite Hmed. apply median_all_zero. exact Hcm.
    + rewrite Hwm, (weighted_sum_zero_values _ _ Hcm).
      unfold Rdiv. apply Rmult_0_l.
Qed.

End ContrastClaims.

(** * Instances

    Each property above that carries hypotheses, applied to a concrete
    input on which the hypotheses are checked by evaluation. *)

Section EngineInstances.
Import QUtil Numpy updated_widget Properties.
Local Open Scope Q_scope.

Lemma C2_instance_saturated_after_increases :
  let r := limited_adjustment bright_after_increases saturated_report
             "pixel_count" in
  (3 <= length (last_mean_values (snd r)))%nat
  /\ (3 <= length (last_adjustment_values (snd r)))%nat
  /\ opposite_signs (last_adjustment_values (snd r))
  /\ is_oscillating (last_mean_values (snd r))
                    (last_adjustment_values (snd r)) = true
  /\ fst (calculate_current_adjustment bright_after_increases
            saturated_report "pixel_count")
     == fst (fst r) / 5.
Proof.
  cbv zeta.
  assert (H1 : (3 <= length (last_mean_values
                   (snd (limited_adjustment bright_after_increases
                           saturated_report "pixel_count"))))%nat)
    by (vm_compute; lia).
  assert (H2 : (3 <= length (last_adjustment_values
                   (snd (limited_adjustment bright_after_increases
                           saturated_report "pixel_count"))))%nat)
    by (vm_compute; lia).
  assert (H3 : opposite_signs (last_adjustment_values
                   (snd (limited_adjustment bright_after_increases
                           saturated_report "pixel_count"))))
    by (right; split; vm_compute; reflexivity).
  pose proof (C2_oscillation_shrinks_in_guarded_cases
                bright_after_increases saturated_report "pixel_count"
                H1 H2 (or_introl H3)) as (T1 & T2 & _).
  split; [exact H1|]. split; [exact H2|]. split; [exact H3|].
  split; [exact T1|].
  apply T2; vm_compute; reflexivity.
Defined.

Lemma C3_instance_mean_120_at_20 :
  weighted_mean mean_120_report = Some 120
  /\ exists d1 d2 d3 st1 st2 st3,
      feed 1 (fresh_at 20) mean_120_report "histogram" = ([d1], st1)
      /\ feed 2 (fresh_at 20) mean_120_report "histogram" = ([d1; d2], st2)
      /\ feed 3 (fresh_at 20) mean_120_report "histogram"
         = ([d1; d2; d3], st3)
      /\ stable_count st1 = 0%Z /\ stable_count st2 = 1%Z
      /\ stable_count st3 = 2%Z
      /\ d2 = d1
      /\ Qabs d3 <= Qabs d1
      /\ (~ d1 == 0 -> Qabs d3 < Qabs d1).
Proof.
  split; [reflexivity|].
  exact (C3_damping_from_third_identical_frame mean_120_report 20 eq_refl).
Defined.

Lemma C4_instance_two_pixels :
  wf_image two_pixel_image = true
  /\ same_shape (img_rows two_pixel_image) unit_mask = true
  /\ ~ Qsum (flatten unit_mask) == 0
  /\ 0 <= histogram_saturation_analyzer.default_high_intensity_threshold
  /\ exists rep,
      histogram_saturation_analyzer.analyze_saturation_by_histogram
        two_pixel_image
        histogram_saturation_analyzer.default_high_intensity_threshold
        histogram_saturation_analyzer.default_critical_bin_threshold
        unit_mask = Ok rep
      /\ (histogram_saturation_analyzer.is_saturated rep = true <->
          histogram_saturation_analyzer.default_critical_bin_threshold
            < raw_mass_percentage (in_top_bin uint8) two_pixel_image unit_mask
          \/ 10 < raw_mass_percentage
                    (fun v =>
                       (verdict_threshold uint8
                          histogram_saturation_analyzer.default_high_intensity_threshold
                        <=? v)%Z)
                    two_pixel_image unit_mask).
Proof.
  assert (H1 : wf_image two_pixel_image = true) by reflexivity.
  assert (H2 : same_shape (img_rows two_pixel_image) unit_mask = true)
    by reflexivity.
  assert (H3 : ~ Qsum (flatten unit_mask) == 0)
    by (vm_compute; discriminate).
  assert (H4 : 0 <= histogram_saturation_analyzer.default_high_intensity_threshold)
    by (vm_compute; discriminate).
  split; [exact H1|]. split; [exact H2|]. split; [exact H3|].
  split; [exact H4|].
  destruct (C4_histogram_saturation_verdict two_pixel_image
              histogram_saturation_analyzer.default_high_intensity_threshold
              histogram_saturation_analyzer.default_critical_bin_threshold
              unit_mask H1 H2 H3 H4) as (rep & Hrep & Hverdict & _).
  exists rep. split; [exact Hrep|exact Hverdict].
Defined.


Lemma C6_instance_two_saturated_pixels :
  all_pixels 255 uniform_255_rows
  /\ same_shape uniform_255_rows uneven_mask = true
  /\ 0 < Qsum (flatten uneven_mask)
  /\ exists rep,
      saturation_pixel_count_analyzer.analyze_saturation_by_pixel_count
        (mkImage uint8 uniform_255_rows)
        saturation_pixel_count_analyzer.default_saturation_threshold
        saturation_pixel_count_analyzer.default_max_weighted_saturation
        uneven_mask = Ok rep
      /\ saturation_pixel_count_analyzer.is_saturated rep = true
      /\ saturation_pixel_count_analyzer.saturated_percentage rep == 100
      /\ fst (calculate_current_adjustment
                fresh_state (pixel_count_results rep) "pixel_count")
         == -(1#2).
Proof.
  assert (H1 : all_pixels 255 uniform_255_rows).
  { unfold all_pixels. simpl. repeat constructor. }
  assert (H2 : same_shape uniform_255_rows uneven_mask = true) by reflexivity.
  assert (H3 : 0 < Qsum (flatten uneven_mask)) by (vm_compute; reflexivity).
  split; [exact H1|]. split; [exact H2|]. split; [exact H3|].
  destruct (C6_uniform_255_saturated_and_negative_delta
              uniform_255_rows uneven_mask fresh_state H1 H2 H3)
    as (rep & Hrep & Hsat & Hpct & _ & Hfresh).
  exists rep. repeat split; assumption.
Defined.

End EngineInstances.

Section RealInstances.
Import RUtil Numpy contrast_analyzer Properties.
Local Open Scope R_scope.

Lemma C7_instance_single_pixel :
  (0 < 1)%nat
  /\ analyzer_sigma (1%nat, 1%nat) (Some 1) <> 0
  /\ widget_sigma (1%nat, 1%nat) (Some 1) <> 0
  /\ within_exponent_range (1%nat, 1%nat)
       (analyzer_exponent (1%nat, 1%nat) None (Some 1))
  /\ within_exponent_range (1%nat, 1%nat)
       (widget_exponent (1%nat, 1%nat) None (Some 1))
  /\ (exists mask,
        histogram_saturation_analyzer.create_radial_weight_mask
          (1%nat, 1%nat) None (Some 1) = Ok mask
        /\ list_max (concat mask) = Ok 1)
  /\ list_max (concat (updated_widget.create_radial_weight_mask
                         (1%nat, 1%nat) None (Some 1) None)) = Ok 1.
Proof.
  assert (H1 : (0 < 1)%nat) by lia.
  assert (H2 : analyzer_sigma (1%nat, 1%nat) (Some 1) <> 0) by (simpl; lra).
  assert (H3 : widget_sigma (1%nat, 1%nat) (Some 1) <> 0) by (simpl; lra).
  assert (H4 : within_exponent_range (1%nat, 1%nat)
                 (analyzer_exponent (1%nat, 1%nat) None (Some 1))).
  { intros y x Hy Hx. cbn [fst snd] in Hy, Hx.
    assert (y = 0%nat) by lia. assert (x = 0%nat) by lia. subst y x.
    unfold analyzer_exponent, exponent_limit, updated_widget.squared_dist.
    simpl. lra. }
  assert (H5 : within_exponent_range (1%nat, 1%nat)
                 (widget_exponent (1%nat, 1%nat) None (Some 1))).
  { intros y x Hy Hx. cbn [fst snd] in Hy, Hx.
    assert (y = 0%nat) by lia. assert (x = 0%nat) by lia. subst y x.
    unfold widget_exponent, exponent_limit, updated_widget.squared_dist.
    simpl. lra. }
  split; [exact H1|]. split; [exact H2|]. split; [exact H3|].
  split; [exact H4|]. split; [exact H5|].
  destruct (C7_weight_fields_within_unit_interval
              1 1 None (Some 1) None H1 H1 H2 H3 H4 H5)
    as ((mask & Hm & _ & Hmax) & _ & _ & Hw).
  split; [exists mask; split; assumption|exact Hw].
Defined.

Lemma C8_instance_outside_flat_top :
  (0 < 1)%nat /\ (2 < 3)%nat /\ (1 : R) <> 0
  /\ (0 < 1 -> 1 < distance (0, 0) 0 2 ->
      weight_at (updated_widget.create_radial_weight_mask
                   (1%nat, 3%nat) (Some (0, 0)) (Some 1) (Some 1)) 0 2
      = exp (- 0.5 * ((distance (0, 0) 0 2 ^ 2 - 1 ^ 2) / 1 ^ 2))).
Proof.
  assert (H1 : (0 < 1)%nat) by lia.
  assert (H2 : (2 < 3)%nat) by lia.
  assert (H3 : (1 : R) <> 0) by lra.
  split; [exact H1|]. split; [exact H2|]. split; [exact H3|].
  destruct (C8_flat_top_weight_formula 1 3 (0, 0) 1 1 0 2 H1 H2 H3)
    as (_ & T & _).
  exact T.
Defined.

Lemma C9_instance_single_pixel :
  (1 : R) <> 0
  /\ updated_widget.create_radial_weight_mask
       (1%nat, 1%nat) (Some (0, 0)) (Some 1) (Some 0)
     = plain_gaussian (1%nat, 1%nat) (0, 0) 1.
Proof.
  assert (H : (1 : R) <> 0) by lra.
  split; [exact H|].
  exact (proj2 (C9_zero_flat_top_is_plain_gaussian (1%nat, 1%nat) (0, 0) 1 H)).
Defined.

Lemma C10_instance_black_pixel :
  rectangular black_pixel_image
  /\ same_shape (img_rows black_pixel_image) unit_weight = true
  /\ 0 < Rsum (flatten unit_weight)
  /\ (0 < 7)%nat
  /\ exists rep,
      analyze_contrast black_pixel_image 7 unit_weight = Ok rep
      /\ global_contrast rep = 0
      /\ mean_contrast rep = 0.
Proof.
  assert (H1 : rectangular black_pixel_image).
  { unfold rectangular. simpl. repeat constructor. }
  assert (H2 : same_shape (img_rows black_pixel_image) unit_weight = true)
    by reflexivity.
  assert (H3 : 0 < Rsum (flatten unit_weight)) by (simpl; lra).
  assert (H4 : (0 < 7)%nat) by lia.
  split; [exact H1|]. split; [exact H2|]. split; [exact H3|].
  split; [exact H4|].
  destruct (C10_contrast_never_divides_by_zero
              black_pixel_image 7 unit_weight H1 H2 H3 H4)
    as (rep & Hrep & _ & _ & Hzero).
  assert (Hz : all_pixels 0 (img_rows black_pixel_image)).
  { unfold all_pixels. simpl. repeat constructor. }
  destruct (Hzero Hz) as (Hg & _ & Hm & _).
  exists rep. repeat split; assumption.
Defined.

End RealInstances.

(** * The serial packet *)

Section SerialPacket.
Import QUtil serial_protocol.
Local Open Scope Z_scope.

Lemma land_255_range (v : Z) : 0 <= Z.land v 255 < 256.
Proof.
  change 255 with (Z.ones 8). rewrite Z.land_ones by lia.
  apply Z.mod_pos_bound. reflexivity.
Qed.

Lemma high_byte_range (v : Z) : 0 <= high_byte v < 256.
Proof. apply land_255_range. Qed.

Lemma low_byte_range (v : Z) : 0 <= low_byte v < 256.
Proof. apply land_255_range. Qed.

Lemma checksum_range (f a b c d t : Z) : 0 <= checksum f a b c d t < 10.
Proof. unfold checksum. apply Z.mod_pos_bound. reflexivity. Qed.

Lemma byte_ok (b : Z) : 0 <= b < 256 -> (0 <=? b) && (b <? 256) = true.
Proof. intro H. apply andb_true_iff. split; [apply Z.leb_le|apply Z.ltb_lt]; lia. Qed.

(** Every value of a packet fits a byte, whatever the two currents are:
    [bytes(...)] cannot raise. *)
Lemma packet_is_bytes (present target : Z) :
  bytes (packet_values present target) = Ok (packet_values present target).
Proof.
  unfold bytes, packet_values. cbv zeta. cbn [forallb].
  rewrite !byte_ok; try reflexivity;
    first [apply high_byte_range | apply low_byte_range
          | (pose proof (checksum_range 1 (high_byte present) (low_byte present)
                           (high_byte target) (low_byte target) 25); lia)
          | lia].
Qed.

(** The two bytes of a 16-bit value put it back together. *)
Lemma bits_above_16 (v n : Z) : 0 <= v < 65536 -> 16 <= n -> Z.testbit v n = false.
Proof.
  intros Hv Hn.
  destruct (Z.eq_dec v 0) as [->|Hne]; [apply Z.bits_0|].
  apply Z.bits_above_log2; [lia|].
  assert (Z.log2 v < 16) by (apply Z.log2_lt_pow2; [lia|change (2 ^ 16) with 65536; lia]).
  lia.
Qed.

Lemma join_bytes (v : Z) :
  0 <= v < 65536 -> Z.lor (Z.shiftl (high_byte v) 8) (low_byte v) = v.
Proof.
  intro Hv. unfold high_byte, low_byte. change 255 with (Z.ones 8).
  apply Z.bits_inj'. intros n Hn.
  rewrite Z.lor_spec, !Z.land_spec.
  destruct (Z_lt_le_dec n 8) as [Hlt|Hge].
  - rewrite Z.shiftl_spec_low by lia.
    rewrite Z.ones_spec_low by lia. cbn [orb]. apply andb_true_r.
  - rewrite Z.shiftl_spec by lia. rewrite Z.land_spec, Z.shiftr_spec by lia.
    replace (n - 8 + 8) with n by lia.
    rewrite (Z.ones_spec_high 8 n) by lia. rewrite andb_false_r, orb_false_r.
    destruct (Z_lt_le_dec n 16) as [Hlt|Hge16].
    + rewrite Z.ones_spec_low by lia. apply andb_true_r.
    + rewrite (bits_above_16 v n Hv Hge16). reflexivity.
Qed.


Lemma int_of_Q_floor (q : Q) : (0 <= q)%Q -> int_of_Q q = Qfloor q.
Proof.
  intro H. destruct q as [n d]. unfold int_of_Q, Qfloor. cbn [Qnum Qden].
  apply Z.quot_div_nonneg; [|lia].
  unfold Qle in H. cbn in H. lia.
Qed.

Lemma int_of_Q_monotone (p q : Q) :
  (0 <= p)%Q -> (p <= q)%Q -> int_of_Q p <= int_of_Q q.
Proof.
  intros Hp Hpq.
  rewrite !int_of_Q_floor by lra.
  apply Qfloor_resp_le. exact Hpq.
Qed.

Lemma int_of_Q_inject (z : Z) : 0 <= z -> int_of_Q (inject_Z z) = z.
Proof.
  intro H. rewrite int_of_Q_floor by (unfold Qle; cbn; lia).
  apply Qfloor_Z.
Qed.

(** X1: The packet written for a percentage: whatever the percentage, the nine
    values of the packet fit a byte, so [bytes(...)] never raises, and the
    packet starts with 0xFF and ends with 0xFE.  Without a port the call
    returns [False] and writes nothing.  With a port the only failures are
    the port's own: the call returns [True] exactly when the write and the
    reading of the response do not raise, and the port is never handed
    anything but that one packet. *)
Theorem send_current_writes_one_framed_packet :
  forall current_percent : Q,
    send_current None current_percent = (false, [])
    /\ exists packet,
        length packet = 9%nat
        /\ Forall (fun b => 0 <= b < 256) packet
        /\ nth 0 packet 0 = 255 /\ nth 8 packet 0 = 254
        /\ 0 <= nth 7 packet 0 < 10
        /\ forall port : SerialPort,
             send_current (Some port) current_percent
             = match write port packet with
               | Raise _ => (false, [])
               | Ok _ =>
                   match read_response port with
                   | Raise _ => (false, [packet])
                   | Ok _ => (true, [packet])
                   end
               end.
Proof.
  intro p. split; [reflexivity|].
  set (c := current_12bit p).
  exists (packet_values c c).
  split; [reflexivity|].
  split.
  - unfold packet_values. cbv zeta.
    repeat constructor; try lia;
      first [apply high_byte_range | apply low_byte_range
            | (pose proof (checksum_range 1 (high_byte c) (low_byte c)
                             (high_byte c) (low_byte c) 25); lia)].
  - split; [reflexivity|]. split; [reflexivity|].
    split; [unfold packet_values; cbv zeta; cbn [nth]; apply checksum_range|].
    intro port. unfold send_current. cbv zeta. fold c.
    rewrite packet_is_bytes. reflexivity.
Qed.

(** X2: The 12-bit conversion: on percentages from 0 to 100 it is monotone,
    stays within 0..4095 and reaches both ends, and the two current bytes
    of the packet put the 12-bit value back together. *)
Theorem current_12bit_within_dac_range :
  forall p q : Q,
    (0 <= p)%Q -> (p <= q)%Q -> (q <= 100)%Q ->
    0 <= current_12bit p /\ current_12bit p <= current_12bit q
    /\ current_12bit q <= 4095
    /\ current_12bit 0 = 0 /\ current_12bit 100 = 4095
    /\ Z.lor (Z.shiftl (nth 4 (packet_values (current_12bit p)
                                              (current_12bit p)) 0) 8)
             (nth 5 (packet_values (current_12bit p) (current_12bit p)) 0)
       = current_12bit p.
Proof.
  intros p q Hp Hpq Hq.
  assert (Hmono : forall a b : Q, (0 <= a)%Q -> (a <= b)%Q ->
                                  current_12bit a <= current_12bit b).
  { intros a b Ha Hab. unfold current_12bit.
    apply int_of_Q_monotone.
    - change (a / 100)%Q with (a * (1#100))%Q. lra.
    - change (a / 100)%Q with (a * (1#100))%Q.
      change (b / 100)%Q with (b * (1#100))%Q. lra. }
  assert (H0 : current_12bit 0 = 0) by reflexivity.
  assert (H100 : current_12bit 100 = 4095) by reflexivity.
  assert (Hlo : 0 <= current_12bit p)
    by (rewrite <- H0; apply Hmono; [lra|exact Hp]).
  assert (Hhi : current_12bit q <= 4095)
    by (rewrite <- H100; apply Hmono; lra).
  assert (Hpq' : current_12bit p <= current_12bit q) by (apply Hmono; assumption).
  repeat split; try assumption.
  unfold packet_values. cbv zeta. cbn [nth].
  apply join_bytes. lia.
Qed.

Lemma collect_data_packet (present target : Z) (rest : list Z) :
  0 <= present < 65536 -> 0 <= target < 65536 ->
  collect_data (packet_values present target ++ rest)
  = (Some (mkReading present 25 ((inject_Z target / 4095) * 5)%Q), rest).
Proof.
  intros Hp Ht. unfold packet_values. cbv zeta.
  cbn [app collect_data]. change (255 =? 255) with true. cbv iota.
  replace (8 <=? Z.of_nat (length _)) with true
    by (symmetry; apply Z.leb_le; cbn [length]; lia).
  cbn [firstn skipn nth last]. change (255 =? 255) with true.
  change (254 =? 254) with true. cbn [andb].
  rewrite Z.eqb_refl, !join_bytes by assumption. reflexivity.
Qed.

(** X3: Decoding what was encoded: whatever bytes other than the start byte
    wait in front of it, a packet built for 16-bit present and target
    currents is accepted by [collect_data_and_update_ui], which recovers
    both currents and the temperature, and leaves what follows the packet
    in the port. *)
Theorem collect_data_recovers_packet :
  forall (noise rest : list Z) (present target : Z),
    Forall (fun b => b <> 255) noise ->
    0 <= present < 65536 -> 0 <= target < 65536 ->
    collect_data (noise ++ packet_values present target ++ rest)
    = (Some (mkReading present 25 ((inject_Z target / 4095) * 5)%Q), rest).
Proof.
  intros noise rest present target Hn Hp Ht.
  induction Hn as [|b noise Hb _ IH].
  - apply collect_data_packet; assumption.
  - cbn [app collect_data].
    replace (b =? 255) with false by (symmetry; apply Z.eqb_neq; exact Hb).
    exact IH.
Qed.

End SerialPacket.

(** * Longer runs of the decision engine *)

Section EngineRunFacts.
Import QUtil updated_widget EngineRuns.
Local Open Scope Q_scope.

Lemma push5_length (l : list Q) (x : Q) :
  (length l <= 5)%nat -> (length (push5 l x) <= 5)%nat.
Proof.
  intro H. unfold push5. cbv zeta.
  assert (Hl : length (l ++ [x]) = S (length l))
    by (rewrite length_app; simpl; lia).
  destruct (5 <? Z.of_nat (length (l ++ [x])))%Z eqn:E.
  - destruct (l ++ [x]) as [|y r] eqn:E2; simpl in *; lia.
  - apply Z.ltb_ge in E. lia.
Qed.

(** A full history drops its oldest entry and takes the new one last. *)
Lemma push5_full (l : list Q) (x : Q) :
  length l = 5%nat -> push5 l x = tl l ++ [x].
Proof.
  intro H. unfold push5. cbv zeta.
  replace (5 <? Z.of_nat (length (l ++ [x])))%Z with true
    by (symmetry; apply Z.ltb_lt; rewrite length_app; simpl; lia).
  destruct l as [|y r]; [discriminate|reflexivity].
Qed.

(** How one cycle changes the two histories. *)
Lemma method_adjustment_means st results method :
  let st1 := snd (method_adjustment st results method) in
  last_adjustment_values st1 = last_adjustment_values st
  /\ (last_mean_values st1 = last_mean_values st
      \/ exists m, last_mean_values st1 = push5 (last_mean_values st) m).
Proof.
  unfold method_adjustment.
  destruct (String.eqb method "histogram").
  { cbn. split; [reflexivity|left; reflexivity]. }
  destruct (String.eqb method "pixel_count").
  { unfold pixel_count_method.
    destruct (is_in (is_saturated results) && get (is_saturated results) false).
    - cbn. split; [reflexivity|right; eexists; reflexivity].
    - destruct (is_in (saturated_pixels results)).
      + cbn. split; [reflexivity|right; eexists; reflexivity].
      + cbn. split; [reflexivity|left; reflexivity]. }
  destruct (String.eqb method "contrast").
  { unfold contrast_method. destruct (is_in (mean_contrast results)).
    - cbn. split; [reflexivity|right; eexists; reflexivity].
    - cbn. split; [reflexivity|left; reflexivity]. }
  cbn. split; [reflexivity|left; reflexivity].
Qed.

Lemma calculate_histories st results method :
  let st' := snd (calculate_current_adjustment st results method) in
  (exists a, last_adjustment_values st'
             = push5 (last_adjustment_values st) a)
  /\ (last_mean_values st' = last_mean_values st
      \/ exists m, last_mean_values st' = push5 (last_mean_values st) m).
Proof.
  cbv zeta. unfold calculate_current_adjustment, limited_adjustment.
  pose proof (method_adjustment_means st results method) as H. cbv zeta in H.
  destruct (method_adjustment st results method) as [[a nm] st1].
  cbn [snd] in H. destruct H as [Ha Hm].
  destruct (is_oscillating _ _); cbn [snd last_adjustment_values last_mean_values
                                      with_adjustments];
    (split; [exists (limit_adjustment a); rewrite Ha; reflexivity|exact Hm]).
Qed.

Lemma calculate_within_capacity st results method :
  within_capacity st ->
  within_capacity (snd (calculate_current_adjustment st results method)).
Proof.
  intros [Hm Ha].
  destruct (calculate_histories st results method) as [[a Ea] Em].
  split.
  - destruct Em as [Em|[m Em]]; rewrite Em; [exact Hm|apply push5_length; exact Hm].
  - rewrite Ea. apply push5_length. exact Ha.
Qed.

Lemma run_methods_within_capacity runs : forall st,
  within_capacity st -> within_capacity (snd (run_methods st runs)).
Proof.
  induction runs as [|[method results] runs IH]; intros st H; [exact H|].
  cbn [run_methods].
  pose proof (calculate_within_capacity st results method H) as H1.
  destruct (calculate_current_adjustment st results method) as [a st1].
  cbn [snd] in H1. specialize (IH st1 H1).
  destruct (run_methods st1 runs) as [l st2]. exact IH.
Qed.

(** X4: The histories never outgrow their capacity: after any sequence of
    cycles, of whatever methods and reports, started from the fresh state,
    both hold at most five entries; and a full history evicts its oldest
    entry first. *)
Theorem histories_never_exceed_five :
  (forall runs : list (string * Results),
      within_capacity (snd (run_methods fresh_state runs)))
  /\ (forall (l : list Q) (x : Q),
        length l = 5%nat -> push5 l x = tl l ++ [x]).
Proof.
  split.
  - intro runs. apply run_methods_within_capacity.
    split; simpl; lia.
  - apply push5_full.
Qed.

Lemma limit5_noop (a : Q) : -(1#2) <= a -> a <= 3 -> limit5 a == a.
Proof.
  intros Hlo Hhi. unfold limit5.
  assert (E : Qmin 5 a == a) by (apply Q.min_r; lra).
  rewrite E. apply Q.max_r. lra.
Qed.

Lemma run_selected_range runs : forall st,
  Forall (fun d => -(1#2) <= d /\ d <= 3) (fst (run_selected st runs)).
Proof.
  induction runs as [|[method [results|e]] runs IH]; intro st;
    [constructor| |apply IH].
  cbn [run_selected].
  pose proof (calculate_current_adjustment_range st results method) as H.
  destruct (calculate_current_adjustment st results method) as [a st1].
  cbn [fst] in H. specialize (IH st1).
  destruct (run_selected st1 runs) as [l st2]. cbn [fst] in *.
  constructor; [|exact IH].
  rewrite (limit5_noop a) by tauto. exact H.
Qed.

(** When every selected method reports, the cycle is the one of
    [run_methods]. *)
Lemma run_selected_all_reported runs : forall st,
  run_selected st (map (fun r => (fst r, Ok (snd r))) runs)
  = run_methods st runs.
Proof.
  induction runs as [|[method results] runs IH]; intro st; [reflexivity|].
  cbn [map fst snd run_selected run_methods].
  destruct (calculate_current_adjustment st results method) as [a st1].
  rewrite IH. reflexivity.
Qed.

Lemma run_selected_none runs : forall st,
  fst (run_selected st runs) = [] -> Forall failed runs.
Proof.
  induction runs as [|[method [results|e]] runs IH]; intros st H;
    [constructor| |].
  - exfalso. cbn [run_selected] in H.
    destruct (calculate_current_adjustment st results method) as [a st1].
    destruct (run_selected st1 runs) as [l st2]. discriminate H.
  - constructor; [exists e; reflexivity|].
    apply (IH st). exact H.
Qed.

Lemma run_selected_some runs : forall st,
  fst (run_selected st runs) <> [] -> Exists reported runs.
Proof.
  induction runs as [|[method [results|e]] runs IH]; intros st H.
  - exfalso. apply H. reflexivity.
  - left. exists results. reflexivity.
  - right. apply (IH st). exact H.
Qed.

Lemma Qsum_bounds (l : list Q) (lo hi : Q) :
  Forall (fun d => lo <= d /\ d <= hi) l ->
  inject_Z (Z.of_nat (length l)) * lo <= Qsum l
  /\ Qsum l <= inject_Z (Z.of_nat (length l)) * hi.
Proof.
  induction 1 as [|x l [Hlo Hhi] _ IH].
  - cbn [length Qsum]. change (inject_Z (Z.of_nat 0)) with 0. lra.
  - cbn [length Qsum]. rewrite Nat2Z.inj_succ. unfold Z.succ.
    rewrite inject_Z_plus. change (inject_Z 1) with 1. lra.
Qed.

Lemma average_bounds (l : list Q) (lo hi : Q) :
  l <> [] ->
  Forall (fun d => lo <= d /\ d <= hi) l ->
  lo <= final_adjustment l /\ final_adjustment l <= hi.
Proof.
  intros Hne H. unfold final_adjustment.
  destruct (Qsum_bounds l lo hi H) as [H1 H2].
  set (n := inject_Z (Z.of_nat (length l))) in *.
  assert (Hn : 0 < n).
  { unfold n. destruct l as [|x l]; [congruence|].
    unfold Qlt. cbn. lia. }
  split.
  - apply Qle_shift_div_l; [exact Hn|]. lra.
  - apply Qle_shift_div_r; [exact Hn|]. lra.
Qed.

(** X5: The limit to +/-5 applied to each method's delta in
    [generate_analysis] never changes it.  The fused delta, the mean of
    the deltas of the selected methods that got as far as a report, lies
    in [-0.5, 3] and at least one method reported; no recommendation is
    made exactly when every selected method failed or none was
    selected. *)
Theorem fused_delta_within_engine_limits :
  (forall st results method,
      limit5 (fst (calculate_current_adjustment st results method))
      == fst (calculate_current_adjustment st results method))
  /\ (forall st runs,
        match fst (recommend_selected st runs) with
        | Some (f, v) => -(1#2) <= f /\ f <= 3 /\ Exists reported runs
        | None => Forall failed runs
        end).
Proof.
  split.
  - intros st results method.
    pose proof (calculate_current_adjustment_range st results method) as H.
    apply limit5_noop; apply H.
  - intros st runs. unfold recommend_selected.
    pose proof (run_selected_range runs st) as Hr.
    pose proof (run_selected_none runs st) as Hn.
    pose proof (run_selected_some runs st) as Hs.
    destruct (run_selected st runs) as [[|a l] st1]; cbn [fst] in *.
    + apply Hn. reflexivity.
    + destruct (average_bounds (a :: l) (-(1#2)) 3) as [Hlo Hhi];
        [discriminate|exact Hr|].
      split; [exact Hlo|]. split; [exact Hhi|].
      apply Hs. discriminate.
Qed.

Lemma Qfloor_unique (x : Q) (z : Z) :
  inject_Z z <= x -> x < inject_Z z + 1 -> Qfloor x = z.
Proof.
  intros Hlo Hhi.
  pose proof (Qfloor_le x) as H1. pose proof (Qlt_floor x) as H2.
  rewrite inject_Z_plus in H2. change (inject_Z 1) with 1 in H2.
  assert (Ha : (Qfloor x < z + 1)%Z).
  { rewrite Zlt_Qlt, inject_Z_plus. change (inject_Z 1) with 1. lra. }
  assert (Hb : (z < Qfloor x + 1)%Z).
  { rewrite Zlt_Qlt, inject_Z_plus. change (inject_Z 1) with 1. lra. }
  lia.
Qed.

Lemma int_of_Q_between (x : Q) (z : Z) :
  (0 <= z)%Z -> inject_Z z <= x -> x < inject_Z z + 1 -> int_of_Q x = z.
Proof.
  intros Hz Hlo Hhi.
  assert (H0 : 0 <= inject_Z z) by (unfold Qle; cbn; lia).
  rewrite int_of_Q_floor by lra.
  apply Qfloor_unique; assumption.
Qed.

(** X6: The slider moves in whole points: on a slider position from 1 to 100
    any fused delta strictly between -1 and 0 lowers the target by exactly
    one point, and on a position from 0 to 100 a fused delta from 0 up to (not
    including) 1 leaves the target where it is. *)
Theorem target_moves_in_whole_points :
  forall (current : Z) (final : Q),
    (0 <= current <= 100)%Z ->
    (-(1) < final -> final < 0 -> (1 <= current)%Z ->
     new_value current final = (current - 1)%Z)
    /\ (0 <= final -> final < 1 -> new_value current final = current).
Proof.
  intros current final Hc. split.
  - intros Hlo Hhi H1. unfold new_value.
    rewrite (int_of_Q_between (inject_Z current + final) (current - 1)).
    + lia.
    + lia.
    + replace (current - 1)%Z with (current + -1)%Z by lia.
      rewrite inject_Z_plus. change (inject_Z (-1)) with (-(1)). lra.
    + replace (current - 1)%Z with (current + -1)%Z by lia.
      rewrite inject_Z_plus. change (inject_Z (-1)) with (-(1)). lra.
  - intros Hlo Hhi. unfold new_value.
    rewrite (int_of_Q_between (inject_Z current + final) current).
    + lia.
    + lia.
    + lra.
    + lra.
Qed.

End EngineRunFacts.

Section EngineMethodFacts.
Import QUtil updated_widget EngineRuns.
Local Open Scope Q_scope.

Lemma limit_adjustment_zero_or_significant (a : Q) :
  zero_or_significant (limit_adjustment a).
Proof.
  unfold zero_or_significant, limit_adjustment, min_adjustment_threshold.
  cbv zeta.
  destruct (Qltb (Qabs a) (3#10)) eqn:E.
  - left. reflexivity.
  - apply Qltb_false in E. right.
    destruct (Qltb 0 a) eqn:E0.
    + apply Qltb_true in E0. rewrite Qabs_pos in E by lra.
      destruct (Q.min_spec 3 a) as [[? H]|[? H]]; rewrite H;
        rewrite Qabs_pos; lra.
    + apply Qltb_false in E0. rewrite Qabs_neg in E by lra.
      destruct (Q.max_spec (-(5#10)) a) as [[? H]|[? H]]; rewrite H;
        rewrite Qabs_neg; lra.
Qed.

Lemma not_oscillating_short (means adjs : list Q) :
  (length means < 3)%nat -> is_oscillating means adjs = false.
Proof.
  intro H. unfold is_oscillating, history_full_enough.
  replace (3 <=? Z.of_nat (length means))%Z with false
    by (symmetry; apply Z.leb_gt; lia).
  reflexivity.
Qed.

(** A histogram cycle leaves the mean history as it found it. *)
Lemma histogram_cycle_means st results :
  last_mean_values (snd (calculate_current_adjustment st results "histogram"))
  = last_mean_values st.
Proof.
  unfold calculate_current_adjustment, limited_adjustment, method_adjustment.
  change (String.eqb "histogram" "histogram") with true. cbv iota.
  unfold histogram_method. cbv zeta.
  destruct (is_oscillating _ _); reflexivity.
Qed.

Lemma histogram_cycle_delta st results :
  (length (last_mean_values st) < 3)%nat ->
  zero_or_significant
    (fst (calculate_current_adjustment st results "histogram")).
Proof.
  intro H.
  unfold calculate_current_adjustment, limited_adjustment, method_adjustment.
  change (String.eqb "histogram" "histogram") with true. cbv iota.
  unfold histogram_method. cbv zeta.
  cbn [last_mean_values with_adjustments track_stability with_stability].
  rewrite not_oscillating_short by exact H. cbn [fst].
  apply limit_adjustment_zero_or_significant.
Qed.

Lemma histogram_runs_from reports : forall st,
  last_mean_values st = [] ->
  last_mean_values (snd (run_methods st (histogram_runs reports))) = []
  /\ Forall zero_or_significant
            (fst (run_methods st (histogram_runs reports))).
Proof.
  induction reports as [|r reports IH]; intros st Hm.
  - split; [exact Hm|constructor].
  - cbn [histogram_runs map run_methods].
    pose proof (histogram_cycle_means st r) as H1.
    pose proof (histogram_cycle_delta st r) as H2.
    pose proof (calculate_current_adjustment_range st r "histogram") as H3.
    destruct (calculate_current_adjustment st r "histogram") as [a st1].
    cbn [fst snd] in *. rewrite Hm in H1.
    specialize (H2 ltac:(rewrite Hm; simpl; lia)).
    destruct (IH st1 H1) as [IH1 IH2].
    fold (histogram_runs reports).
    destruct (run_methods st1 (histogram_runs reports)) as [l st2].
    cbn [fst snd] in *.
    split; [exact IH1|]. constructor; [|exact IH2].
    assert (E : limit5 a == a) by (apply limit5_noop; tauto).
    unfold zero_or_significant in *. rewrite E. exact H2.
Qed.

(** X7: With only the histogram method selected the mean history stays empty,
    so the oscillation test never fires, and every delta that comes out is
    either zero or at least 0.3 in magnitude: the hysteresis lets no
    smaller correction through. *)
Theorem histogram_only_deltas_zero_or_significant :
  forall reports : list Results,
    last_mean_values
      (snd (run_methods fresh_state (histogram_runs reports))) = []
    /\ Forall zero_or_significant
              (fst (run_methods fresh_state (histogram_runs reports))).
Proof.
  intro reports. apply histogram_runs_from. reflexivity.
Qed.

(** X8: On a report of the pixel-count estimator, which carries neither
    [max_value] nor [total_pixels], the limited delta of the widget takes
    two values only: +0.3 when the report is not flagged and counts no
    saturated pixel, -0.5 otherwise.  The brightness ladder up to +3.0 and
    the 35-45 % band are out of reach. *)
Theorem pixel_count_report_delta_is_binary :
  forall (st : EngineState) (rep : saturation_pixel_count_analyzer.Report),
    let a := fst (fst (limited_adjustment st (pixel_count_results rep)
                                          "pixel_count")) in
    if negb (saturation_pixel_count_analyzer.is_saturated rep)
       && (saturation_pixel_count_analyzer.saturated_pixels rep =? 0)%Z
    then a = 3#10
    else a = -(5#10).
Proof.
  intros st rep. cbv zeta.
  unfold limited_adjustment, method_adjustment.
  change (String.eqb "pixel_count" "histogram") with false.
  change (String.eqb "pixel_count" "pixel_count") with true. cbv iota.
  unfold pixel_count_method, pixel_count_results.
  cbn [is_saturated is_in get andb saturated_pixels total_pixels max_value
       weighted_saturation_percentage].
  destruct (saturation_pixel_count_analyzer.is_saturated rep); cbn [negb andb].
  - cbv zeta.
    destruct (Qltb 2 _); [reflexivity|].
    destruct (Qltb 1 _); [reflexivity|].
    destruct (Qltb (5#10) _); reflexivity.
  - cbv zeta.
    set (n := saturation_pixel_count_analyzer.saturated_pixels rep).
    destruct (n =? 0)%Z eqn:En.
    + apply Z.eqb_eq in En. rewrite En. reflexivity.
    + apply Z.eqb_neq in En.
      assert (E0 : Qeq_bool (inject_Z n) 0 = false).
      { destruct (Qeq_bool (inject_Z n) 0) eqn:E; [|reflexivity].
        apply Qeq_bool_iff in E. unfold Qeq in E. cbn in E. lia. }
      rewrite E0.
      assert (Hp : (inject_Z n / 1) * 100 == inject_Z (n * 100)).
      { rewrite inject_Z_mult. change (inject_Z 100) with 100. field. }
      assert (Hout : inject_Z (n * 100) <= -(100) \/ 100 <= inject_Z (n * 100)).
      { destruct (Z_lt_le_dec n 0); [left|right]; unfold Qle; cbn; lia. }
      set (pct := (inject_Z n / 1) * 100) in *.
      assert (B1 : Qleb 35 pct && Qleb pct 45 = false).
      { apply andb_false_iff. destruct Hout; [left|right];
          apply Qleb_false; lra. }
      assert (B2 : Qltb 45 pct && Qleb pct 55 = false).
      { apply andb_false_iff. destruct Hout; [left|right];
          [apply Qltb_false|apply Qleb_false]; lra. }
      assert (B3 : Qltb 55 pct && Qleb pct 65 = false).
      { apply andb_false_iff. destruct Hout; [left|right];
          [apply Qltb_false|apply Qleb_false]; lra. }
      rewrite B1, B2, B3. reflexivity.
Qed.

End EngineMethodFacts.

(** * Ranges of the estimators' reports *)

Section ReportRangeFacts.
Import QUtil Numpy Properties ReportRanges.
Local Open Scope Q_scope.

Lemma weight_where_all (P : Z -> bool) (a : list Z) (w : list Q) :
  Forall (fun v => P v = true) a -> length a = length w ->
  weight_where P a w = Qsum w.
Proof.
  intros Ha. unfold weight_where. revert w.
  induction Ha as [|v a Hv _ IH]; intros w Hl.
  - destruct w; [reflexivity|discriminate].
  - destruct w as [|x w]; [discriminate|].
    cbn [combine filter fst]. rewrite Hv. cbn [map snd Qsum].
    f_equal. apply IH. simpl in Hl. lia.
Qed.

Lemma weight_where_nonneg (P : Z -> bool) (a : list Z) (w : list Q) :
  Forall (fun x => 0 <= x) w -> 0 <= weight_where P a w.
Proof.
  intro Hw. unfold weight_where. revert a.
  induction Hw as [|x w Hx _ IH]; intro a.
  - destruct a; simpl; lra.
  - destruct a as [|v a]; [simpl; lra|].
    cbn [combine filter fst]. specialize (IH a).
    destruct (P v); cbn [map snd Qsum]; lra.
Qed.

Lemma weight_where_mono (P P' : Z -> bool) (a : list Z) (w : list Q) :
  (forall v, P v = true -> P' v = true) ->
  Forall (fun x => 0 <= x) w ->
  weight_where P a w <= weight_where P' a w.
Proof.
  intros Himp Hw. unfold weight_where. revert a.
  induction Hw as [|x w Hx _ IH]; intro a.
  - destruct a; simpl; lra.
  - destruct a as [|v a]; [simpl; lra|].
    cbn [combine filter fst]. specialize (IH a).
    destruct (P v) eqn:E.
    + rewrite (Himp v E). cbn [map snd Qsum]. lra.
    + destruct (P' v); cbn [map snd Qsum]; [|exact IH].
      lra.
Qed.

Lemma Qsum_nonneg (w : list Q) : Forall (fun x => 0 <= x) w -> 0 <= Qsum w.
Proof. induction 1; simpl; lra. Qed.

Lemma weight_where_le_total (P : Z -> bool) (a : list Z) (w : list Q) :
  Forall (fun x => 0 <= x) w -> weight_where P a w <= Qsum w.
Proof.
  intro Hw. unfold weight_where. revert a.
  induction Hw as [|x w Hx Hw' IH]; intro a.
  - destruct a; simpl; lra.
  - destruct a as [|v a].
    + cbn [combine filter map Qsum].
      pose proof (Qsum_nonneg w Hw'). lra.
    + cbn [combine filter fst]. specialize (IH a).
      destruct (P v); cbn [map snd Qsum]; lra.
Qed.

Lemma percentage_range (x total : Q) :
  0 < total -> 0 <= x -> x <= total ->
  0 <= (x / total) * 100 /\ (x / total) * 100 <= 100.
Proof.
  intros Ht H0 H1.
  assert (Hq : 0 <= x / total /\ x / total <= 1).
  { split.
    - apply Qle_shift_div_l; [exact Ht|]. lra.
    - apply Qle_shift_div_r; [exact Ht|]. lra. }
  lra.
Qed.

Lemma hist_img_length (img : Image) :
  length (histogram_saturation_analyzer.hist_img img)
  = length (flatten (img_rows img)).
Proof.
  unfold histogram_saturation_analyzer.hist_img.
  destruct (img_dtype img); [reflexivity|apply length_map].
Qed.

Lemma histogram_report_raw img hi crit mask rep :
  histogram_saturation_analyzer.analyze_saturation_by_histogram
    img hi crit mask = Ok rep ->
  let pct := map (fun h => (h / Qsum (flatten mask)) * 100)
                 (np_histogram (histogram_saturation_analyzer.hist_img img)
                               (flatten mask)) in
  histogram_saturation_analyzer.highest_bin_percentage rep = last pct 0
  /\ histogram_saturation_analyzer.high_intensity_sum rep
     = Qsum (slice_from
               (histogram_saturation_analyzer.high_threshold_8bit img hi) pct)
  /\ histogram_saturation_analyzer.histogram_percentage rep = pct
  /\ np_average (map inject_Z (flatten (img_rows img))) (flatten mask)
     = Ok (histogram_saturation_analyzer.weighted_mean rep).
Proof.
  unfold histogram_saturation_analyzer.analyze_saturation_by_histogram.
  cbv zeta.
  destruct (negb (same_shape (img_rows img) mask)); [discriminate|].
  destruct (np_average _ _) as [m|]; [|discriminate]. cbn [bind].
  destruct (np_average _ _) as [v|]; [|discriminate]. cbn [bind].
  intro H. injection H as <-. repeat split; reflexivity.
Qed.

(** The fields of a histogram report in terms of the weighted mass. *)
Lemma histogram_report_fields img hi crit mask rep :
  wf_image img = true ->
  same_shape (img_rows img) mask = true ->
  0 <= hi ->
  histogram_saturation_analyzer.analyze_saturation_by_histogram
    img hi crit mask = Ok rep ->
  histogram_saturation_analyzer.highest_bin_percentage rep
  = top_bin_percentage img mask
  /\ histogram_saturation_analyzer.high_intensity_sum rep
     == high_intensity_percentage img hi mask
  /\ Qsum (histogram_saturation_analyzer.histogram_percentage rep)
     == (Qsum (flatten mask) / Qsum (flatten mask)) * 100.
Proof.
  intros Hwf Hshape Hhi Hrep.
  pose proof (hist_img_in_range img Hwf) as Hrange.
  pose proof (high_threshold_8bit_nonneg img hi Hhi) as Hthr.
  assert (Hlen : length (histogram_saturation_analyzer.hist_img img)
                 = length (flatten mask)).
  { rewrite hist_img_length. apply same_shape_flat_length. exact Hshape. }
  destruct (histogram_report_raw _ _ _ _ _ Hrep) as (E1 & E2 & E3 & _).
  cbv zeta in E1, E2, E3. rewrite E1, E2, E3. clear E1 E2 E3 Hrep.
  set (a := histogram_saturation_analyzer.hist_img img) in *.
  set (w := flatten mask) in *.
  set (t := histogram_saturation_analyzer.high_threshold_8bit img hi) in *.
  split; [|split].
  - unfold np_histogram. rewrite map_map.
    rewrite (last_map_seq
               (fun k => (bin_weight a w (Z.of_nat k) / Qsum w) * 100) 255).
    change (Z.of_nat 255) with 255%Z.
    rewrite (top_bin a w Hrange). reflexivity.
  - unfold slice_from.
    replace (t <? 0)%Z with false by (symmetry; apply Z.ltb_ge; exact Hthr).
    unfold np_histogram. rewrite map_map, skipn_map, skipn_seq, Qsum_scale.
    unfold high_intensity_percentage, mass_percentage. fold a w t.
    destruct (Z_lt_le_dec t 256) as [Hlt|Hge].
    + rewrite (bins_from a w (0 + Z.to_nat t) (256 - Z.to_nat t) Hrange)
        by lia.
      replace (Z.of_nat (0 + Z.to_nat t)) with t by lia. reflexivity.
    + replace (256 - Z.to_nat t)%nat with 0%nat by lia.
      cbn [seq map Qsum].
      rewrite (weight_where_above t a w Hrange Hge). reflexivity.
  - unfold np_histogram. rewrite map_map, Qsum_scale.
    rewrite (bins_from a w 0 256 Hrange) by lia.
    change (Z.of_nat 0) with 0%Z.
    rewrite (weight_where_all (fun v => (0 <=? v)%Z) a w); [reflexivity| |exact Hlen].
    eapply Forall_impl; [|exact Hrange]. intros z Hz. cbv beta in Hz.
    apply Z.leb_le. lia.
Qed.

Lemma histogram_report_exists img hi crit mask :
  same_shape (img_rows img) mask = true ->
  ~ Qsum (flatten mask) == 0 ->
  exists rep,
    histogram_saturation_analyzer.analyze_saturation_by_histogram
      img hi crit mask = Ok rep.
Proof.
  intros Hshape Htot.
  unfold histogram_saturation_analyzer.analyze_saturation_by_histogram.
  cbv zeta. rewrite Hshape. cbn [negb].
  destruct (np_average_ok (map inject_Z (flatten (img_rows img)))
                          (flatten mask) Htot) as [m Hm].
  rewrite Hm. cbn [bind].
  destruct (np_average_ok
              (map (fun v => (v - m) * (v - m))
                   (map inject_Z (flatten (img_rows img))))
              (flatten mask) Htot) as [v Hv].
  rewrite Hv. cbn [bind]. eexists. reflexivity.
Qed.

(** X9: The histogram accounts for all the weight: on a well-formed image and
    a mask of its shape with non-zero total weight, the 256 entries of
    [histogram_percentage] add up to 100. *)
Theorem histogram_percentages_sum_to_100 :
  forall (img : Image) (hi crit : Q) (mask : WeightMask),
    wf_image img = true ->
    same_shape (img_rows img) mask = true ->
    ~ Qsum (flatten mask) == 0 ->
    0 <= hi ->
    exists rep,
      histogram_saturation_analyzer.analyze_saturation_by_histogram
        img hi crit mask = Ok rep
      /\ length (histogram_saturation_analyzer.histogram_percentage rep)
         = 256%nat
      /\ Qsum (histogram_saturation_analyzer.histogram_percentage rep) == 100.
Proof.
  intros img hi crit mask Hwf Hshape Htot Hhi.
  pose proof (histogram_report_exists img hi crit mask Hshape Htot) as Hex.
  destruct Hex as [rep Hrep]. exists rep. split; [exact Hrep|].
  destruct (histogram_report_fields _ _ _ _ _ Hwf Hshape Hhi Hrep)
    as (_ & _ & Hsum).
  split.
  - destruct (histogram_report_raw _ _ _ _ _ Hrep) as (_ & _ & E3 & _).
    cbv zeta in E3. rewrite E3.
    unfold np_histogram. rewrite !length_map, length_seq. reflexivity.
  - rewrite Hsum. apply Qratio_hundred. exact Htot.
Qed.


Lemma wf_image_flat (img : Image) :
  wf_image img = true ->
  Forall (fun v => (0 <= v <= max_possible_value (img_dtype img))%Z)
         (flatten (img_rows img)).
Proof.
  unfold wf_image, flatten. intro H.
  apply Forall_concat. rewrite forallb_forall in H.
  apply Forall_forall. intros r Hr. apply Forall_forall. intros v Hv.
  specialize (H r Hr). rewrite forallb_forall in H. specialize (H v Hv).
  unfold in_dtype in H. lia.
Qed.

Lemma weighted_sum_bounds (M : Q) (values weights : list Q) :
  0 <= M ->
  Forall (fun v => 0 <= v /\ v <= M) values ->
  Forall (fun x => 0 <= x) weights ->
  0 <= Qsum (map (fun p => fst p * snd p) (combine values weights))
  /\ Qsum (map (fun p => fst p * snd p) (combine values weights))
     <= M * Qsum weights.
Proof.
  intros HM Hv. revert weights.
  induction Hv as [|v values [Hv0 HvM] Hvs IH]; intros weights Hw.
  - cbn [combine map Qsum]. pose proof (Qsum_nonneg _ Hw).
    split; [lra|]. apply Qmult_le_0_compat; assumption.
  - destruct weights as [|x weights].
    + cbn [combine map Qsum]. lra.
    + inversion Hw as [|? ? Hx Hws]; subst.
      cbn [combine map Qsum fst snd].
      destruct (IH weights Hws) as [I1 I2].
      assert (0 <= v * x) by (apply Qmult_le_0_compat; assumption).
      assert (v * x <= M * x)
        by (apply Qmult_le_compat_r; assumption).
      split; [lra|].
      rewrite Qmult_plus_distr_r. lra.
Qed.

Lemma threshold_index_at_most_255 (img : Image) (hi : Q) :
  0 <= hi -> hi <= 1 ->
  (histogram_saturation_analyzer.high_threshold_8bit img hi <= 255)%Z.
Proof.
  intros H0 H1.
  assert (E : int_of_Q 255 = 255%Z) by reflexivity.
  unfold histogram_saturation_analyzer.high_threshold_8bit.
  destruct (img_dtype img).
  - change (inject_Z (max_possible_value uint8)) with 255.
    rewrite <- E at 2. apply int_of_Q_monotone; lra.
  - rewrite <- E at 2. apply int_of_Q_monotone; lra.
Qed.

(** X10: Under non-negative weights the histogram report is ordered as one
    expects: the top bin holds no more than the high-intensity mass, both
    are percentages between 0 and 100, and the weighted mean lies between
    0 and the largest value of the dtype. *)
Theorem histogram_report_within_ranges :
  forall (img : Image) (hi crit : Q) (mask : WeightMask),
    wf_image img = true ->
    same_shape (img_rows img) mask = true ->
    nonnegative_mask mask ->
    0 < Qsum (flatten mask) ->
    0 <= hi -> hi <= 1 ->
    exists rep,
      histogram_saturation_analyzer.analyze_saturation_by_histogram
        img hi crit mask = Ok rep
      /\ 0 <= histogram_saturation_analyzer.highest_bin_percentage rep
      /\ histogram_saturation_analyzer.highest_bin_percentage rep
         <= histogram_saturation_analyzer.high_intensity_sum rep
      /\ histogram_saturation_analyzer.high_intensity_sum rep <= 100
      /\ 0 <= histogram_saturation_analyzer.weighted_mean rep
      /\ histogram_saturation_analyzer.weighted_mean rep
         <= inject_Z (max_possible_value (img_dtype img)).
Proof.
  intros img hi crit mask Hwf Hshape Hnn Hpos Hhi0 Hhi1.
  assert (Htot : ~ Qsum (flatten mask) == 0) by lra.
  destruct (histogram_report_exists img hi crit mask Hshape Htot)
    as (rep & Hrep).
  exists rep. split; [exact Hrep|].
  destruct (histogram_report_fields _ _ _ _ _ Hwf Hshape Hhi0 Hrep)
    as (Etop & Ehigh & _).
  destruct (histogram_report_raw _ _ _ _ _ Hrep) as (_ & _ & _ & Emean).
  rewrite Etop, Ehigh.
  unfold top_bin_percentage, high_intensity_percentage, mass_percentage.
  set (a := histogram_saturation_analyzer.hist_img img).
  set (w := flatten mask) in *.
  set (t := histogram_saturation_analyzer.high_threshold_8bit img hi).
  pose proof (threshold_index_at_most_255 img hi Hhi0 Hhi1) as Ht. fold t in Ht.
  pose proof (weight_where_nonneg (fun v => (v =? 255)%Z) a w Hnn) as T0.
  pose proof (weight_where_mono (fun v => (v =? 255)%Z)
                (fun v => (t <=? v)%Z) a w) as T1.
  assert (T1' : weight_where (fun v => (v =? 255)%Z) a w
                <= weight_where (fun v => (t <=? v)%Z) a w).
  { apply T1; [|exact Hnn]. intros v Hv. apply Z.eqb_eq in Hv.
    apply Z.leb_le. lia. }
  pose proof (weight_where_le_total (fun v => (t <=? v)%Z) a w Hnn) as T2.
  destruct (percentage_range (weight_where (fun v => (v =? 255)%Z) a w)
              (Qsum w) Hpos T0 ltac:(lra)) as [P1 _].
  destruct (percentage_range (weight_where (fun v => (t <=? v)%Z) a w)
              (Qsum w) Hpos ltac:(lra) T2) as [_ P2].
  assert (P3 : weight_where (fun v => (v =? 255)%Z) a w / Qsum w * 100
               <= weight_where (fun v => (t <=? v)%Z) a w / Qsum w * 100).
  { assert (weight_where (fun v => (v =? 255)%Z) a w / Qsum w
            <= weight_where (fun v => (t <=? v)%Z) a w / Qsum w).
    { apply Qle_shift_div_l; [exact Hpos|].
      unfold Qdiv. rewrite <- Qmult_assoc, (Qmult_comm (/ Qsum w)),
        Qmult_inv_r, Qmult_1_r by lra. exact T1'. }
    lra. }
  split; [exact P1|]. split; [exact P3|]. split; [exact P2|].
  (* the weighted mean *)
  revert Emean. unfold np_average. cbv zeta. fold w.
  destruct (Qeq_bool (Qsum w) 0); [discriminate|].
  intro E. injection E as E. rewrite <- E.
  set (M := inject_Z (max_possible_value (img_dtype img))).
  assert (HM : 0 <= M) by (unfold M; destruct (img_dtype img); discriminate).
  assert (Hvals : Forall (fun v => 0 <= v /\ v <= M)
                         (map inject_Z (flatten (img_rows img)))).
  { apply Forall_map. eapply Forall_impl; [|exact (wf_image_flat img Hwf)].
    intros z Hz. cbv beta in Hz. unfold M. rewrite <- !Zle_Qle.
    change 0 with (inject_Z 0). rewrite <- Zle_Qle. lia. }
  destruct (weighted_sum_bounds M _ w HM Hvals Hnn) as [S1 S2].
  split.
  - apply Qle_shift_div_l; [exact Hpos|]. lra.
  - apply Qle_shift_div_r; [exact Hpos|]. lra.
Qed.


Lemma masked_weight_bounds (bools : list bool) (w : list Q) :
  Forall (fun x => 0 <= x) w ->
  0 <= Qsum (map (fun p : bool * Q => if fst p then snd p else 0)
                 (combine bools w))
  /\ Qsum (map (fun p : bool * Q => if fst p then snd p else 0)
               (combine bools w)) <= Qsum w.
Proof.
  intro Hw. revert bools.
  induction Hw as [|x w Hx Hw' IH]; intro bools.
  - destruct bools; simpl; lra.
  - destruct bools as [|b bools].
    + cbn [combine map Qsum]. pose proof (Qsum_nonneg w Hw'). lra.
    + cbn [combine map Qsum fst snd]. destruct (IH bools).
      destruct b; lra.
Qed.

Lemma masked_weight_none (bools : list bool) (w : list Q) :
  Forall (fun b => b = false) bools ->
  Qsum (map (fun p : bool * Q => if fst p then snd p else 0)
            (combine bools w)) == 0.
Proof.
  intro Hb. revert w.
  induction Hb as [|b bools Hb _ IH]; intro w; [reflexivity|].
  destruct w as [|x w]; [reflexivity|].
  cbn [combine map Qsum fst snd]. rewrite Hb, IH. lra.
Qed.

Lemma count_true_le (bools : list bool) :
  (length (filter (fun b : bool => b) bools) <= length bools)%nat.
Proof. apply filter_length_le. Qed.

Lemma count_true_none (bools : list bool) :
  Forall (fun b => b = false) bools ->
  length (filter (fun b : bool => b) bools) = 0%nat.
Proof.
  induction 1 as [|b bools Hb _ IH]; [reflexivity|].
  cbn [filter]. rewrite Hb. exact IH.
Qed.

Lemma pixel_count_report_raw img thr maxw mask :
  same_shape (img_rows img) mask = true ->
  exists rep,
    saturation_pixel_count_analyzer.analyze_saturation_by_pixel_count
      img thr maxw mask = Ok rep
    /\ let t := int_of_Q (inject_Z (max_possible_value (img_dtype img)) * thr) in
       let bools := map (fun v => (t <? v)%Z) (flatten (img_rows img)) in
       let weighted :=
         Qsum (map (fun p : bool * Q => if fst p then snd p else 0)
                   (combine bools (flatten mask))) in
       saturation_pixel_count_analyzer.saturation_threshold rep = t
       /\ saturation_pixel_count_analyzer.saturated_pixels rep
          = Z.of_nat (length (filter (fun b : bool => b) bools))
       /\ saturation_pixel_count_analyzer.saturated_percentage rep
          = (inject_Z (Z.of_nat (length (filter (fun b : bool => b) bools)))
             / inject_Z (Z.of_nat (size img))) * 100
       /\ saturation_pixel_count_analyzer.weighted_saturation_percentage rep
          = (weighted / Qsum (flatten mask)) * 100
       /\ saturation_pixel_count_analyzer.is_saturated rep
          = Qltb maxw weighted
            || Qltb (5#10) ((weighted / Qsum (flatten mask)) * 100).
Proof.
  intro Hshape.
  unfold saturation_pixel_count_analyzer.analyze_saturation_by_pixel_count.
  cbv zeta. rewrite Hshape. cbn [negb].
  eexists. split; [reflexivity|]. repeat split; reflexivity.
Qed.

(** X11: The pixel-count report stays within its ranges: under a mask of the
    image's shape with non-negative weights and positive total weight, the
    count of saturated pixels is between 0 and the number of pixels and
    both percentages are between 0 and 100. *)
Theorem pixel_count_percentages_within_0_100 :
  forall (img : Image) (thr maxw : Q) (mask : WeightMask),
    same_shape (img_rows img) mask = true ->
    nonnegative_mask mask ->
    0 < Qsum (flatten mask) ->
    exists rep,
      saturation_pixel_count_analyzer.analyze_saturation_by_pixel_count
        img thr maxw mask = Ok rep
      /\ (0 <= saturation_pixel_count_analyzer.saturated_pixels rep
          <= Z.of_nat (size img))%Z
      /\ 0 <= saturation_pixel_count_analyzer.saturated_percentage rep
      /\ saturation_pixel_count_analyzer.saturated_percentage rep <= 100
      /\ 0 <= saturation_pixel_count_analyzer.weighted_saturation_percentage rep
      /\ saturation_pixel_count_analyzer.weighted_saturation_percentage rep
         <= 100.
Proof.
  intros img thr maxw mask Hshape Hnn Hpos.
  destruct (pixel_count_report_raw img thr maxw mask Hshape)
    as (rep & Hrep & Hf).
  cbv zeta in Hf. destruct Hf as (_ & En & Ep & Ew & _).
  exists rep. split; [exact Hrep|].
  rewrite En, Ep, Ew.
  set (bools := map _ (flatten (img_rows img))) in *.
  pose proof (count_true_le bools) as Hc.
  assert (Hlen : length bools = size img)
    by (unfold bools, size; apply length_map).
  assert (Hsize : (0 < size img)%nat).
  { unfold size. rewrite (same_shape_flat_length _ _ Hshape).
    pose proof (Qsum_pos_nonempty _ Hpos).
    destruct (flatten mask); [congruence|simpl; lia]. }
  split; [lia|].
  destruct (masked_weight_bounds bools (flatten mask) Hnn) as [W0 W1].
  assert (P : 0 <= inject_Z (Z.of_nat (length (filter (fun b : bool => b) bools)))
                   / inject_Z (Z.of_nat (size img)) * 100
              /\ inject_Z (Z.of_nat (length (filter (fun b : bool => b) bools)))
                 / inject_Z (Z.of_nat (size img)) * 100 <= 100).
  { apply percentage_range.
    - change 0 with (inject_Z 0). rewrite <- Zlt_Qlt. lia.
    - change 0 with (inject_Z 0). rewrite <- Zle_Qle. lia.
    - rewrite <- Zle_Qle. lia. }
  destruct P as [P0 P1].
  destruct (percentage_range _ _ Hpos W0 W1) as [Q0 Q1].
  repeat split; assumption.
Qed.

(** X12: An image none of whose samples exceeds the saturation threshold is
    never flagged, whatever the weights: the report counts no saturated
    pixel and [is_saturated] is [False], for every mask of the image's
    shape and every non-negative bound on the weighted saturation. *)
Theorem image_below_threshold_is_not_flagged :
  forall (img : Image) (thr maxw : Q) (mask : WeightMask),
    same_shape (img_rows img) mask = true ->
    0 <= maxw ->
    none_above
      (int_of_Q (inject_Z (max_possible_value (img_dtype img)) * thr)) img ->
    exists rep,
      saturation_pixel_count_analyzer.analyze_saturation_by_pixel_count
        img thr maxw mask = Ok rep
      /\ saturation_pixel_count_analyzer.saturated_pixels rep = 0%Z
      /\ saturation_pixel_count_analyzer.is_saturated rep = false.
Proof.
  intros img thr maxw mask Hshape Hmax Hnone.
  destruct (pixel_count_report_raw img thr maxw mask Hshape)
    as (rep & Hrep & Hf).
  cbv zeta in Hf. destruct Hf as (_ & En & _ & _ & Es).
  exists rep. split; [exact Hrep|].
  set (t := int_of_Q (inject_Z (max_possible_value (img_dtype img)) * thr)) in *.
  assert (Hb : Forall (fun b => b = false)
                      (map (fun v => (t <? v)%Z) (flatten (img_rows img)))).
  { apply Forall_map. eapply Forall_impl; [|exact Hnone].
    intros v Hv. cbv beta in Hv. apply Z.ltb_ge. exact Hv. }
  rewrite En, Es, (count_true_none _ Hb).
  split; [reflexivity|].
  pose proof (masked_weight_none _ (flatten mask) Hb) as W.
  apply orb_false_iff. split; apply Qltb_false.
  - rewrite W. exact Hmax.
  - rewrite W. unfold Qdiv. rewrite Qmult_0_l, Qmult_0_l. discriminate.
Qed.

End ReportRangeFacts.

(** * Reading a raw frame *)

Section RawImageFacts.
Import Numpy raw_image.
Local Open Scope Z_scope.

Lemma byte_value_range (b : Byte.byte) : 0 <= byte_value b < 256.
Proof.
  unfold byte_value. pose proof (Byte.to_N_bounded b) as H.
  lia.
Qed.

Lemma uint16_samples_spec (data : list Byte.byte) : forall n : nat,
  length data = (2 * n)%nat ->
  length (uint16_samples data) = n
  /\ Forall (fun v => 0 <= v <= 65535) (uint16_samples data).
Proof.
  induction data as [data IH] using (well_founded_induction
                                       (Wf_nat.well_founded_ltof _ (@length Byte.byte))).
  intros n Hn. destruct data as [|lo [|hi rest]].
  - simpl in *. split; [lia|constructor].
  - simpl in Hn. lia.
  - cbn [uint16_samples]. destruct n as [|n]; [simpl in Hn; lia|].
    destruct (IH rest ltac:(unfold ltof; simpl; lia) n ltac:(simpl in Hn; lia))
      as [H1 H2].
    split; [simpl; lia|].
    constructor; [|exact H2].
    pose proof (byte_value_range lo). pose proof (byte_value_range hi). lia.
Qed.

Lemma frombuffer_spec (data : list Byte.byte) (d : dtype) (samples : list Z) :
  np_frombuffer data d = Ok samples ->
  Z.of_nat (length samples) * itemsize d = Z.of_nat (length data)
  /\ Forall (fun v => in_dtype d v = true) samples.
Proof.
  unfold np_frombuffer.
  destruct (Z.of_nat (length data) mod itemsize d =? 0) eqn:E; [|discriminate].
  apply Z.eqb_eq in E. intro H. injection H as <-.
  destruct d; cbn [itemsize] in *.
  - split; [rewrite length_map; lia|].
    apply Forall_map. apply Forall_forall. intros b _.
    pose proof (byte_value_range b). unfold in_dtype. cbn. lia.
  - apply Z.mod_divide in E; [|lia]. destruct E as [k Hk].
    assert (Hn : length data = (2 * Z.to_nat k)%nat) by lia.
    destruct (uint16_samples_spec data _ Hn) as [H1 H2].
    split; [lia|].
    eapply Forall_impl; [|exact H2]. intros v Hv. cbv beta in Hv.
    unfold in_dtype. cbn. lia.
Qed.

Lemma chunks_spec (w h : nat) : forall l : list Z,
  length l = (h * w)%nat ->
  concat (chunks w h l) = l
  /\ length (chunks w h l) = h
  /\ Forall (fun r => length r = w) (chunks w h l).
Proof.
  induction h as [|h IH]; intros l Hl.
  - simpl in *. destruct l; [|discriminate]. repeat split. constructor.
  - cbn [chunks concat].
    assert (Hs : length (skipn w l) = (h * w)%nat)
      by (rewrite length_skipn; simpl in Hl; lia).
    destruct (IH (skipn w l) Hs) as (H1 & H2 & H3).
    split; [rewrite H1; apply firstn_skipn|].
    split; [simpl; lia|].
    constructor; [|exact H3].
    rewrite length_firstn. simpl in Hl. lia.
Qed.

Lemma reshape_spec (l : list Z) (height width : Z) (rows : list (list Z)) :
  reshape l height width = Ok rows ->
  concat rows = l
  /\ Z.of_nat (length rows) = height
  /\ Forall (fun r => Z.of_nat (length r) = width) rows.
Proof.
  unfold reshape.
  destruct ((0 <=? height) && (0 <=? width)
            && (height * width =? Z.of_nat (length l))) eqn:E; [|discriminate].
  apply andb_true_iff in E. destruct E as [E E3].
  apply andb_true_iff in E. destruct E as [E1 E2].
  apply Z.leb_le in E1, E2. apply Z.eqb_eq in E3.
  intro H. injection H as <-.
  destruct (chunks_spec (Z.to_nat width) (Z.to_nat height) l) as (H1 & H2 & H3).
  { nia. }
  split; [exact H1|]. split; [lia|].
  eapply Forall_impl; [|exact H3]. intros r Hr. cbv beta in Hr. lia.
Qed.

(** X13: Whatever dimensions are asked for, an image that [read_raw_image]
    returns holds every byte of the file, exactly once: its samples times
    the sample size is the file size, its rows all have the same length,
    and every sample fits the dtype. *)
Theorem read_raw_image_keeps_every_byte :
  forall (data : list Byte.byte) (width height : option Z) (d : dtype)
         (img : Image),
    read_raw_image data width height d = Ok img ->
    img_dtype img = d
    /\ wf_image img = true
    /\ Z.of_nat (size img) * itemsize d = Z.of_nat (length data)
    /\ exists w, Forall (fun r => length r = w) (img_rows img).
Proof.
  intros data width height d img. unfold read_raw_image.
  destruct (frame_dimensions _ width height d) as [h w].
  destruct (np_frombuffer data d) as [samples|] eqn:Ef; [|discriminate].
  cbn [bind].
  destruct (reshape samples h w) as [rows|] eqn:Er; [|discriminate].
  cbn [bind]. intro H. injection H as <-.
  destruct (frombuffer_spec _ _ _ Ef) as [F1 F2].
  destruct (reshape_spec _ _ _ _ Er) as (R1 & R2 & R3).
  split; [reflexivity|]. split; [|split].
  - unfold wf_image. cbn [img_rows img_dtype].
    apply forallb_forall. intros r Hr. apply forallb_forall. intros v Hv.
    rewrite Forall_forall in F2. apply F2. rewrite <- R1.
    apply in_concat. exists r. split; assumption.
  - unfold size, flatten. cbn [img_rows]. rewrite R1. exact F1.
  - exists (Z.to_nat w). eapply Forall_impl; [|exact R3].
    intros r Hr. cbv beta in Hr. lia.
Qed.

Lemma frombuffer_ok (data : list Byte.byte) (d : dtype) :
  Z.of_nat (length data) mod itemsize d = 0 ->
  exists samples,
    np_frombuffer data d = Ok samples
    /\ Z.of_nat (length samples) * itemsize d = Z.of_nat (length data).
Proof.
  intro H. unfold np_frombuffer at 1.
  replace (Z.of_nat (length data) mod itemsize d =? 0) with true
    by (symmetry; apply Z.eqb_eq; exact H).
  eexists. split; [reflexivity|].
  eapply frombuffer_spec. unfold np_frombuffer.
  replace (Z.of_nat (length data) mod itemsize d =? 0) with true
    by (symmetry; apply Z.eqb_eq; exact H).
  reflexivity.
Qed.

Lemma reshape_ok (l : list Z) (height width : Z) :
  0 <= height -> 0 <= width -> height * width = Z.of_nat (length l) ->
  exists rows,
    reshape l height width = Ok rows
    /\ Z.of_nat (length rows) = height
    /\ Forall (fun r => Z.of_nat (length r) = width) rows.
Proof.
  intros Hh Hw Hl.
  assert (E : reshape l height width
              = Ok (chunks (Z.to_nat width) (Z.to_nat height) l)).
  { unfold reshape.
    replace (0 <=? height) with true by (symmetry; apply Z.leb_le; lia).
    replace (0 <=? width) with true by (symmetry; apply Z.leb_le; lia).
    replace (height * width =? Z.of_nat (length l)) with true
      by (symmetry; apply Z.eqb_eq; lia).
    reflexivity. }
  eexists. split; [exact E|].
  destruct (reshape_spec _ _ _ _ E) as (_ & R2 & R3). split; assumption.
Qed.

(** X14: A file of exactly [width * height] samples, for a width other than
    1920, comes back with [height] rows of [width] samples. *)
Theorem read_raw_image_matching_size :
  forall (data : list Byte.byte) (width height : Z) (d : dtype),
    0 <= width -> 0 <= height -> width <> 1920 ->
    Z.of_nat (length data) = width * height * itemsize d ->
    exists img,
      read_raw_image data (Some width) (Some height) d = Ok img
      /\ Z.of_nat (length (img_rows img)) = height
      /\ Forall (fun r => Z.of_nat (length r) = width) (img_rows img).
Proof.
  intros data width height d Hw Hh Hne Hlen.
  unfold read_raw_image, frame_dimensions. cbv zeta.
  replace (width =? 1920) with false by (symmetry; apply Z.eqb_neq; exact Hne).
  replace (Z.of_nat (length data) =? width * height * itemsize d) with true
    by (symmetry; apply Z.eqb_eq; exact Hlen).
  cbn [negb].
  destruct (frombuffer_ok data d) as (samples & Ef & Fl).
  { rewrite Hlen. apply Z.mod_mul. destruct d; discriminate. }
  rewrite Ef. cbn [bind].
  destruct (reshape_ok samples height width Hh Hw) as (rows & Er & R2 & R3).
  { assert (0 < itemsize d) by (destruct d; reflexivity). nia. }
  rewrite Er. cbn [bind]. eexists. split; [reflexivity|].
  split; assumption.
Qed.

(** X15: The width 1920 is always replaced by 960 and the height is then taken
    from the file size: a file holding a 1920 x [height] frame comes back
    as [2 * height] rows of 960 samples. *)
Theorem read_raw_image_halves_width_1920 :
  forall (data : list Byte.byte) (height : Z) (d : dtype),
    0 < height ->
    Z.of_nat (length data) = 1920 * height * itemsize d ->
    exists img,
      read_raw_image data (Some 1920) (Some height) d = Ok img
      /\ Z.of_nat (length (img_rows img)) = 2 * height
      /\ Forall (fun r => Z.of_nat (length r) = 960) (img_rows img).
Proof.
  intros data height d Hh Hlen.
  assert (Hi : 0 < itemsize d) by (destruct d; reflexivity).
  unfold read_raw_image, frame_dimensions. cbv zeta.
  change (1920 =? 1920) with true. cbv iota.
  replace (Z.of_nat (length data) =? 960 * height * itemsize d) with false
    by (symmetry; apply Z.eqb_neq; nia).
  cbn [negb]. change (0 <? 960) with true. cbv iota.
  assert (Ht : Z.of_nat (length data) / itemsize d = 1920 * height)
    by (rewrite Hlen; apply Z.div_mul; lia).
  rewrite Ht.
  replace (1920 * height / 960) with (2 * height)
    by (apply Z.div_unique_exact; lia).
  destruct (frombuffer_ok data d) as (samples & Ef & Fl).
  { rewrite Hlen. apply Z.mod_mul. lia. }
  rewrite Ef. cbn [bind].
  destruct (reshape_ok samples (2 * height) 960) as (rows & Er & R2 & R3);
    [lia|lia|nia|].
  rewrite Er. cbn [bind]. eexists. split; [reflexivity|].
  split; assumption.
Qed.

End RawImageFacts.

(** * Adjustment in the modular front end *)

Section FrontEndFacts.
Import QUtil Numpy image_analyzer.
Local Open Scope Q_scope.

(** X16: The pixel-count estimator returns [saturated_percentage]; the
    adjustment reads [saturation_percentage], finds nothing, and takes the
    default 0: on every report of the estimator the adjustment is +1, and
    the automatic mode of [main.py] raises the intensity by one point per
    frame until it reaches 100, whatever the image shows. *)
Theorem pixel_count_front_end_always_increases :
  forall (rep : saturation_pixel_count_analyzer.Report)
         (st : AnalyzerState) (current : Q),
    let d := with_metadata (pixel_count_dict rep) "pixel_count" in
    dict_get d "saturation_percentage" = None
    /\ calculate_adjustment st (Some d) "pixel_count" current
       = Ok (1, with_current st current)
    /\ auto_adjust st d "pixel_count" current
       = Ok (Qmax 0 (Qmin 100 (current + 1)), with_current st current).
Proof.
  intros rep st current. cbv zeta.
  repeat split; reflexivity.
Qed.

Lemma clamp_after_increase (current a : Q) :
  0 <= current -> current <= 100 -> 0 <= a ->
  current <= Qmax 0 (Qmin 100 (current + a))
  /\ Qmax 0 (Qmin 100 (current + a)) <= 100.
Proof.
  intros H0 H100 Ha. qminmax; split; lra.
Qed.

(** X17: On a report of the histogram estimator the adjustment of the modular
    front end is one of 0, 0.3, 1, 2 and 3: only the dark-image case is
    implemented, so a saturated image is never answered with a decrease,
    and in automatic mode the intensity never goes down. *)
Theorem histogram_front_end_never_decreases :
  forall (rep : histogram_saturation_analyzer.Report)
         (st : AnalyzerState) (current : Q),
    0 <= current -> current <= 100 ->
    let d := with_metadata (histogram_dict rep) "histogram" in
    exists (a new : Q) (st' : AnalyzerState),
      calculate_adjustment st (Some d) "histogram" current = Ok (a, st')
      /\ auto_adjust st d "histogram" current = Ok (new, st')
      /\ In a [0; 3#10; 1; 2; 3]
      /\ current <= new /\ new <= 100.
Proof.
  intros rep st current H0 H100. cbv zeta.
  unfold auto_adjust, calculate_adjustment.
  change (String.eqb "histogram" "histogram") with true. cbv iota.
  unfold _calculate_histogram_adjustment.
  change (get_number (with_metadata (histogram_dict rep) "histogram")
            "highest_bin_percentage" 0)
    with (Ok (histogram_saturation_analyzer.highest_bin_percentage rep)).
  change (get_number (with_metadata (histogram_dict rep) "histogram")
            "weighted_saturation_percentage" 0) with (Ok 0).
  change (get_number (with_metadata (histogram_dict rep) "histogram")
            "high_intensity_sum" 0)
    with (Ok (histogram_saturation_analyzer.high_intensity_sum rep)).
  change (get_number (with_metadata (histogram_dict rep) "histogram")
            "weighted_mean" 0)
    with (Ok (histogram_saturation_analyzer.weighted_mean rep)).
  change (get_number (with_metadata (histogram_dict rep) "histogram")
            "max_intensity" 255)
    with (Ok (inject_Z (histogram_saturation_analyzer.max_intensity rep))).
  cbn [bind]. cbv zeta.
  match goal with
  | |- context [Ok (?adj, ?s)] =>
      set (a := adj); set (s1 := s)
  end.
  assert (Ha : In a [0; 3#10; 1; 2; 3]).
  { subst a. cbn [In].
    repeat match goal with
    | |- context [if ?c then _ else _] => destruct c
    end; tauto. }
  assert (Hpos : 0 <= a).
  { cbn [In] in Ha.
    destruct Ha as [<-|[<-|[<-|[<-|[<-|[]]]]]]; lra. }
  destruct (Qltb (1#100) (Qabs a)) eqn:E.
  - exists a, (Qmax 0 (Qmin 100 (current + a))), s1.
    destruct (clamp_after_increase current a H0 H100 Hpos) as [Hlo Hhi].
    repeat split; auto.
  - exists a, current, s1. repeat split; auto. lra.
Qed.

End FrontEndFacts.

(** * The weight mask of the modular front end *)

Section NormalisedMaskFacts.
Import RUtil image_utils.
Local Open Scope R_scope.

Lemma normalised_grid (h w : nat) (g : nat -> nat -> R) :
  (0 < h)%nat -> (0 < w)%nat ->
  (forall y x, 0 < g y x) ->
  exists m,
    list_max (concat (grid h w g)) = Ok m
    /\ 0 < m
    /\ (exists y x, (y < h)%nat /\ (x < w)%nat /\ m = g y x)
    /\ (forall y x, (y < h)%nat -> (x < w)%nat -> g y x <= m).
Proof.
  intros Hh Hw Hpos.
  assert (Hne : concat (grid h w g) <> []).
  { intro E.
    assert (Hin : In (g 0%nat 0%nat) (concat (grid h w g))).
    { apply in_grid. exists 0%nat, 0%nat. repeat split; assumption. }
    rewrite E in Hin. contradiction. }
  destruct (list_max_nonempty _ Hne) as [m Hm].
  destruct (list_max_spec _ _ Hm) as [Hmin Hmax].
  apply in_grid in Hmin. destruct Hmin as (y & x & Hy & Hx & Em).
  exists m. split; [exact Hm|]. split; [rewrite Em; apply Hpos|].
  split; [exists y, x; auto|].
  intros y' x' Hy' Hx'. apply Hmax. apply in_grid. exists y', x'. auto.
Qed.

Lemma map_grid {A B : Type} (f : A -> B) (h w : nat) (g : nat -> nat -> A) :
  map (map f) (grid h w g) = grid h w (fun y x => f (g y x)).
Proof.
  unfold grid. rewrite map_map. apply map_ext. intro y.
  rewrite map_map. reflexivity.
Qed.

Lemma div_by_max (v m : R) : 0 < v -> v <= m -> 0 < v / m <= 1.
Proof.
  intros Hv Hm. split.
  - apply Rdiv_lt_0_compat; lra.
  - apply Rmult_le_reg_r with m; [lra|].
    unfold Rdiv. rewrite Rmult_assoc, Rinv_l, Rmult_1_r, Rmult_1_l by lra.
    exact Hm.
Qed.

Lemma mask_unfold h w center sigma flat_top_radius :
  exists g : nat -> nat -> R,
    (forall y x, 0 < g y x <= 1)
    /\ (forall y x,
          g y x =
          match flat_top_radius with
          | Some r =>
              if Rle_dec (dist_from_center (center_of (h, w) center) y x) r
              then 1
              else exp (- 0.5 * (dist_from_center (center_of (h, w) center)
                                   y x / sigma_of (h, w) sigma) ^ 2)
          | None =>
              exp (- 0.5 * (dist_from_center (center_of (h, w) center)
                              y x / sigma_of (h, w) sigma) ^ 2)
          end)
    /\ create_radial_weight_mask (h, w) center sigma flat_top_radius
       = (m <- list_max (concat (grid h w g)) ;;
          Ok (map (map (fun v => v / m)) (grid h w g))).
Proof.
  assert (Hexp : forall d s : R, 0 < exp (- 0.5 * (d / s) ^ 2) <= 1).
  { intros d s. split; [apply exp_pos|]. apply exp_le_1.
    pose proof (pow2_ge_0 (d / s)). lra. }
  eexists. split; [|split; [intros y x; reflexivity|]].
  - intros y x. destruct flat_top_radius as [r|].
    + destruct (Rle_dec _ r); [lra|apply Hexp].
    + apply Hexp.
  - unfold create_radial_weight_mask, center_of, sigma_of. cbn [fst snd].
    destruct flat_top_radius; reflexivity.
Qed.

(** X18: Whatever the centre, on or off the image, and with or without a flat
    top, as long as the Gaussian exponents stay within the range in which
    the exponential of a double does not underflow, the mask of the
    modular front end is built without error on a non-empty image for a
    sigma other than zero, its weights lie in (0, 1] and its largest
    weight is exactly 1. *)
Theorem normalised_mask_peaks_at_one :
  forall (h w : nat) (center : option (R * R)) (sigma : option R)
         (flat_top_radius : option R),
    (0 < h)%nat -> (0 < w)%nat ->
    sigma_of (h, w) sigma <> 0 ->
    Properties.within_exponent_range (h, w) (exponent (h, w) center sigma) ->
    exists mask,
      create_radial_weight_mask (h, w) center sigma flat_top_radius = Ok mask
      /\ (forall v, In v (concat mask) -> 0 < v <= 1)
      /\ list_max (concat mask) = Ok 1.
Proof.
  intros h w center sigma flat_top_radius Hh Hw _ _.
  destruct (mask_unfold h w center sigma flat_top_radius)
    as (g & Hg & _ & ->).
  destruct (normalised_grid h w g Hh Hw (fun y x => proj1 (Hg y x)))
    as (m & Hm & Hmpos & (y0 & x0 & Hy0 & Hx0 & Em) & Hmax).
  rewrite Hm. cbn [bind]. eexists. split; [reflexivity|].
  rewrite map_grid.
  assert (Hval : forall v,
             In v (concat (grid h w (fun y x => g y x / m))) -> 0 < v <= 1).
  { intros v Hv. apply in_grid in Hv.
    destruct Hv as (y & x & Hy & Hx & ->).
    apply div_by_max; [apply Hg|apply Hmax; assumption]. }
  split; [exact Hval|].
  apply list_max_intro; [|intros v Hv; apply Hval; exact Hv].
  apply in_grid. exists y0, x0. repeat split; auto.
  rewrite <- Em. field. lra.
Qed.

(** X19: When at least one pixel lies within the flat-top radius and sigma is
    not zero, the normalisation changes nothing: a pixel within the radius weighs 1 and a
    pixel outside keeps the Gaussian of its full distance to the centre, so
    the weight drops at the rim from 1 to exp(-r^2 / (2 sigma^2)). *)
Theorem flat_top_mask_weights :
  forall (h w : nat) (center : option (R * R)) (sigma : option R) (r : R)
         (y0 x0 : nat),
    (y0 < h)%nat -> (x0 < w)%nat ->
    sigma_of (h, w) sigma <> 0 ->
    dist_from_center (center_of (h, w) center) y0 x0 <= r ->
    exists mask,
      create_radial_weight_mask (h, w) center sigma (Some r) = Ok mask
      /\ forall y x, (y < h)%nat -> (x < w)%nat ->
           nth x (nth y mask []) 0 =
           if Rle_dec (dist_from_center (center_of (h, w) center) y x) r
           then 1
           else exp (- (dist_from_center (center_of (h, w) center) y x) ^ 2
                       / (2 * sigma_of (h, w) sigma ^ 2)).
Proof.
  intros h w center sigma r y0 x0 Hy0 Hx0 Hs Hin.
  destruct (mask_unfold h w center sigma (Some r)) as (g & Hg & Eg & ->).
  assert (Hm : list_max (concat (grid h w g)) = Ok 1).
  { apply list_max_intro.
    - apply in_grid. exists y0, x0. repeat split; auto.
      rewrite Eg. destruct (Rle_dec _ r); [reflexivity|contradiction].
    - intros v Hv. apply in_grid in Hv.
      destruct Hv as (y & x & _ & _ & ->). apply Hg. }
  rewrite Hm. cbn [bind]. eexists. split; [reflexivity|].
  intros y x Hy Hx. rewrite map_grid, grid_nth by assumption.
  rewrite Eg. destruct (Rle_dec _ r); [field|].
  unfold Rdiv at 1. rewrite Rinv_1, Rmult_1_r. f_equal.
  replace (- 0.5) with (- (1 / 2)) by lra. field. exact Hs.
Qed.

End NormalisedMaskFacts.

(** * The contrast bands *)

Section ContrastBandFacts.
Import RUtil Numpy contrast_analyzer Properties.
Local Open Scope R_scope.

Lemma weighted_bands (cmap : list R) : forall weights : list R,
  length cmap = length weights ->
  weighted_count (fun c => Rltb c low_contrast_threshold) cmap weights
  + weighted_count (fun c => Rleb low_contrast_threshold c
                             && Rleb c high_contrast_threshold) cmap weights
  + weighted_count (fun c => Rltb high_contrast_threshold c) cmap weights
  = Rsum weights.
Proof.
  unfold weighted_count.
  induction cmap as [|c cmap IH]; intros [|w weights] Hl;
    try discriminate; cbn [combine map Rsum fst snd]; [lra|].
  injection Hl as Hl. specialize (IH weights Hl).
  unfold Rltb, Rleb, low_contrast_threshold, high_contrast_threshold in *.
  destruct (Rlt_dec c 0.15), (Rle_dec 0.15 c), (Rle_dec c 0.6),
    (Rlt_dec 0.6 c); cbn [andb]; lra.
Qed.

Lemma weighted_count_nonneg (P : R -> bool) (cmap : list R) :
  forall weights : list R,
    (forall w, In w weights -> 0 <= w) ->
    0 <= weighted_count P cmap weights.
Proof.
  unfold weighted_count.
  induction cmap as [|c cmap IH]; intros [|w weights] Hw;
    cbn [combine map Rsum fst snd]; try lra.
  pose proof (Hw w (or_introl eq_refl)).
  pose proof (IH weights (fun v Hv => Hw v (or_intror Hv))).
  destruct (P c); lra.
Qed.

Lemma checked_div_inv (a b q : R) :
  checked_div a b = Ok q -> b <> 0 /\ q = a / b.
Proof.
  unfold checked_div. destruct (Req_dec_T b 0); [discriminate|].
  intro H. injection H as <-. split; [assumption|reflexivity].
Qed.

Lemma np_average_inv (values weights : list R) (q : R) :
  contrast_analyzer.np_average values weights = Ok q ->
  length values = length weights /\ Rsum weights <> 0.
Proof.
  unfold contrast_analyzer.np_average.
  destruct (Nat.eqb (length values) (length weights)) eqn:E; [|discriminate].
  intro H. apply checked_div_inv in H.
  split; [apply Nat.eqb_eq; exact E|tauto].
Qed.

Ltac open_bind H :=
  match type of H with
  | bind ?m _ = Ok _ =>
      let E := fresh "E" in
      destruct m eqn:E; cbn [bind] in H; [|discriminate H]
  end.

Lemma analyze_contrast_bands (img : Image) (ws : nat)
    (mask : list (list R)) (rep : Report) :
  analyze_contrast img ws mask = Ok rep ->
  exists low optimal high total : R,
    total <> 0
    /\ low + optimal + high = total
    /\ ((forall w, In w (flatten mask) -> 0 <= w) ->
        0 <= low /\ 0 <= optimal /\ 0 <= high)
    /\ low_contrast_percentage rep = low / total * 100
    /\ optimal_contrast_percentage rep = optimal / total * 100
    /\ high_contrast_percentage rep = high / total * 100.
Proof.
  unfold analyze_contrast. cbv zeta. intro H.
  do 4 open_bind H.
  destruct (negb (same_shape (img_rows img) mask)); [discriminate H|].
  do 6 open_bind H.
  injection H as <-. cbn [low_contrast_percentage
    optimal_contrast_percentage high_contrast_percentage].
  match goal with
  | Ha : contrast_analyzer.np_average (flatten _) (flatten mask) = Ok _ |- _ =>
      destruct (np_average_inv _ _ _ Ha) as [Hlen Htot]
  end.
  repeat match goal with
  | Hd : checked_div _ (Rsum (flatten mask)) = Ok _ |- _ =>
      apply checked_div_inv in Hd; destruct Hd as [_ ->]
  end.
  do 3 eexists. exists (Rsum (flatten mask)).
  split; [exact Htot|].
  split; [apply weighted_bands; exact Hlen|].
  split; [|repeat split; reflexivity].
  intro Hw. repeat split; apply weighted_count_nonneg; exact Hw.
Qed.

(** X20: Whenever the contrast estimator returns a report, its three band
    percentages (low, optimal and high local contrast) add up to 100: the
    bands [c < 0.15], [0.15 <= c <= 0.6] and [0.6 < c] split the weight of
    the mask without overlap or gap. *)
Theorem contrast_bands_sum_to_100 :
  forall (img : Image) (ws : nat) (mask : list (list R)) (rep : Report),
    analyze_contrast img ws mask = Ok rep ->
    low_contrast_percentage rep + optimal_contrast_percentage rep
    + high_contrast_percentage rep = 100.
Proof.
  intros img ws mask rep H.
  destruct (analyze_contrast_bands img ws mask rep H)
    as (low & opt & high & total & Ht & Hsum & _ & -> & -> & ->).
  rewrite <- Hsum. field. rewrite Hsum. exact Ht.
Qed.

(** X21: With a mask without negative weights, each band percentage of a
    returned report lies between 0 and 100. *)
Theorem contrast_bands_within_0_100 :
  forall (img : Image) (ws : nat) (mask : list (list R)) (rep : Report),
    (forall w, In w (flatten mask) -> 0 <= w) ->
    analyze_contrast img ws mask = Ok rep ->
    0 <= low_contrast_percentage rep <= 100
    /\ 0 <= optimal_contrast_percentage rep <= 100
    /\ 0 <= high_contrast_percentage rep <= 100.
Proof.
  intros img ws mask rep Hw H.
  destruct (analyze_contrast_bands img ws mask rep H)
    as (low & opt & high & total & Ht & Hsum & Hpos & -> & -> & ->).
  destruct (Hpos Hw) as (Hl & Ho & Hh).
  assert (Htpos : 0 < total) by lra.
  assert (Hfrac : forall a, 0 <= a -> a <= total -> 0 <= a / total * 100 <= 100).
  { intros a Ha Hat. split.
    - apply Rmult_le_pos; [|lra].
      apply Rmult_le_pos; [exact Ha|]. left. apply Rinv_0_lt_compat. exact Htpos.
    - apply Rmult_le_reg_r with total; [exact Htpos|].
      replace (a / total * 100 * total) with (a * 100) by (field; lra). lra. }
  repeat split; apply Hfrac; lra.
Qed.

End ContrastBandFacts.

(** * Instances of the additional statements *)

Section SerialInstances.
Import QUtil serial_protocol.

Lemma current_12bit_instance_50_75 :
  (0 <= 50)%Q /\ (50 <= 75)%Q /\ (75 <= 100)%Q
  /\ (0 <= current_12bit 50)%Z
  /\ (current_12bit 50 <= current_12bit 75)%Z
  /\ (current_12bit 75 <= 4095)%Z.
Proof.
  assert (H1 : (0 <= 50)%Q) by (vm_compute; discriminate).
  assert (H2 : (50 <= 75)%Q) by (vm_compute; discriminate).
  assert (H3 : (75 <= 100)%Q) by (vm_compute; discriminate).
  split; [exact H1|]. split; [exact H2|]. split; [exact H3|].
  destruct (current_12bit_within_dac_range 50 75 H1 H2 H3)
    as (Ha & Hb & Hc & _).
  repeat split; assumption.
Defined.

Lemma collect_data_instance_after_noise :
  Forall (fun b => b <> 255%Z) [7%Z; 3%Z]
  /\ (0 <= 1000 < 65536)%Z /\ (0 <= 2000 < 65536)%Z
  /\ collect_data ([7%Z; 3%Z] ++ packet_values 1000 2000 ++ [9%Z])
     = (Some (mkReading 1000 25 ((inject_Z 2000 / 4095) * 5)%Q), [9%Z]).
Proof.
  assert (H1 : Forall (fun b => b <> 255%Z) [7%Z; 3%Z]).
  { constructor; [discriminate|]. constructor; [discriminate|constructor]. }
  assert (H2 : (0 <= 1000 < 65536)%Z) by lia.
  assert (H3 : (0 <= 2000 < 65536)%Z) by lia.
  split; [exact H1|]. split; [exact H2|]. split; [exact H3|].
  exact (collect_data_recovers_packet [7%Z; 3%Z] [9%Z] 1000 2000 H1 H2 H3).
Defined.

End SerialInstances.

Section EngineRunInstances.
Import QUtil updated_widget.
Local Open Scope Q_scope.

Lemma target_instance_half_point_down :
  (0 <= 50 <= 100)%Z /\ new_value 50 (-(1#2)) = 49%Z.
Proof.
  assert (H1 : (0 <= 50 <= 100)%Z) by lia.
  assert (H2 : -(1) < -(1#2)) by (vm_compute; reflexivity).
  assert (H3 : -(1#2) < 0) by (vm_compute; reflexivity).
  assert (H4 : (1 <= 50)%Z) by lia.
  split; [exact H1|].
  exact (proj1 (target_moves_in_whole_points 50 (-(1#2)) H1) H2 H3 H4).
Defined.

End EngineRunInstances.

Section ReportInstances.
Import QUtil Numpy ReportRanges Properties.
Local Open Scope Q_scope.

Lemma histogram_percentages_instance_two_pixels :
  wf_image two_pixel_image = true
  /\ same_shape (img_rows two_pixel_image) unit_mask = true
  /\ ~ Qsum (flatten unit_mask) == 0
  /\ 0 <= histogram_saturation_analyzer.default_high_intensity_threshold
  /\ exists rep,
      histogram_saturation_analyzer.analyze_saturation_by_histogram
        two_pixel_image
        histogram_saturation_analyzer.default_high_intensity_threshold
        histogram_saturation_analyzer.default_critical_bin_threshold
        unit_mask = Ok rep
      /\ Qsum (histogram_saturation_analyzer.histogram_percentage rep) == 100.
Proof.
  assert (H1 : wf_image two_pixel_image = true) by reflexivity.
  assert (H2 : same_shape (img_rows two_pixel_image) unit_mask = true)
    by reflexivity.
  assert (H3 : ~ Qsum (flatten unit_mask) == 0)
    by (vm_compute; discriminate).
  assert (H4 : 0 <= histogram_saturation_analyzer.default_high_intensity_threshold)
    by (vm_compute; discriminate).
  split; [exact H1|]. split; [exact H2|]. split; [exact H3|].
  split; [exact H4|].
  destruct (histogram_percentages_sum_to_100 two_pixel_image
              histogram_saturation_analyzer.default_high_intensity_threshold
              histogram_saturation_analyzer.default_critical_bin_threshold
              unit_mask H1 H2 H3 H4)
    as (rep & Hrep & _ & Hsum).
  exists rep. split; assumption.
Defined.

Lemma histogram_ranges_instance_two_pixels :
  wf_image two_pixel_image = true
  /\ same_shape (img_rows two_pixel_image) unit_mask = true
  /\ nonnegative_mask unit_mask
  /\ 0 < Qsum (flatten unit_mask)
  /\ 0 <= histogram_saturation_analyzer.default_high_intensity_threshold
  /\ histogram_saturation_analyzer.default_high_intensity_threshold <= 1
  /\ exists rep,
      histogram_saturation_analyzer.analyze_saturation_by_histogram
        two_pixel_image
        histogram_saturation_analyzer.default_high_intensity_threshold
        histogram_saturation_analyzer.default_critical_bin_threshold
        unit_mask = Ok rep
      /\ histogram_saturation_analyzer.high_intensity_sum rep <= 100
      /\ histogram_saturation_analyzer.weighted_mean rep <= 255.
Proof.
  assert (H1 : wf_image two_pixel_image = true) by reflexivity.
  assert (H2 : same_shape (img_rows two_pixel_image) unit_mask = true)
    by reflexivity.
  assert (H3 : nonnegative_mask unit_mask).
  { unfold nonnegative_mask. simpl.
    constructor; [vm_compute; discriminate|].
    constructor; [vm_compute; discriminate|constructor]. }
  assert (H4 : 0 < Qsum (flatten unit_mask)) by (vm_compute; reflexivity).
  assert (H5 : 0 <= histogram_saturation_analyzer.default_high_intensity_threshold)
    by (vm_compute; discriminate).
  assert (H6 : histogram_saturation_analyzer.default_high_intensity_threshold <= 1)
    by (vm_compute; discriminate).
  split; [exact H1|]. split; [exact H2|]. split; [exact H3|].
  split; [exact H4|]. split; [exact H5|]. split; [exact H6|].
  destruct (histogram_report_within_ranges two_pixel_image
              histogram_saturation_analyzer.default_high_intensity_threshold
              histogram_saturation_analyzer.default_critical_bin_threshold
              unit_mask H1 H2 H3 H4 H5 H6)
    as (rep & Hrep & _ & _ & Hhi & _ & Hmean).
  exists rep. repeat split; assumption.
Defined.

Lemma pixel_count_ranges_instance_two_pixels :
  same_shape (img_rows two_pixel_image) unit_mask = true
  /\ nonnegative_mask unit_mask
  /\ 0 < Qsum (flatten unit_mask)
  /\ exists rep,
      saturation_pixel_count_analyzer.analyze_saturation_by_pixel_count
        two_pixel_image
        saturation_pixel_count_analyzer.default_saturation_threshold
        saturation_pixel_count_analyzer.default_max_weighted_saturation
        unit_mask = Ok rep
      /\ saturation_pixel_count_analyzer.saturated_percentage rep <= 100
      /\ saturation_pixel_count_analyzer.weighted_saturation_percentage rep
         <= 100.
Proof.
  assert (H2 : same_shape (img_rows two_pixel_image) unit_mask = true)
    by reflexivity.
  assert (H3 : nonnegative_mask unit_mask).
  { unfold nonnegative_mask. simpl.
    constructor; [vm_compute; discriminate|].
    constructor; [vm_compute; discriminate|constructor]. }
  assert (H4 : 0 < Qsum (flatten unit_mask)) by (vm_compute; reflexivity).
  split; [exact H2|]. split; [exact H3|]. split; [exact H4|].
  destruct (pixel_count_percentages_within_0_100 two_pixel_image
              saturation_pixel_count_analyzer.default_saturation_threshold
              saturation_pixel_count_analyzer.default_max_weighted_saturation
              unit_mask H2 H3 H4)
    as (rep & Hrep & _ & _ & Hp & _ & Hw).
  exists rep. repeat split; assumption.
Defined.

Lemma below_threshold_instance_one_pixel :
  same_shape (img_rows one_pixel_image) [[1]] = true
  /\ 0 <= saturation_pixel_count_analyzer.default_max_weighted_saturation
  /\ none_above
       (int_of_Q (inject_Z (max_possible_value (img_dtype one_pixel_image))
                  * saturation_pixel_count_analyzer.default_saturation_threshold))
       one_pixel_image
  /\ exists rep,
      saturation_pixel_count_analyzer.analyze_saturation_by_pixel_count
        one_pixel_image
        saturation_pixel_count_analyzer.default_saturation_threshold
        saturation_pixel_count_analyzer.default_max_weighted_saturation
        [[1]] = Ok rep
      /\ saturation_pixel_count_analyzer.saturated_pixels rep = 0%Z
      /\ saturation_pixel_count_analyzer.is_saturated rep = false.
Proof.
  assert (H1 : same_shape (img_rows one_pixel_image) [[1]] = true)
    by reflexivity.
  assert (H2 : 0 <= saturation_pixel_count_analyzer.default_max_weighted_saturation)
    by (vm_compute; discriminate).
  assert (H3 : none_above
                 (int_of_Q (inject_Z (max_possible_value
                                        (img_dtype one_pixel_image))
                            * saturation_pixel_count_analyzer.default_saturation_threshold))
                 one_pixel_image).
  { unfold none_above. simpl.
    constructor; [vm_compute; discriminate|constructor]. }
  split; [exact H1|]. split; [exact H2|]. split; [exact H3|].
  exact (image_below_threshold_is_not_flagged one_pixel_image
           saturation_pixel_count_analyzer.default_saturation_threshold
           saturation_pixel_count_analyzer.default_max_weighted_saturation
           [[1]] H1 H2 H3).
Defined.

End ReportInstances.

Section RawImageInstances.
Import Numpy raw_image.
Local Open Scope Z_scope.

Lemma read_raw_image_instance_two_bytes :
  read_raw_image [Byte.x01; Byte.x02] (Some 2) (Some 1) uint8
  = Ok (mkImage uint8 [[1; 2]])
  /\ wf_image (mkImage uint8 [[1; 2]]) = true
  /\ Z.of_nat (size (mkImage uint8 [[1; 2]])) * itemsize uint8
     = Z.of_nat (length [Byte.x01; Byte.x02]).
Proof.
  assert (H1 : read_raw_image [Byte.x01; Byte.x02] (Some 2) (Some 1) uint8
               = Ok (mkImage uint8 [[1; 2]])) by reflexivity.
  split; [exact H1|].
  destruct (read_raw_image_keeps_every_byte _ _ _ _ _ H1)
    as (_ & Hwf & Hsize & _).
  split; assumption.
Defined.

Lemma read_raw_image_instance_uint16 :
  0 <= 2 /\ 0 <= 1 /\ 2 <> 1920
  /\ Z.of_nat (length [Byte.x01; Byte.x02; Byte.x03; Byte.x04])
     = 2 * 1 * itemsize uint16
  /\ exists img,
      read_raw_image [Byte.x01; Byte.x02; Byte.x03; Byte.x04]
        (Some 2) (Some 1) uint16 = Ok img
      /\ Z.of_nat (length (img_rows img)) = 1
      /\ Forall (fun r => Z.of_nat (length r) = 2) (img_rows img).
Proof.
  assert (H1 : 0 <= 2) by lia.
  assert (H2 : 0 <= 1) by lia.
  assert (H3 : 2 <> 1920) by lia.
  assert (H4 : Z.of_nat (length [Byte.x01; Byte.x02; Byte.x03; Byte.x04])
               = 2 * 1 * itemsize uint16) by reflexivity.
  split; [exact H1|]. split; [exact H2|]. split; [exact H3|].
  split; [exact H4|].
  exact (read_raw_image_matching_size
           [Byte.x01; Byte.x02; Byte.x03; Byte.x04] 2 1 uint16 H1 H2 H3 H4).
Defined.

Lemma read_raw_image_instance_1920_bytes :
  0 < 1
  /\ Z.of_nat (length (repeat Byte.x00 1920)) = 1920 * 1 * itemsize uint8
  /\ exists img,
      read_raw_image (repeat Byte.x00 1920) (Some 1920) (Some 1) uint8
      = Ok img
      /\ Z.of_nat (length (img_rows img)) = 2 * 1
      /\ Forall (fun r => Z.of_nat (length r) = 960) (img_rows img).
Proof.
  assert (H1 : 0 < 1) by lia.
  assert (H2 : Z.of_nat (length (repeat Byte.x00 1920))
               = 1920 * 1 * itemsize uint8) by (vm_compute; reflexivity).
  split; [exact H1|]. split; [exact H2|].
  exact (read_raw_image_halves_width_1920 (repeat Byte.x00 1920) 1 uint8
           H1 H2).
Defined.

End RawImageInstances.

Section FrontEndInstances.
Import QUtil image_analyzer.
Local Open Scope Q_scope.

Lemma histogram_front_end_instance_at_20 :
  0 <= 20 /\ 20 <= 100
  /\ exists (a new : Q) (st' : AnalyzerState),
      auto_adjust initial_state
        (with_metadata
           (histogram_dict
              (histogram_saturation_analyzer.mkReport
                 [] [] 229 50 40 true 200 0 255 30))
           "histogram")
        "histogram" 20 = Ok (new, st')
      /\ In a [0; 3#10; 1; 2; 3]
      /\ 20 <= new /\ new <= 100.
Proof.
  assert (H1 : 0 <= 20) by (vm_compute; discriminate).
  assert (H2 : 20 <= 100) by (vm_compute; discriminate).
  split; [exact H1|]. split; [exact H2|].
  destruct (histogram_front_end_never_decreases
              (histogram_saturation_analyzer.mkReport
                 [] [] 229 50 40 true 200 0 255 30)
              initial_state 20 H1 H2)
    as (a & new & st' & _ & Hauto & Hin & Hlo & Hhi).
  exists a, new, st'. repeat split; assumption.
Defined.

End FrontEndInstances.

Section RealMaskInstances.
Import RUtil Numpy image_utils contrast_analyzer Properties.
Local Open Scope R_scope.

Lemma normalised_mask_instance_single_pixel :
  (0 < 1)%nat /\ (0 < 1)%nat
  /\ sigma_of (1%nat, 1%nat) (Some 1) <> 0
  /\ within_exponent_range (1%nat, 1%nat)
       (exponent (1%nat, 1%nat) None (Some 1))
  /\ exists mask,
      create_radial_weight_mask (1%nat, 1%nat) None (Some 1) None = Ok mask
      /\ list_max (concat mask) = Ok 1.
Proof.
  assert (H1 : (0 < 1)%nat) by lia.
  assert (H2 : sigma_of (1%nat, 1%nat) (Some 1) <> 0) by (simpl; lra).
  assert (H3 : within_exponent_range (1%nat, 1%nat)
                 (exponent (1%nat, 1%nat) None (Some 1))).
  { intros y x Hy Hx. cbn [fst snd] in Hy, Hx.
    assert (y = 0%nat) by lia. assert (x = 0%nat) by lia. subst y x.
    unfold exponent, exponent_limit, dist_from_center, center_of, sigma_of.
    simpl.
    replace ((0 - 0) * ((0 - 0) * 1) + (0 - 0) * ((0 - 0) * 1)) with 0 by ring.
    rewrite sqrt_0. lra. }
  split; [exact H1|]. split; [exact H1|]. split; [exact H2|].
  split; [exact H3|].
  destruct (normalised_mask_peaks_at_one 1 1 None (Some 1) None H1 H1 H2 H3)
    as (mask & Hmask & _ & Hmax).
  exists mask. split; assumption.
Defined.

Lemma flat_top_instance_single_pixel :
  (0 < 1)%nat /\ (0 < 1)%nat
  /\ sigma_of (1%nat, 1%nat) (Some 1) <> 0
  /\ dist_from_center (center_of (1%nat, 1%nat) None) 0 0 <= 1
  /\ exists mask,
      create_radial_weight_mask (1%nat, 1%nat) None (Some 1) (Some 1)
      = Ok mask
      /\ nth 0 (nth 0 mask []) 0 = 1.
Proof.
  assert (H1 : (0 < 1)%nat) by lia.
  assert (H2 : sigma_of (1%nat, 1%nat) (Some 1) <> 0) by (simpl; lra).
  assert (H3 : dist_from_center (center_of (1%nat, 1%nat) None) 0 0 <= 1).
  { unfold dist_from_center, center_of. simpl.
    replace ((0 - 0) * ((0 - 0) * 1) + (0 - 0) * ((0 - 0) * 1)) with 0 by ring.
    rewrite sqrt_0. lra. }
  split; [exact H1|]. split; [exact H1|]. split; [exact H2|].
  split; [exact H3|].
  destruct (flat_top_mask_weights 1 1 None (Some 1) 1 0 0 H1 H1 H2 H3)
    as (mask & Hmask & Hw).
  exists mask. split; [exact Hmask|].
  rewrite (Hw 0%nat 0%nat H1 H1).
  destruct (Rle_dec _ 1); [reflexivity|contradiction].
Defined.

Lemma contrast_bands_instance_black_pixel :
  exists rep,
    analyze_contrast black_pixel_image 7 unit_weight = Ok rep
    /\ low_contrast_percentage rep + optimal_contrast_percentage rep
       + high_contrast_percentage rep = 100.
Proof.
  assert (H1 : rectangular black_pixel_image).
  { unfold rectangular. simpl. repeat constructor. }
  assert (H2 : same_shape (img_rows black_pixel_image) unit_weight = true)
    by reflexivity.
  assert (H3 : 0 < Rsum (flatten unit_weight)) by (simpl; lra).
  assert (H4 : (0 < 7)%nat) by lia.
  destruct (analyze_contrast_report black_pixel_image 7 unit_weight
              H1 H2 H3 H4) as (rep & Hrep & _).
  exists rep. split; [exact Hrep|].
  exact (contrast_bands_sum_to_100 black_pixel_image 7 unit_weight rep Hrep).
Defined.

Lemma contrast_band_ranges_instance_black_pixel :
  (forall w, In w (flatten unit_weight) -> 0 <= w)
  /\ exists rep,
      analyze_contrast black_pixel_image 7 unit_weight = Ok rep
      /\ 0 <= low_contrast_percentage rep <= 100
      /\ 0 <= optimal_contrast_percentage rep <= 100
      /\ 0 <= high_contrast_percentage rep <= 100.
Proof.
  assert (H0 : forall w, In w (flatten unit_weight) -> 0 <= w).
  { intros w [<-|[]]. lra. }
  assert (H1 : rectangular black_pixel_image).
  { unfold rectangular. simpl. repeat constructor. }
  assert (H2 : same_shape (img_rows black_pixel_image) unit_weight = true)
    by reflexivity.
  assert (H3 : 0 < Rsum (flatten unit_weight)) by (simpl; lra).
  assert (H4 : (0 < 7)%nat) by lia.
  split; [exact H0|].
  destruct (analyze_contrast_report black_pixel_image 7 unit_weight
              H1 H2 H3 H4) as (rep & Hrep & _).
  exists rep. split; [exact Hrep|].
  exact (contrast_bands_within_0_100 black_pixel_image 7 unit_weight rep
           H0 Hrep).
Defined.

End RealMaskInstances.
